(** * go-uploader: the upload request handler, embedded and verified

    A shallow embedding of [main.go] (the resilient revision of
    [uploadHandler] and [sanitizeFilename]) and of the storage backends of
    package [storage], together with the parts of the Go standard library
    the handler calls ([unicode/utf8], [strings], [errors], [path/filepath],
    [time], [fmt]).

    Go strings are byte sequences: they are modelled as [string], whose
    characters ([ascii]) are the bytes.  Runes and Go [int]s are [Z]. *)

From Stdlib Require Import ZArith List String Ascii Bool Lia Arith DecimalString.
Import ListNotations.

Open Scope string_scope.
Open Scope Z_scope.

(* ================================================================= *)
(** ** Package [unicode/utf8] *)

Module utf8.

Definition RuneError : Z := 0xFFFD.
Definition RuneSelf : Z := 0x80.
Definition MaxRune : Z := 0x10FFFF.

(** The value of a byte, and the byte with a given value. *)
Definition byte (a : ascii) : Z := Z.of_N (N_of_ascii a).
Definition chr (z : Z) : ascii := ascii_of_N (Z.to_N z).

(** [first[s0] & 7]: the length of the sequence a byte starts; [1] for
    ASCII, [0] for a byte that starts no sequence (the table's [xx]). *)
Definition size (s0 : Z) : Z :=
  if s0 <? 0x80 then 1
  else if s0 <? 0xC2 then 0
  else if s0 <? 0xE0 then 2
  else if s0 <? 0xF0 then 3
  else if s0 <? 0xF5 then 4
  else 0.

(** [acceptRanges[first[s0] >> 4]]: the range of the second byte. *)
Definition accept_lo (s0 : Z) : Z :=
  if s0 =? 0xE0 then 0xA0 else if s0 =? 0xF0 then 0x90 else 0x80.
Definition accept_hi (s0 : Z) : Z :=
  if s0 =? 0xED then 0x9F else if s0 =? 0xF4 then 0x8F else 0xBF.

(** A continuation byte lies in [locb, hicb]. *)
Definition locb : Z := 0x80.
Definition hicb : Z := 0xBF.

(** [utf8.DecodeRuneInString]: the first rune of [s] and its width in
    bytes; an invalid or short encoding gives [(RuneError, 1)].  The
    masks and shifts of the library are written with [mod] and [*]:
    [s0 & mask2 << 6] is [(s0 mod 32) * 64], and the or-ed fields are
    disjoint, so [|] is [+]. *)
Definition DecodeRuneInString (s : string) : Z * nat :=
  match s with
  | "" => (RuneError, 0%nat)
  | String a0 t0 =>
    let s0 := byte a0 in
    if s0 <? RuneSelf then (s0, 1%nat)
    else if size s0 =? 0 then (RuneError, 1%nat)
    else if Z.of_nat (String.length s) <? size s0 then (RuneError, 1%nat)
    else
      match t0 with
      | "" => (RuneError, 1%nat)
      | String a1 t1 =>
        let s1 := byte a1 in
        if (s1 <? accept_lo s0) || (accept_hi s0 <? s1) then (RuneError, 1%nat)
        else if size s0 <=? 2 then ((s0 mod 32) * 64 + s1 mod 64, 2%nat)
        else
          match t1 with
          | "" => (RuneError, 1%nat)
          | String a2 t2 =>
            let s2 := byte a2 in
            if (s2 <? locb) || (hicb <? s2) then (RuneError, 1%nat)
            else if size s0 <=? 3
                 then ((s0 mod 16) * 4096 + (s1 mod 64) * 64 + s2 mod 64, 3%nat)
            else
              match t2 with
              | "" => (RuneError, 1%nat)
              | String a3 _ =>
                let s3 := byte a3 in
                if (s3 <? locb) || (hicb <? s3) then (RuneError, 1%nat)
                else ((s0 mod 8) * 262144 + (s1 mod 64) * 4096
                      + (s2 mod 64) * 64 + s3 mod 64, 4%nat)
              end
          end
      end
  end.

(** [utf8.AppendRune] on an empty buffer: the encoding of [r].  A rune
    out of range or a surrogate is encoded as [RuneError]. *)
Definition enc3 (r : Z) : string :=
  String (chr (0xE0 + r / 4096))
    (String (chr (0x80 + (r / 64) mod 64))
       (String (chr (0x80 + r mod 64)) "")).

Definition EncodeRune (r : Z) : string :=
  if (0 <=? r) && (r <=? 0x7F) then String (chr r) ""
  else if (0 <=? r) && (r <=? 0x7FF)
    then String (chr (0xC0 + r / 64)) (String (chr (0x80 + r mod 64)) "")
  else if (r <? 0) || (MaxRune <? r) || ((0xD800 <=? r) && (r <=? 0xDFFF))
    then enc3 RuneError
  else if r <=? 0xFFFF then enc3 r
  else
    String (chr (0xF0 + r / 262144))
      (String (chr (0x80 + (r / 4096) mod 64))
         (String (chr (0x80 + (r / 64) mod 64))
            (String (chr (0x80 + r mod 64)) ""))).

(** The slices [s[:n]] and [s[n:]]. *)
Fixpoint take (n : nat) (s : string) : string :=
  match n, s with
  | S k, String a t => String a (take k t)
  | _, _ => ""
  end.

Fixpoint drop (n : nat) (s : string) : string :=
  match n, s with
  | S k, String _ t => drop k t
  | _, _ => s
  end.

(** [for i, c := range s]: the runes of [s] in order, each with the
    bytes it was decoded from.  [skip] counts the bytes of the current
    rune that are still to be passed over. *)
Fixpoint range_from (skip : nat) (s : string) : list (Z * string) :=
  match s with
  | "" => []
  | String _ t =>
    match skip with
    | S k => range_from k t
    | O =>
      let (c, w) := DecodeRuneInString s in
      (c, take w s) :: range_from (w - 1) t
    end
  end.

Definition range (s : string) : list (Z * string) := range_from 0 s.

(** A decoded character comes from an invalid byte exactly when the
    decoder answered [RuneError] with width 1. *)
Definition invalid (cb : Z * string) : bool :=
  (fst cb =? RuneError) && (String.length (snd cb) =? 1)%nat.

(** [utf8.ValidString]. *)
Definition ValidString (s : string) : bool :=
  forallb (fun cb => negb (invalid cb)) (range s).

End utf8.

(* ================================================================= *)
(** ** Package [strings] *)

Module strings.

(** The second loop of [strings.Map]: every character is mapped and the
    result, unless negative, is written encoded. *)
Fixpoint Map_write (mapping : Z -> Z) (cs : list (Z * string)) : string :=
  match cs with
  | [] => ""
  | (c, _) :: rest =>
    let r := mapping c in
    (if 0 <=? r then utf8.EncodeRune r else "") ++ Map_write mapping rest
  end.

(** The first loop of [strings.Map]: characters the mapping leaves
    alone are kept as they are in [s] (the output is [s[:i]], or [s]
    itself when nothing changes); an invalid byte always counts as
    changed.  From the first changed character on, the second loop
    takes over. *)
Fixpoint Map_scan (mapping : Z -> Z) (cs : list (Z * string)) : string :=
  match cs with
  | [] => ""
  | (c, bytes) :: rest =>
    let r := mapping c in
    if (r =? c) && negb (utf8.invalid (c, bytes))
    then bytes ++ Map_scan mapping rest
    else (if 0 <=? r then utf8.EncodeRune r else "") ++ Map_write mapping rest
  end.

Definition Map (mapping : Z -> Z) (s : string) : string :=
  Map_scan mapping (utf8.range s).

(** [strings.HasPrefix] and [strings.Contains]. *)
Fixpoint HasPrefix (s prefix : string) : bool :=
  match prefix, s with
  | "", _ => true
  | String a p, String b t => (a =? b)%char && HasPrefix t p
  | _, _ => false
  end.

Fixpoint Contains (s substr : string) : bool :=
  HasPrefix s substr ||
  match s with
  | "" => false
  | String _ t => Contains t substr
  end.

End strings.

(* ================================================================= *)
(** ** [main.go]: [sanitizeFilename] *)

Definition rune (a : ascii) : Z := utf8.byte a.

Definition sanitizeFilename (name : string) : string :=
  strings.Map (fun r =>
    if (r =? rune "/") || (r =? rune "\") || (r =? rune ":")
    then -1
    else r) name.


(** Specification side of the sanitizer: [s] with the bytes ['/'], ['\']
    and [':'] removed, everything else kept in order. *)
Definition is_separator (a : ascii) : bool :=
  (a =? "/")%char || (a =? "\")%char || (a =? ":")%char.

Fixpoint remove_separators (s : string) : string :=
  match s with
  | "" => ""
  | String a t =>
    if is_separator a then remove_separators t
    else String a (remove_separators t)
  end.

Fixpoint no_separator (s : string) : bool :=
  match s with
  | "" => true
  | String a t => negb (is_separator a) && no_separator t
  end.

(** [s] with every byte that is not part of a valid UTF-8 encoding
    replaced by the encoding of U+FFFD. *)
Definition replace_invalid (s : string) : string :=
  fold_right
    (fun cb acc =>
       (if utf8.invalid cb then utf8.EncodeRune utf8.RuneError else snd cb) ++ acc)
    "" (utf8.range s).

Fixpoint all_high (s : string) : bool :=
  match s with
  | "" => true
  | String a t => (0x80 <=? utf8.byte a) && all_high t
  end.

(* ================================================================= *)
(** ** Go [int] and [fmt]

    The Dockerfile builds for linux/amd64 unless told otherwise; there
    [int] has 64 bits, and [x++] wraps around in two's complement. *)

Module int.

Definition wrap (z : Z) : Z := (z + 2 ^ 63) mod 2 ^ 64 - 2 ^ 63.

(** [x++] *)
Definition incr (x : Z) : Z := wrap (x + 1).

End int.

Module fmt.

(** The verb [%d]. *)
Definition d (x : Z) : string := NilZero.string_of_int (Z.to_int x).

End fmt.

(* ================================================================= *)
(** ** Errors: the [error] interface, packages [errors] and [io]

    An error value is one of the two sentinels of package [io] the
    handler tests for, a plain error with a text ([errors.New]), or an
    error that wraps another one ([fmt.Errorf] with [%w]); [text] is
    then the whole formatted message. *)

Inductive error : Type :=
| EOF
| ErrUnexpectedEOF
| New (text : string)
| Wrap (text : string) (wrapped : error).

(** [a == b] on error values. *)
Fixpoint error_eqb (a b : error) : bool :=
  match a, b with
  | EOF, EOF => true
  | ErrUnexpectedEOF, ErrUnexpectedEOF => true
  | New s, New t => String.eqb s t
  | Wrap s e, Wrap t f => String.eqb s t && error_eqb e f
  | _, _ => false
  end.

(** The method [Error()]. *)
Definition Error (e : error) : string :=
  match e with
  | EOF => "EOF"
  | ErrUnexpectedEOF => "unexpected EOF"
  | New text => text
  | Wrap text _ => text
  end.

Module io.
Definition EOF : error := EOF.
Definition ErrUnexpectedEOF : error := ErrUnexpectedEOF.
End io.

Module errors.

(** [errors.Is]: [err] or an error it wraps is [target]. *)
Fixpoint Is (err target : error) : bool :=
  error_eqb err target ||
  match err with
  | Wrap _ wrapped => Is wrapped target
  | _ => false
  end.

End errors.

(* ================================================================= *)
(** ** Package [path/filepath] (Unix: the separator is ['/'])

    [Clean] is the lexical clean-up the library documents: runs of
    separators count as one, [.] elements are dropped, an inner [..]
    cancels the element before it, a [..] at the start of a rooted path
    is dropped, and the empty result is [.].  The elements of the path
    are processed left to right with the output kept as a stack. *)

Module filepath.

(** The elements between separators: [strings.Split(path, "/")]. *)
Fixpoint elements (path : string) : list string :=
  match path with
  | "" => [""]
  | String a t =>
    if (a =? "/")%char then "" :: elements t
    else match elements t with
         | e :: es => String a e :: es
         | [] => [String a ""]
         end
  end.

(** One element against the output so far, most recent element first. *)
Definition clean_step (rooted : bool) (out : list string) (e : string)
  : list string :=
  if (e =? "")%string || (e =? ".")%string then out
  else if (e =? "..")%string then
    match out with
    | top :: below => if (top =? "..")%string then e :: out else below
    | [] => if rooted then [] else [e]
    end
  else e :: out.

Definition rooted (path : string) : bool :=
  match path with
  | String a _ => (a =? "/")%char
  | "" => false
  end.

(** The cleaned elements of a path, first element first. *)
Definition cleaned (path : string) : list string :=
  rev (fold_left (clean_step (rooted path)) (elements path) []).

(** The path with the given elements. *)
Definition render (is_rooted : bool) (elems : list string) : string :=
  let body := String.concat "/" elems in
  if is_rooted then "/" ++ body
  else if (body =? "")%string then "." else body.

Definition Clean (path : string) : string :=
  render (rooted path) (cleaned path).

(** [filepath.Join]: empty leading elements are ignored, the rest is
    joined with separators and cleaned. *)
Fixpoint Join (elem : list string) : string :=
  match elem with
  | [] => ""
  | e :: rest =>
    if (e =? "")%string then Join rest else Clean (String.concat "/" elem)
  end.

(** [path[:i+1]] for the last separator [i] of [path]. *)
Fixpoint through_last_separator (path : string) : string :=
  match path with
  | "" => ""
  | String a t =>
    let r := through_last_separator t in
    if negb (r =? "")%string then String a r
    else if (a =? "/")%char then String a ""
    else ""
  end.

(** [filepath.Dir]. *)
Definition Dir (path : string) : string :=
  Clean (through_last_separator path).

End filepath.

(* ================================================================= *)
(** ** Package [time] *)

Module time.

(** A wall-clock reading, by its calendar fields. *)
Record Time : Type := {
  Year : Z;
  Month : Z;
  Day : Z;
  Hour : Z;
  Minute : Z;
  Second : Z;
  Nanosecond : Z
}.

Fixpoint zeros (n : nat) : string :=
  match n with
  | O => ""
  | S k => String "0" (zeros k)
  end.

(** [appendInt]: the decimal form of [x], zero-padded to [width]. *)
Definition appendInt (x : Z) (width : nat) : string :=
  let ds := NilZero.string_of_uint (N.to_uint (Z.abs_N x)) in
  (if x <? 0 then "-" else "")
    ++ zeros (width - String.length ds) ++ ds.

(** [t.Format("2006-01-02_15-04-05.000")]: the layout reads as year,
    ["-"], month, ["-"], day, ["_"], hour, ["-"], minute, ["-"], second
    and [".000"], the milliseconds of the second (truncated). *)
Definition Format (t : Time) : string :=
  appendInt (Year t) 4 ++ "-" ++ appendInt (Month t) 2 ++ "-"
    ++ appendInt (Day t) 2 ++ "_" ++ appendInt (Hour t) 2 ++ "-"
    ++ appendInt (Minute t) 2 ++ "-" ++ appendInt (Second t) 2 ++ "."
    ++ appendInt (Nanosecond t / 1000000) 3.

End time.

(* ================================================================= *)
(** ** Package [storage] *)

(** An [io.Reader]: the bytes it delivers, and the error that ends the
    stream ([None] for a clean end of data). *)
Record Reader : Type := {
  contents : string;
  failure : option error
}.

(** [io.ReadAll]. *)
Definition ReadAll (data : Reader) : string * option error :=
  (contents data, failure data).

Module store.

(** [storage.go]: the interface [Backend].  A backend is used through
    its state [B]; [SaveFile] answers the new state and the error. *)
Class Backend (B : Type) : Type := {
  SaveFile : B -> string -> Reader -> B * option error
}.

(** The file system [local_storage.go] writes to, through package
    [os]: [MkdirAll], [Create], and the writes [io.Copy] makes to the
    created file. *)
Class FileSystem (FS : Type) : Type := {
  MkdirAll : FS -> string -> FS * option error;
  Create : FS -> string -> FS * option error;
  Write : FS -> string -> string -> FS * option error
}.

Record LocalStorage : Type := { BasePath : string }.

(** [io.Copy(f, data)] for the file created at [path]. *)
Definition Copy {FS} `{FileSystem FS} (fs : FS) (path : string) (data : Reader)
  : FS * option error :=
  let (fs', err) := Write fs path (contents data) in
  match err with
  | Some e => (fs', Some e)
  | None => (fs', failure data)
  end.

(** The path [SaveFile] creates the file at. *)
Definition fullPath (l : LocalStorage) (name : string) : string :=
  filepath.Join [BasePath l; name].

(** The method [SaveFile] of [LocalStorage] (the deferred [f.Close()]
    is left out). *)
Definition LocalStorage_SaveFile {FS} `{FileSystem FS}
  (l : LocalStorage) (fs : FS) (name : string) (data : Reader) : FS * option error :=
  let (fs1, err) := MkdirAll fs (filepath.Dir (filepath.Join [BasePath l; name])) in
  match err with
  | Some e => (fs1, Some (Wrap ("creating directories: " ++ Error e) e))
  | None =>
    let (fs2, err) := Create fs1 (fullPath l name) in
    match err with
    | Some e => (fs2, Some (Wrap ("creating file: " ++ Error e) e))
    | None => Copy fs2 (fullPath l name) data
    end
  end.

#[global] Instance LocalBackend {FS} `{FileSystem FS} : Backend (LocalStorage * FS) := {
  SaveFile := fun b name data =>
    let (fs', err) := LocalStorage_SaveFile (fst b) (snd b) name data in
    ((fst b, fs'), err)
}.

End store.

(** [main_test.go]: the mock backend.  The map [files] is kept as an
    association list with one entry per key. *)
Record MockStorage : Type := {
  files : list (string * string);
  failOn : string;
  saveErr : option error
}.

Definition map_set (m : list (string * string)) (k v : string) : list (string * string) :=
  (k, v) :: filter (fun kv => negb (fst kv =? k)%string) m.

Definition MockStorage_SaveFile (m : MockStorage) (name : string) (data : Reader)
  : MockStorage * option error :=
  if (name =? failOn m)%string then (m, saveErr m)
  else
    let (content, err) := ReadAll data in
    match err with
    | Some e => (m, Some e)
    | None =>
      ({| files := map_set (files m) name content;
          failOn := failOn m;
          saveErr := saveErr m |}, None)
    end.

#[global] Instance MockBackend : store.Backend MockStorage := {
  store.SaveFile := MockStorage_SaveFile
}.

(* ================================================================= *)
(** ** Package [net/http]: what the handler writes *)

Module http.

Definition MethodPost : string := "POST".

Definition StatusCreated : Z := 201.
Definition StatusPartialContent : Z := 206.
Definition StatusBadRequest : Z := 400.
Definition StatusForbidden : Z := 403.
Definition StatusMethodNotAllowed : Z := 405.
Definition StatusRequestTimeout : Z := 408.

(** What the [ResponseWriter] has received when the handler returns. *)
Record Response : Type := {
  StatusCode : Z;
  Body : string
}.

(** [http.Error(w, msg, code)]: the message is written as a line. *)
Definition Error (msg : string) (code : Z) : Response :=
  {| StatusCode := code; Body := msg ++ String "010" "" |}.

(** [w.WriteHeader(code)] followed by [w.Write([]byte(body))]. *)
Definition Write (code : Z) (body : string) : Response :=
  {| StatusCode := code; Body := body |}.

End http.

(* ================================================================= *)
(** ** [main.go]: the upload session handler *)

(** The request, by the fields the handler reads. *)
Record Request : Type := {
  Method : string;
  ContentType : string;       (* r.Header.Get("Content-Type") *)
  TurnstileToken : string;    (* r.Header.Get("X-Turnstile-Token") *)
  RemoteAddr : string;
  RequestBody : string
}.

(** A [*multipart.Part]: the answer of [part.FileName()] and the part as
    an [io.Reader]. *)
Record Part : Type := {
  FileName : string;
  reader : Reader
}.

(** Everything the handler consults outside itself.

    - [ParseMediaType] is [mime.ParseMediaType]: the media type and its
      parameters, or an error.
    - [Verify] is [turnstile.New(secret).Verify(token, addr)]: the field
      [resp.Success] and the error.
    - [Now] is the reading [time.Now()] gives when the session starts.
    - [NextParts body boundary] lists, in order, the answers of
      [mr.NextPart()] for the reader [multipart.NewReader(body, boundary)]
      that arrive while [ctx.Done()] is not yet closed.  The context has
      a timeout, so the channel is closed after finitely many
      iterations: when the list is used up, the [select] at the head of
      the loop takes the [ctx.Done()] branch. *)
Record World : Type := {
  ParseMediaType : string -> (string * list (string * string)) + error;
  Verify : string -> string -> string -> bool * option error;
  Now : time.Time;
  NextParts : string -> string -> list (Part + error)
}.

(** The calls the handler makes to its collaborators, in order. *)
Inductive Event : Type :=
| EvVerify (secret token addr : string)
| EvNextPart
| EvSaveFile (name : string) (data : Reader).

(** [err] denotes an unexpected end of data: the test
    [errors.Is(err, io.ErrUnexpectedEOF) ||
     strings.Contains(err.Error(), "unexpected EOF")],
    which the handler makes in the loop and again after it. *)
Definition unexpectedEOF (err : error) : bool :=
  errors.Is err io.ErrUnexpectedEOF
  || strings.Contains (Error err) "unexpected EOF".

Section Handler.

Context {B : Type} `{store.Backend B}.

(** The variables of one session, the state of the backend and the
    calls made so far. *)
Record Session : Type := {
  saved : Z;
  failed : Z;
  lastError : option error;
  storage : B;
  events : list Event
}.

Definition record (e : Event) (s : Session) : Session :=
  {| saved := saved s; failed := failed s; lastError := lastError s;
     storage := storage s; events := events s ++ [e] |}.

Definition set_lastError (err : error) (s : Session) : Session :=
  {| saved := saved s; failed := failed s; lastError := Some err;
     storage := storage s; events := events s |}.

Definition incr_failed (s : Session) : Session :=
  {| saved := saved s; failed := int.incr (failed s); lastError := lastError s;
     storage := storage s; events := events s |}.

Definition incr_saved (s : Session) : Session :=
  {| saved := int.incr (saved s); failed := failed s; lastError := lastError s;
     storage := storage s; events := events s |}.

Definition set_storage (b : B) (s : Session) : Session :=
  {| saved := saved s; failed := failed s; lastError := lastError s;
     storage := b; events := events s |}.

Inductive Flow : Type := Continue | Break.

(** The body of the [for] loop after the [select], for one answer of
    [mr.NextPart()]. *)
Definition loopBody (subfolder : string) (s : Session) (next : Part + error)
  : Flow * Session :=
  let s := record EvNextPart s in
  match next with
  | inr err =>
    if error_eqb err io.EOF then (Break, s)
    else
      let s := set_lastError err s in
      if unexpectedEOF err then (Continue, incr_failed s)
      else (Break, s)
  | inl part =>
    if (FileName part =? "")%string then (Continue, s)
    else
      let filename :=
        filepath.Join [subfolder; sanitizeFilename (FileName part)] in
      let (b, err) := store.SaveFile (storage s) filename (reader part) in
      let s := set_storage b (record (EvSaveFile filename (reader part)) s) in
      match err with
      | Some e => (Continue, set_lastError e (incr_failed s))
      | None => (Continue, incr_saved s)
      end
  end.

(** The response of the [ctx.Done()] branch. *)
Definition timeoutResponse (s : Session) : http.Response :=
  if saved s >? 0 then
    http.Write http.StatusPartialContent
      ("Upload partially completed: " ++ fmt.d (saved s)
         ++ " file(s) uploaded, " ++ fmt.d (failed s)
         ++ " failed due to timeout")
  else http.Error "Upload timed out" http.StatusRequestTimeout.

(** How the loop is left: by the [return] of the [ctx.Done()] branch,
    with the response written there, or by [break]. *)
Inductive Exit : Type :=
  | Returned (resp : http.Response)
  | Broke.

Fixpoint uploadLoop (subfolder : string) (script : list (Part + error))
  (s : Session) : Exit * Session :=
  match script with
  | [] => (Returned (timeoutResponse s), s)
  | next :: rest =>
    match loopBody subfolder s next with
    | (Continue, s') => uploadLoop subfolder rest s'
    | (Break, s') => (Broke, s')
    end
  end.

(** The session at the head of iteration [n] (counted from 0), when
    the loop gets that far. *)
Fixpoint sessionAt (subfolder : string) (n : nat) (script : list (Part + error))
  (s : Session) : option Session :=
  match n, script with
  | O, _ => Some s
  | S k, next :: rest =>
    match loopBody subfolder s next with
    | (Continue, s') => sessionAt subfolder k rest s'
    | (Break, _) => None
    end
  | S _, [] => None
  end.

(** The statements after the loop. *)
Definition summary (s : Session) : http.Response :=
  if saved s =? 0 then
    match lastError s with
    | Some e =>
      if unexpectedEOF e then
        http.Error
          "Upload failed due to connection issues. Please check your internet connection and try again."
          http.StatusBadRequest
      else http.Error ("Upload failed: " ++ Error e) http.StatusBadRequest
    | None => http.Error "No files uploaded" http.StatusBadRequest
    end
  else if failed s >? 0 then
    http.Write http.StatusPartialContent
      ("Partially successful: " ++ fmt.d (saved s) ++ " file(s) uploaded, "
         ++ fmt.d (failed s) ++ " failed")
  else
    http.Write http.StatusCreated
      ("Uploaded " ++ fmt.d (saved s) ++ " file(s)").

(** [params["boundary"]]: the empty string when the key is absent. *)
Definition param (params : list (string * string)) (key : string) : string :=
  match find (fun kv => (fst kv =? key)%string) params with
  | Some kv => snd kv
  | None => ""
  end.

(** What a call of the handler leaves behind. *)
Record Outcome : Type := {
  response : http.Response;
  backend : B;
  calls : list Event
}.

Definition start (b : B) (log : list Event) : Session :=
  {| saved := 0; failed := 0; lastError := None; storage := b; events := log |}.

(** [uploadHandler], with the package variables [storage] and
    [turnstileSecret] as arguments.  The [log.Printf] lines, which no
    client sees, and the deferred [cancel()] and [part.Close()] are left
    out; the deadline of the context lives in [NextParts]. *)
Definition uploadHandler (w : World) (storage0 : B) (turnstileSecret : string)
  (r : Request) : Outcome :=
  if negb (Method r =? http.MethodPost)%string then
    {| response := http.Error "Only POST allowed" http.StatusMethodNotAllowed;
       backend := storage0; calls := [] |}
  else
    let invalid :=
      {| response := http.Error "Invalid Content-Type" http.StatusBadRequest;
         backend := storage0; calls := [] |} in
    match ParseMediaType w (ContentType r) with
    | inr _ => invalid
    | inl (mediaType, params) =>
      if negb (strings.HasPrefix mediaType "multipart/") then invalid
      else
        let token := TurnstileToken r in
        let (success, err) := Verify w turnstileSecret token (RemoteAddr r) in
        let log := [EvVerify turnstileSecret token (RemoteAddr r)] in
        match err, success with
        | None, true =>
          let mr := NextParts w (RequestBody r) (param params "boundary") in
          let subfolder := time.Format (Now w) in
          let (exit, s) := uploadLoop subfolder mr (start storage0 log) in
          {| response :=
               match exit with
               | Returned resp => resp
               | Broke => summary s
               end;
             backend := storage s; calls := events s |}
        | _, _ =>
          {| response :=
               http.Error "CAPTCHA verification failed" http.StatusForbidden;
             backend := storage0; calls := log |}
        end
    end.

End Handler.

Arguments Session : clear implicits.
Arguments Outcome : clear implicits.

(* ================================================================= *)
(** ** The specification's side *)

(** Step 6 of the specification: the table of outcomes, row by row, over
    whether the deadline elapsed, the two counters and the most recent
    error.  [None] when no row applies. *)
Definition step6_table (deadlineElapsed : bool) (saved failed : Z)
  (lastError : option error) : option http.Response :=
  let partial_or_created :=
    if (saved >? 0) && (failed >? 0) then
      Some (http.Write 206
              ("Partially successful: " ++ fmt.d saved
                 ++ " file(s) uploaded, " ++ fmt.d failed ++ " failed"))
    else if (saved >? 0) && (failed =? 0) then
      Some (http.Write 201 ("Uploaded " ++ fmt.d saved ++ " file(s)"))
    else None in
  if deadlineElapsed then
    if saved >? 0 then
      Some (http.Write 206
              ("Upload partially completed: " ++ fmt.d saved
                 ++ " file(s) uploaded, " ++ fmt.d failed
                 ++ " failed due to timeout"))
    else if saved =? 0 then Some (http.Error "Upload timed out" 408)
    else None
  else
    match lastError with
    | None =>
      if (saved =? 0) && (failed =? 0) then
        Some (http.Error "No files uploaded" 400)
      else partial_or_created
    | Some e =>
      if (saved =? 0) && unexpectedEOF e then
        Some (http.Error
                "Upload failed due to connection issues. Please check your internet connection and try again."
                400)
      else if saved =? 0 then
        Some (http.Error ("Upload failed: " ++ Error e) 400)
      else partial_or_created
    end.

(** The parts with a non-empty filename among the answers of
    [NextPart], and the answers that are an unexpected end of data. *)
Definition is_named (next : Part + error) : bool :=
  match next with
  | inl part => negb (FileName part =? "")%string
  | inr _ => false
  end.

Definition is_dropped (next : Part + error) : bool :=
  match next with
  | inl _ => false
  | inr err => negb (error_eqb err io.EOF) && unexpectedEOF err
  end.

Definition count (p : Part + error -> bool) (script : list (Part + error)) : Z :=
  Z.of_nat (List.length (filter p script)).

(** A plain file name: one path element that names an entry. *)
Fixpoint no_slash (s : string) : bool :=
  match s with
  | "" => true
  | String a t => negb (a =? "/")%char && no_slash t
  end.

Definition plain (name : string) : Prop :=
  name <> "" /\ name <> "." /\ name <> ".." /\ no_slash name = true.

(** [path] lies within [base]: it is the cleaned [base] followed by
    plain names, so it is [base] itself or an entry below it (lexically;
    symbolic links are not looked at). *)
Definition within (base path : string) : Prop :=
  exists names,
    Forall plain names
    /\ path = filepath.render (filepath.rooted base) (filepath.cleaned base ++ names).

(** A filename made of separator characters only. *)
Fixpoint only_separators (s : string) : bool :=
  match s with
  | "" => true
  | String a t => is_separator a && only_separators t
  end.

(** The CAPTCHA calls among the calls of a session. *)
Definition is_verify (e : Event) : bool :=
  match e with
  | EvVerify _ _ _ => true
  | _ => false
  end.

(* ================================================================= *)
(** ** Auxiliary definitions for the proofs *)

(** The three ways [utf8.DecodeRuneInString] answers on a non-empty
    string: an ASCII byte, an invalid byte, or a well-formed sequence of
    two to four bytes, which [utf8.EncodeRune] gives back. *)
Inductive decoded (s : string) (c : Z) (w : nat) : Prop :=
| dec_ascii a t :
    s = String a t -> utf8.byte a < 0x80 -> c = utf8.byte a -> w = 1%nat ->
    decoded s c w
| dec_invalid a t :
    s = String a t -> 0x80 <= utf8.byte a -> c = utf8.RuneError -> w = 1%nat ->
    decoded s c w
| dec_multi :
    (2 <= w <= 4)%nat -> (w <= String.length s)%nat -> 0x80 <= c ->
    utf8.EncodeRune c = utf8.take w s -> all_high (utf8.take w s) = true ->
    decoded s c w.

(** The mapping [sanitizeFilename] hands to [strings.Map]. *)
Definition sep_rune (r : Z) : bool :=
  (r =? rune "/") || (r =? rune "\") || (r =? rune ":").

Definition keep (r : Z) : Z := if sep_rune r then -1 else r.

(** What one character of the input contributes to the output. *)
Definition piece (cb : Z * string) : string :=
  if utf8.invalid cb then utf8.EncodeRune utf8.RuneError
  else remove_separators (snd cb).

Definition pieces (cs : list (Z * string)) : string :=
  fold_right (fun cb acc => piece cb ++ acc) "" cs.

(** The elements [filepath.Join [sid; san]] is made of, for a sanitized
    name [san]. *)
Definition session_names (sid san : string) : list string :=
  if (san =? "")%string || (san =? ".")%string then [sid]
  else if (san =? "..")%string then []
  else [sid; san].


(** A name made of dots only, as [""], ["."] and [".."] are. *)
Fixpoint dots_only (s : string) : bool :=
  match s with
  | "" => true
  | String a t => (a =? ".")%char && dots_only t
  end.


Section LoopCases.

Context {B : Type} `{store.Backend B}.

(** One iteration of the loop, case by case: the six ways through
    [loopBody]. *)
Inductive stepped (subfolder : string) (s : Session B)
  : Part + error -> Flow -> Session B -> Prop :=
  | step_eof :
    stepped subfolder s (inr io.EOF) Break (record EvNextPart s)
  | step_dropped err :
    err <> io.EOF -> unexpectedEOF err = true ->
    stepped subfolder s (inr err) Continue
      (incr_failed (set_lastError err (record EvNextPart s)))
  | step_abort err :
    err <> io.EOF -> unexpectedEOF err = false ->
    stepped subfolder s (inr err) Break
      (set_lastError err (record EvNextPart s))
  | step_field part :
    FileName part = "" ->
    stepped subfolder s (inl part) Continue (record EvNextPart s)
  | step_save_failed part b e :
    FileName part <> "" ->
    store.SaveFile (storage s)
      (filepath.Join [subfolder; sanitizeFilename (FileName part)])
      (reader part) = (b, Some e) ->
    stepped subfolder s (inl part) Continue
      (set_lastError e
         (incr_failed
            (set_storage b
               (record
                  (EvSaveFile
                     (filepath.Join [subfolder; sanitizeFilename (FileName part)])
                     (reader part))
                  (record EvNextPart s)))))
  | step_saved part b :
    FileName part <> "" ->
    store.SaveFile (storage s)
      (filepath.Join [subfolder; sanitizeFilename (FileName part)])
      (reader part) = (b, None) ->
    stepped subfolder s (inl part) Continue
      (incr_saved
         (set_storage b
            (record
               (EvSaveFile
                  (filepath.Join [subfolder; sanitizeFilename (FileName part)])
                  (reader part))
               (record EvNextPart s)))).

(** The counters stay within the range of [int], and [failed] is only
    counted together with an error. *)
Definition accounted (n : Z) (s : Session B) : Prop :=
  0 <= saved s <= n /\ 0 <= failed s <= n
  /\ (lastError s = None -> failed s = 0).

(** The calls of one iteration: no CAPTCHA call, and a [SaveFile] call
    only for a named part, under the joined name and with the part
    itself as the reader. *)
Definition session_calls (subfolder : string) (script : list (Part + error))
  (new : list Event) : Prop :=
  forallb (fun e => negb (is_verify e)) new = true
  /\ forall name data,
      In (EvSaveFile name data) new ->
      exists part,
        In (inl part) script /\ FileName part <> ""
        /\ name = filepath.Join [subfolder; sanitizeFilename (FileName part)]
        /\ data = reader part.

End LoopCases.

(** Two readings of the clock that differ below the millisecond only. *)
Definition same_millisecond (t t' : time.Time) : Prop :=
  time.Year t = time.Year t' /\ time.Month t = time.Month t'
  /\ time.Day t = time.Day t' /\ time.Hour t = time.Hour t'
  /\ time.Minute t = time.Minute t' /\ time.Second t = time.Second t'
  /\ time.Nanosecond t / 1000000 = time.Nanosecond t' / 1000000.

(* ================================================================= *)
(** ** Sample sessions *)

Module sample.

(** 2025-01-02 15:04:05.678912345 *)
Definition clock : time.Time :=
  {| time.Year := 2025; time.Month := 1; time.Day := 2;
     time.Hour := 15; time.Minute := 4; time.Second := 5;
     time.Nanosecond := 678912345 |}.

Definition subfolder : string := "2025-01-02_15-04-05.678".

(** A part that delivers [content] and ends cleanly. *)
Definition file (name content : string) : Part + error :=
  inl {| FileName := name;
         reader := {| contents := content; failure := None |} |}.

(** The error [mr.NextPart()] gives when the body ends inside a part. *)
Definition truncated : Part + error :=
  inr (Wrap "multipart: NextPart: unexpected EOF" io.ErrUnexpectedEOF).

(** [mime.ParseMediaType] on the header values used below. *)
Definition mime (header : string)
  : (string * list (string * string)) + error :=
  if (header =? "multipart/form-data; boundary=XYZ")%string
  then inl ("multipart/form-data", [("boundary", "XYZ")])
  else if (header =? "multipart/form-data")%string
  then inl ("multipart/form-data", [])
  else if (header =? "text/plain")%string
  then inl ("text/plain", [])
  else inr (New "mime: no media type").

(** A world where the CAPTCHA service answers [captcha] and the body
    yields [script]. *)
Definition world (captcha : bool) (script : list (Part + error)) : World :=
  {| ParseMediaType := mime;
     Verify := fun _ _ _ => (captcha, None);
     Now := clock;
     NextParts := fun _ _ => script |}.

Definition request (method contentType : string) : Request :=
  {| Method := method;
     ContentType := contentType;
     TurnstileToken := "token";
     RemoteAddr := "203.0.113.7:40000";
     RequestBody := "" |}.

Definition post : Request := request "POST" "multipart/form-data; boundary=XYZ".

(** The mock of [TestUploadHandler_PartialSuccess]: it refuses the file
    [fail.txt] of the session. *)
Definition mock : MockStorage :=
  {| files := [];
     failOn := "2025-01-02_15-04-05.678/fail.txt";
     saveErr := Some io.ErrUnexpectedEOF |}.

(** A disk that never refuses: directories need no making, and a file
    is its path with its contents. *)
Definition Disk : Type := list (string * string).

#[global] Instance AnyDisk : store.FileSystem Disk := {
  store.MkdirAll := fun fs _ => (fs, None);
  store.Create := fun fs path => (map_set fs path "", None);
  store.Write := fun fs path data => (map_set fs path data, None)
}.

Definition uploads : store.LocalStorage := {| store.BasePath := "./uploads" |}.

(** A body that is cut off after its first file. *)
Definition interrupted : list (Part + error) :=
  [file "success.txt" "success content"; truncated].

(** The session at the head of the third iteration over [interrupted]. *)
Definition after_interrupted : Session MockStorage :=
  Eval vm_compute in
    match sessionAt subfolder 2 interrupted (start mock []) with
    | Some s => s
    | None => start mock []
    end.

End sample.

(* ================================================================= *)
(** ** Further definitions

    What the further properties are stated with. *)

(** The runes [utf8.EncodeRune] encodes as themselves in two to four
    bytes. *)
Definition scalar (r : Z) : Prop :=
  0x80 <= r <= 0x10FFFF /\ ~ (0xD800 <= r <= 0xDFFF).

(** An answer of [NextPart] after which the loop goes on: a part, or an
    unexpected end of data. *)
Definition continues (next : Part + error) : bool :=
  match next with
  | inl _ => true
  | inr err => negb (error_eqb err io.EOF) && unexpectedEOF err
  end.

(** The answers the loop gets to see: all up to the first one that ends
    the loop, that one included. *)
Fixpoint consumed (script : list (Part + error)) : list (Part + error) :=
  match script with
  | [] => []
  | next :: rest => if continues next then next :: consumed rest else [next]
  end.

(** The calls one answer leads to. *)
Definition iteration_calls (subfolder : string) (next : Part + error)
  : list Event :=
  EvNextPart ::
  match next with
  | inl part =>
    if (FileName part =? "")%string then []
    else [EvSaveFile
            (filepath.Join [subfolder; sanitizeFilename (FileName part)])
            (reader part)]
  | inr _ => []
  end.

(** The backend after one answer. *)
Definition iteration_store {B : Type} `{store.Backend B}
  (subfolder : string) (b : B) (next : Part + error) : B :=
  match next with
  | inl part =>
    if (FileName part =? "")%string then b
    else fst (store.SaveFile b
                (filepath.Join [subfolder; sanitizeFilename (FileName part)])
                (reader part))
  | inr _ => b
  end.

(** A part without a filename: a plain form field. *)
Definition is_field (next : Part + error) : bool :=
  match next with
  | inl part => (FileName part =? "")%string
  | inr _ => false
  end.

Definition is_part (next : Part + error) : bool :=
  match next with
  | inl _ => true
  | inr _ => false
  end.

(** [files[k]] of the mock. *)
Definition map_get (m : list (string * string)) (k : string) : option string :=
  option_map snd (find (fun kv => (fst kv =? k)%string) m).

(** A backend that takes every file and keeps what the reader
    delivers. *)
Definition Vault : Type := list (string * string).

#[global] Instance AnyVault : store.Backend Vault := {
  store.SaveFile := fun v name data => (map_set v name (contents data), None)
}.

(* ================================================================= *)
(** ** [s3_storage.go] *)

(** [strings.TrimPrefix] *)
Definition TrimPrefix (s prefix : string) : string :=
  if strings.HasPrefix s prefix then utf8.drop (String.length prefix) s else s.

Record S3Storage (Client : Type) : Type := {
  S3Client : Client;
  BucketName : string;
  Prefix : string
}.

Arguments S3Client {Client}.
Arguments BucketName {Client}.
Arguments Prefix {Client}.

(** The upload manager of the AWS SDK: [Upload] of a [PutObjectInput]
    with the given bucket, key and body, on the state of the object
    store. *)
Class Uploader (Remote Client : Type) : Type := {
  Upload : Remote -> Client -> string -> string -> Reader -> Remote * option error
}.

(** The object key [SaveFile] computes. *)
Definition S3Storage_key {Client : Type} (s : S3Storage Client) (name : string)
  : string :=
  TrimPrefix (Prefix s ++ "/" ++ name) "/".

(** The method [SaveFile] of [S3Storage]. *)
Definition S3Storage_SaveFile {Remote Client : Type} `{Uploader Remote Client}
  (s : S3Storage Client) (remote : Remote) (name : string) (data : Reader)
  : Remote * option error :=
  Upload remote (S3Client s) (BucketName s) (S3Storage_key s name) data.

(* ================================================================= *)
(** ** [local_storage.go] and [s3_storage.go]: the constructors;
       [main.go]: [setupStorage] *)

(** What the process finds around it: [os.Getenv], and the answer of
    [config.LoadDefaultConfig] turned into a client. *)
Record Host (Client : Type) : Type := {
  Getenv : string -> string;
  LoadDefaultConfig : Client + error
}.

Arguments Getenv {Client}.
Arguments LoadDefaultConfig {Client}.

(** [NewLocalStorage]: the pointer is [nil] ([None]) on an error. *)
Definition NewLocalStorage {FS : Type} `{store.FileSystem FS}
  (path : string) (fs : FS) : FS * option store.LocalStorage * option error :=
  let (fs', err) := store.MkdirAll fs path in
  match err with
  | Some e => (fs', None, Some e)
  | None => (fs', Some {| store.BasePath := path |}, None)
  end.

(** [NewS3Storage] *)
Definition NewS3Storage {Client : Type} (host : Host Client)
  (bucket prefix : string) : option (S3Storage Client) * option error :=
  match LoadDefaultConfig host with
  | inr e => (None, Some (Wrap ("loading AWS config: " ++ Error e) e))
  | inl client =>
    (Some {| S3Client := client; BucketName := bucket; Prefix := prefix |}, None)
  end.

(** The package variable [storage]: not assigned, or a pointer to one
    of the two backends. *)
Inductive Storage (Client : Type) : Type :=
| Unset
| Local (l : option store.LocalStorage)
| S3 (s : option (S3Storage Client)).

Arguments Unset {Client}.
Arguments Local {Client}.
Arguments S3 {Client}.

(** [setupStorage]: the new value of [storage], the file system and the
    error returned. *)
Definition setupStorage {FS Client : Type} `{store.FileSystem FS}
  (host : Host Client) (fs : FS) (storage0 : Storage Client)
  : Storage Client * FS * option error :=
  let backend := Getenv host "BACKEND" in
  let backend := if (backend =? "")%string then "local" else backend in
  if (backend =? "local")%string then
    let uploadDir := Getenv host "LOCAL_PATH" in
    let uploadDir := if (uploadDir =? "")%string then "./uploads" else uploadDir in
    let '(fs', l, err) := NewLocalStorage uploadDir fs in
    (Local l, fs', err)
  else if (backend =? "s3")%string then
    let (s, err) := NewS3Storage host "go-upload" "uploads" in
    (S3 s, fs, err)
  else (storage0, fs, None).

(** A process environment with the two variables [setupStorage] reads,
    on a machine where the AWS configuration loads. *)
Definition host_with (backend localPath : string) : Host unit :=
  {| Getenv := fun key =>
       if (key =? "BACKEND")%string then backend
       else if (key =? "LOCAL_PATH")%string then localPath
       else "";
     LoadDefaultConfig := inl tt |}.

(** The elements of a cleaned path: no empty element, no [.], no
    separator inside, and [..] only in front, and not at all when the
    path is rooted. *)
Definition element (e : string) : Prop :=
  e <> "" /\ e <> "." /\ no_slash e = true.

Definition canonical (is_rooted : bool) (elems : list string) : Prop :=
  exists dots names,
    elems = (dots ++ names)%list
    /\ Forall (fun e => e = "..") dots
    /\ Forall plain names
    /\ (is_rooted = true -> dots = []).

(* ================================================================= *)
(** ** The earlier revision of [main.go] and [local_storage.go]

    Before the sessions were introduced, every file was stored directly
    under the root, its name prefixed with the clock reading in
    nanoseconds, and the loop ended on the first error of [NextPart].
    There is no deadline in this revision: the answers of [NextPart]
    end with the error that ends the loop, and a list without one is
    read as a body that ends there ([io.EOF]). *)

(** The earlier [SaveFile] of [LocalStorage]: no directory is made. *)
Definition LocalStorage_SaveFile_v1 {FS : Type} `{store.FileSystem FS}
  (l : store.LocalStorage) (fs : FS) (name : string) (data : Reader)
  : FS * option error :=
  let (fs1, err) := store.Create fs (store.fullPath l name) in
  match err with
  | Some e => (fs1, Some (Wrap ("creating file: " ++ Error e) e))
  | None => store.Copy fs1 (store.fullPath l name) data
  end.

Section HandlerV1.

Context {B : Type} `{store.Backend B}.

(** The variables of the earlier loop; [readings] counts the calls of
    [time.Now()] made so far. *)
Record SessionV1 : Type := {
  saved1 : Z;
  storage1 : B;
  events1 : list Event;
  readings : nat
}.

(** [fmt.Sprintf("%d_%s", time.Now().UnixNano(), sanitizeFilename(name))] *)
Definition filename_v1 (nanos : Z) (name : string) : string :=
  fmt.d nanos ++ "_" ++ sanitizeFilename name.

(** The earlier loop; [UnixNano n] is the reading of call [n] of
    [time.Now().UnixNano()]. *)
Fixpoint uploadLoop_v1 (UnixNano : nat -> Z) (script : list (Part + error))
  (s : SessionV1) : SessionV1 :=
  let s :=
    {| saved1 := saved1 s; storage1 := storage1 s;
       events1 := events1 s ++ [EvNextPart]; readings := readings s |} in
  match script with
  | [] => s
  | inr _ :: _ => s
  | inl part :: rest =>
    if (FileName part =? "")%string then uploadLoop_v1 UnixNano rest s
    else
      let filename := filename_v1 (UnixNano (readings s)) (FileName part) in
      let (b, err) := store.SaveFile (storage1 s) filename (reader part) in
      let events' := (events1 s ++ [EvSaveFile filename (reader part)])%list in
      match err with
      | Some _ =>
        uploadLoop_v1 UnixNano rest
          {| saved1 := saved1 s; storage1 := b;
             events1 := events'; readings := S (readings s) |}
      | None =>
        uploadLoop_v1 UnixNano rest
          {| saved1 := int.incr (saved1 s); storage1 := b;
             events1 := events'; readings := S (readings s) |}
      end
  end.

(** The earlier [uploadHandler]. *)
Definition uploadHandler_v1 (w : World) (UnixNano : nat -> Z) (storage0 : B)
  (turnstileSecret : string) (r : Request) : Outcome B :=
  if negb (Method r =? http.MethodPost)%string then
    {| response := http.Error "Only POST allowed" http.StatusMethodNotAllowed;
       backend := storage0; calls := [] |}
  else
    let invalid :=
      {| response := http.Error "Invalid Content-Type" http.StatusBadRequest;
         backend := storage0; calls := [] |} in
    match ParseMediaType w (ContentType r) with
    | inr _ => invalid
    | inl (mediaType, params) =>
      if negb (strings.HasPrefix mediaType "multipart/") then invalid
      else
        let token := TurnstileToken r in
        let (success, err) := Verify w turnstileSecret token (RemoteAddr r) in
        let log := [EvVerify turnstileSecret token (RemoteAddr r)] in
        match err, success with
        | None, true =>
          let mr := NextParts w (RequestBody r) (param params "boundary") in
          let s :=
            uploadLoop_v1 UnixNano mr
              {| saved1 := 0; storage1 := storage0; events1 := log;
                 readings := 0 |} in
          {| response :=
               if saved1 s =? 0
               then http.Error "No files uploaded" http.StatusBadRequest
               else http.Write http.StatusCreated
                      ("Uploaded " ++ fmt.d (saved1 s) ++ " file(s)");
             backend := storage1 s; calls := events1 s |}
        | _, _ =>
          {| response :=
               http.Error "CAPTCHA verification failed" http.StatusForbidden;
             backend := storage0; calls := log |}
        end
    end.

End HandlerV1.

Arguments SessionV1 : clear implicits.

(* ================================================================= *)
(** ** Steps 5 and 6 of the specification, over what the world gives *)

(** The deadline elapses during the session: every answer [NextPart]
    gives before the deadline lets the loop go on, so that the loop
    comes back to the check of the context and finds it done.  (An
    answer that ends the loop ends the session before the deadline
    does; with no answer at all the deadline has elapsed before the
    first part is read.) *)
Definition deadline_elapsed (script : list (Part + error)) : bool :=
  forallb continues script.

(** What Step 5 of the specification keeps count of, with the backend
    the saves have gone to. *)
Record Tally (B : Type) : Type := {
  held : B;
  nsaved : Z;
  nfailed : Z;
  recent : option error
}.

Arguments held {B}.
Arguments nsaved {B}.
Arguments nfailed {B}.
Arguments recent {B}.

(** Step 5 for one answer of the multipart reader, in the words of the
    specification: the end of the stream and a part without a filename
    count nothing; a saved part counts as saved; a part the backend
    refuses counts as failed, and its error is the most recent one; an
    unexpected end of data counts as failed and is the most recent
    error; any other read error is the most recent error.  The
    counters are numbers, not machine integers. *)
Definition step5 {B : Type} `{store.Backend B} (subfolder : string)
  (t : Tally B) (next : Part + error) : Tally B :=
  match next with
  | inl part =>
    if (FileName part =? "")%string then t
    else
      let (b, err) :=
        store.SaveFile (held t)
          (filepath.Join [subfolder; sanitizeFilename (FileName part)])
          (reader part) in
      match err with
      | None =>
        {| held := b; nsaved := nsaved t + 1; nfailed := nfailed t;
           recent := recent t |}
      | Some e =>
        {| held := b; nsaved := nsaved t; nfailed := nfailed t + 1;
           recent := Some e |}
      end
  | inr err =>
    if error_eqb err io.EOF then t
    else if unexpectedEOF err then
      {| held := held t; nsaved := nsaved t; nfailed := nfailed t + 1;
         recent := Some err |}
    else
      {| held := held t; nsaved := nsaved t; nfailed := nfailed t;
         recent := Some err |}
  end.

(** The tally of a session: Step 5 over the answers the session gets to
    see, from nothing saved, nothing failed and no error. *)
Definition tally {B : Type} `{store.Backend B} (subfolder : string)
  (script : list (Part + error)) (b : B) : Tally B :=
  fold_left (step5 subfolder) (consumed script)
    {| held := b; nsaved := 0; nfailed := 0; recent := None |}.

(** A session and a tally that say the same. *)
Definition tallied {B : Type} (s : Session B) (t : Tally B) : Prop :=
  saved s = nsaved t /\ failed s = nfailed t /\ lastError s = recent t
  /\ storage s = held t.

(* ================================================================= *)
(** ** [main.go]: the handler and the package variable [storage] *)

(** [uploadHandler] reads the package variable [storage], an interface
    value that is [nil] until [setupStorage] assigns it.  Here the
    variable is an [option]: [None] for [nil].  A method call on a nil
    interface value panics; [net/http] recovers the panic of a handler
    and closes the connection, so that no response is written. *)

Section Package.

Context {B : Type} `{store.Backend B}.

(** What serving a request ends in: the handler returns, or it
    panics after the calls made so far. *)
Inductive Served : Type :=
| Responded (o : Outcome (option B))
| Panicked (log : list Event).

(** The body of the loop, as [loopBody]; [None] when it panics. *)
Definition loopBody_global (subfolder : string) (s : Session (option B))
  (next : Part + error) : option (Flow * Session (option B)) :=
  let s := record EvNextPart s in
  match next with
  | inr err =>
    if error_eqb err io.EOF then Some (Break, s)
    else
      let s := set_lastError err s in
      if unexpectedEOF err then Some (Continue, incr_failed s)
      else Some (Break, s)
  | inl part =>
    if (FileName part =? "")%string then Some (Continue, s)
    else
      let filename :=
        filepath.Join [subfolder; sanitizeFilename (FileName part)] in
      match storage s with
      | None => None
      | Some b0 =>
        let (b, err) := store.SaveFile b0 filename (reader part) in
        let s :=
          set_storage (Some b) (record (EvSaveFile filename (reader part)) s) in
        match err with
        | Some e => Some (Continue, set_lastError e (incr_failed s))
        | None => Some (Continue, incr_saved s)
        end
      end
  end.

(** The loop, as [uploadLoop]; on a panic, the calls made before it. *)
Fixpoint uploadLoop_global (subfolder : string) (script : list (Part + error))
  (s : Session (option B)) : (Exit * Session (option B)) + list Event :=
  match script with
  | [] => inl (Returned (timeoutResponse s), s)
  | next :: rest =>
    match loopBody_global subfolder s next with
    | Some (Continue, s') => uploadLoop_global subfolder rest s'
    | Some (Break, s') => inl (Broke, s')
    | None => inr (events s ++ [EvNextPart])%list
    end
  end.

(** [uploadHandler] as [main] registers it. *)
Definition uploadHandler_global (w : World) (storage0 : option B)
  (turnstileSecret : string) (r : Request) : Served :=
  if negb (Method r =? http.MethodPost)%string then
    Responded
      {| response := http.Error "Only POST allowed" http.StatusMethodNotAllowed;
         backend := storage0; calls := [] |}
  else
    let invalid :=
      Responded
        {| response := http.Error "Invalid Content-Type" http.StatusBadRequest;
           backend := storage0; calls := [] |} in
    match ParseMediaType w (ContentType r) with
    | inr _ => invalid
    | inl (mediaType, params) =>
      if negb (strings.HasPrefix mediaType "multipart/") then invalid
      else
        let token := TurnstileToken r in
        let (success, err) := Verify w turnstileSecret token (RemoteAddr r) in
        let log := [EvVerify turnstileSecret token (RemoteAddr r)] in
        match err, success with
        | None, true =>
          let mr := NextParts w (RequestBody r) (param params "boundary") in
          let subfolder := time.Format (Now w) in
          match uploadLoop_global subfolder mr (start storage0 log) with
          | inl (exit, s) =>
            Responded
              {| response :=
                   match exit with
                   | Returned resp => resp
                   | Broke => summary s
                   end;
                 backend := storage s; calls := events s |}
          | inr log' => Panicked log'
          end
        | _, _ =>
          Responded
            {| response :=
                 http.Error "CAPTCHA verification failed" http.StatusForbidden;
               backend := storage0; calls := log |}
        end
    end.

(** A session of the handler whose [storage] is set. *)
Definition set_up (s : Session B) : Session (option B) :=
  {| saved := saved s; failed := failed s; lastError := lastError s;
     storage := Some (storage s); events := events s |}.

End Package.

Arguments Served : clear implicits.

(* ================================================================= *)
(** * Proofs *)

(** ** UTF-8: decoding and encoding agree *)


Lemma byte_range a : 0 <= utf8.byte a < 256.
Proof. unfold utf8.byte. pose proof (N_ascii_bounded a). lia. Qed.

Lemma chr_byte a : utf8.chr (utf8.byte a) = a.
Proof. unfold utf8.chr, utf8.byte. rewrite N2Z.id. apply ascii_N_embedding. Qed.

Lemma byte_chr z : 0 <= z < 256 -> utf8.byte (utf8.chr z) = z.
Proof.
  intros Hz. unfold utf8.chr, utf8.byte.
  rewrite N_ascii_embedding by lia. lia.
Qed.

Lemma chr_eq z a : z = utf8.byte a -> utf8.chr z = a.
Proof. intros ->. apply chr_byte. Qed.


Ltac by_divmod := Z.to_euclidean_division_equations; lia.

Lemma enc_2 r :
  0x80 <= r <= 0x7FF ->
  utf8.EncodeRune r =
  String (utf8.chr (0xC0 + r / 64)) (String (utf8.chr (0x80 + r mod 64)) "").
Proof.
  intros Hr. unfold utf8.EncodeRune.
  destruct (Z.leb_spec r 0x7F); [lia|].
  destruct (Z.leb_spec 0 r); [|lia].
  destruct (Z.leb_spec r 0x7FF); [|lia].
  reflexivity.
Qed.

Lemma enc_3 r :
  0x800 <= r <= 0xFFFF -> ~ (0xD800 <= r <= 0xDFFF) ->
  utf8.EncodeRune r = utf8.enc3 r.
Proof.
  intros Hr Hs. unfold utf8.EncodeRune, utf8.MaxRune.
  destruct (Z.leb_spec r 0x7F); [lia|].
  destruct (Z.leb_spec 0 r); [|lia].
  destruct (Z.leb_spec r 0x7FF); [lia|].
  destruct (Z.ltb_spec r 0); [lia|].
  destruct (Z.ltb_spec 0x10FFFF r); [lia|].
  destruct (Z.leb_spec 0xD800 r); destruct (Z.leb_spec r 0xDFFF); try lia;
    destruct (Z.leb_spec r 0xFFFF); try lia; reflexivity.
Qed.

Lemma enc_4 r :
  0x10000 <= r <= 0x10FFFF ->
  utf8.EncodeRune r =
  String (utf8.chr (0xF0 + r / 262144))
    (String (utf8.chr (0x80 + (r / 4096) mod 64))
       (String (utf8.chr (0x80 + (r / 64) mod 64))
          (String (utf8.chr (0x80 + r mod 64)) ""))).
Proof.
  intros Hr. unfold utf8.EncodeRune, utf8.MaxRune.
  destruct (Z.leb_spec r 0x7F); [lia|].
  destruct (Z.leb_spec 0 r); [|lia].
  destruct (Z.leb_spec r 0x7FF); [lia|].
  destruct (Z.ltb_spec r 0); [lia|].
  destruct (Z.ltb_spec 0x10FFFF r); [lia|].
  destruct (Z.leb_spec 0xD800 r); destruct (Z.leb_spec r 0xDFFF); try lia;
    destruct (Z.leb_spec r 0xFFFF); try lia; reflexivity.
Qed.

Lemma decode_cases s c w :
  s <> "" -> utf8.DecodeRuneInString s = (c, w) -> decoded s c w.
Proof.
  destruct s as [|a0 t0]; [congruence|]. intros _.
  unfold utf8.DecodeRuneInString.
  pose proof (byte_range a0) as B0.
  set (s0 := utf8.byte a0) in *.
  unfold utf8.RuneSelf.
  destruct (Z.ltb_spec s0 128) as [H0|H0].
  { intros [= <- <-]. eapply dec_ascii; eauto. }
  assert (Hinv : forall x, (utf8.RuneError, 1%nat) = x -> x = (c, w) -> decoded (String a0 t0) c w).
  { intros x <- [= <- <-]. eapply dec_invalid; eauto. }
  destruct (Z.eqb_spec (utf8.size s0) 0) as [Hs|Hs]; [intros E; eapply Hinv; eauto|].
  destruct (Z.ltb_spec (Z.of_nat (String.length (String a0 t0))) (utf8.size s0)); [intros E; eapply Hinv; eauto|].
  destruct t0 as [|a1 t1]; [intros E; eapply Hinv; eauto|].
  pose proof (byte_range a1) as B1. set (s1 := utf8.byte a1) in *.
  destruct (Z.ltb_spec s1 (utf8.accept_lo s0)) as [H1|H1]; [intros E; eapply Hinv; eauto|].
  destruct (Z.ltb_spec (utf8.accept_hi s0) s1) as [H1'|H1']; [intros E; eapply Hinv; eauto|].
  cbn [orb].
  destruct (Z.leb_spec (utf8.size s0) 2) as [H2|H2].
  { intros [= <- <-].
    assert (0xC2 <= s0 < 0xE0 /\ 0x80 <= s1 <= 0xBF) as [R0 R1].
    { unfold utf8.size, utf8.accept_lo, utf8.accept_hi in *.
      repeat match goal with
             | H : context [if ?b then _ else _] |- _ => destruct b eqn:?
             end; lia. }
    apply dec_multi; cbn [String.length utf8.take all_high];
      [lia | lia | by_divmod | | ].
    - rewrite enc_2 by by_divmod. repeat f_equal; apply chr_eq; by_divmod.
    - fold s0 s1. repeat (apply andb_true_intro; split); try reflexivity; lia. }
  destruct t1 as [|a2 t2]; [intros E; eapply Hinv; eauto|].
  pose proof (byte_range a2) as B2. set (s2 := utf8.byte a2) in *.
  unfold utf8.locb, utf8.hicb.
  destruct (Z.ltb_spec s2 128) as [H3|H3]; [intros E; eapply Hinv; eauto|].
  destruct (Z.ltb_spec 191 s2) as [H3'|H3']; [intros E; eapply Hinv; eauto|].
  cbn [orb].
  destruct (Z.leb_spec (utf8.size s0) 3) as [H4|H4].
  { intros [= <- <-].
    assert (0xE0 <= s0 < 0xF0 /\ 0x80 <= s1 <= 0xBF
            /\ (s0 = 0xE0 -> 0xA0 <= s1) /\ (s0 = 0xED -> s1 <= 0x9F)) as (R0 & R1 & R2 & R3).
    { unfold utf8.size, utf8.accept_lo, utf8.accept_hi in *.
      repeat match goal with
             | H : context [if ?b then _ else _] |- _ => destruct b eqn:?
             end; lia. }
    apply dec_multi; cbn [String.length utf8.take all_high];
      [lia | lia | by_divmod | | ].
    - rewrite enc_3 by by_divmod. unfold utf8.enc3.
      repeat f_equal; apply chr_eq; by_divmod.
    - fold s0 s1 s2. repeat (apply andb_true_intro; split); try reflexivity; lia. }
  destruct t2 as [|a3 t3]; [intros E; eapply Hinv; eauto|].
  pose proof (byte_range a3) as B3. set (s3 := utf8.byte a3) in *.
  destruct (Z.ltb_spec s3 128) as [H5|H5]; [intros E; eapply Hinv; eauto|].
  destruct (Z.ltb_spec 191 s3) as [H5'|H5']; [intros E; eapply Hinv; eauto|].
  cbn [orb].
  intros [= <- <-].
  assert (0xF0 <= s0 < 0xF5 /\ 0x80 <= s1 <= 0xBF
          /\ (s0 = 0xF0 -> 0x90 <= s1) /\ (s0 = 0xF4 -> s1 <= 0x8F)) as (R0 & R1 & R2 & R3).
  { unfold utf8.size, utf8.accept_lo, utf8.accept_hi in *.
    repeat match goal with
           | H : context [if ?b then _ else _] |- _ => destruct b eqn:?
           end; lia. }
  apply dec_multi; cbn [String.length utf8.take all_high];
    [lia | lia | by_divmod | | ].
  - rewrite enc_4 by by_divmod.
    repeat f_equal; apply chr_eq; by_divmod.
  - fold s0 s1 s2 s3. repeat (apply andb_true_intro; split); try reflexivity; lia.
Qed.


Lemma take_drop n s : utf8.take n s ++ utf8.drop n s = s.
Proof.
  revert s; induction n as [|n IH]; intros [|a t]; cbn; try reflexivity.
  now rewrite IH.
Qed.

Lemma drop_length n s :
  String.length (utf8.drop n s) = (String.length s - n)%nat.
Proof.
  revert s; induction n as [|n IH]; intros [|a t]; cbn; try lia.
  apply IH.
Qed.

Lemma range_from_drop k s :
  utf8.range_from k s = utf8.range (utf8.drop k s).
Proof.
  revert k; induction s as [|a t IH]; intros [|k]; try reflexivity.
  cbn [utf8.range_from utf8.drop]. apply IH.
Qed.

Lemma decoded_width s c w : decoded s c w -> (1 <= w <= String.length s)%nat.
Proof. intros [a t -> _ _ ->|a t -> _ _ ->|? ? _ _ _]; cbn; lia. Qed.

Lemma range_cons a t c w :
  utf8.DecodeRuneInString (String a t) = (c, w) ->
  utf8.range (String a t) =
  (c, utf8.take w (String a t)) :: utf8.range (utf8.drop w (String a t)).
Proof.
  intros E.
  assert (decoded (String a t) c w) as D by (apply decode_cases; congruence).
  apply decoded_width in D.
  unfold utf8.range at 1. cbn [utf8.range_from]. rewrite E.
  rewrite range_from_drop.
  destruct w as [|w]; [lia|]. cbn [utf8.drop Nat.sub]. now rewrite ?Nat.sub_0_r.
Qed.

(** Induction along the characters of a string, as [range] walks it. *)
Lemma range_ind (P : string -> Prop) :
  P "" ->
  (forall a t c w,
      utf8.DecodeRuneInString (String a t) = (c, w) ->
      decoded (String a t) c w ->
      P (utf8.drop w (String a t)) -> P (String a t)) ->
  forall s, P s.
Proof.
  intros Hnil Hcons s.
  remember (String.length s) as n eqn:Hn.
  revert s Hn. induction n as [n IH] using lt_wf_ind. intros [|a t] Hn; [exact Hnil|].
  destruct (utf8.DecodeRuneInString (String a t)) as [c w] eqn:E.
  assert (decoded (String a t) c w) as D by (apply decode_cases; congruence).
  pose proof (decoded_width _ _ _ D) as W.
  eapply Hcons; eauto.
  eapply IH; [|reflexivity]. rewrite drop_length. subst n. cbn [String.length] in *. clear - W. generalize dependent (String.length t). intros; lia.
Qed.

(** ** [strings.Map] under the mapping of [sanitizeFilename] *)


Lemma sanitizeFilename_eq name :
  sanitizeFilename name = strings.Map keep name.
Proof. reflexivity. Qed.

Lemma byte_inj a b : utf8.byte a = utf8.byte b -> a = b.
Proof. intros H. rewrite <- (chr_byte a), <- (chr_byte b). now rewrite H. Qed.

Lemma sep_rune_byte a : sep_rune (utf8.byte a) = is_separator a.
Proof.
  unfold sep_rune, is_separator, rune.
  assert (forall b, (utf8.byte a =? utf8.byte b) = (a =? b)%char) as E.
  { intros b. destruct (Ascii.eqb_spec a b) as [->|N].
    - apply Z.eqb_refl.
    - apply Z.eqb_neq. intros H. apply N, byte_inj, H. }
  now rewrite !E.
Qed.

Lemma sep_rune_high c : 0x80 <= c -> sep_rune c = false.
Proof.
  intros H. unfold sep_rune, rune. 
  repeat match goal with |- context [c =? ?k] => destruct (Z.eqb_spec c k) as [->|_] end;
    try reflexivity; vm_compute in H; exfalso; apply H; reflexivity.
Qed.

Lemma is_separator_high a : 0x80 <= utf8.byte a -> is_separator a = false.
Proof. intros H. rewrite <- sep_rune_byte. now apply sep_rune_high. Qed.

Lemma remove_separators_high b : all_high b = true -> remove_separators b = b.
Proof.
  induction b as [|a t IH]; cbn; [reflexivity|].
  intros [Ha Ht]%andb_prop. rewrite is_separator_high by lia. now rewrite IH.
Qed.

Lemma remove_separators_app s t :
  remove_separators (s ++ t) = remove_separators s ++ remove_separators t.
Proof.
  induction s as [|a s IH]; cbn; [reflexivity|].
  destruct (is_separator a); cbn; now rewrite IH.
Qed.

Lemma no_separator_app s t :
  no_separator (s ++ t) = no_separator s && no_separator t.
Proof.
  induction s as [|a s IH]; cbn; [reflexivity|]. now rewrite IH, andb_assoc.
Qed.

Lemma no_separator_remove s : no_separator (remove_separators s) = true.
Proof.
  induction s as [|a s IH]; cbn; [reflexivity|].
  destruct (is_separator a) eqn:E; cbn; [exact IH|]. now rewrite E, IH.
Qed.

Lemma enc_1 a : utf8.byte a < 0x80 -> utf8.EncodeRune (utf8.byte a) = String a "".
Proof.
  intros H. pose proof (byte_range a). unfold utf8.EncodeRune.
  destruct (Z.leb_spec 0 (utf8.byte a)); [|lia].
  destruct (Z.leb_spec (utf8.byte a) 0x7F); [|lia].
  cbn. now rewrite chr_byte.
Qed.

(** Both loops of [strings.Map] emit [piece] for a decoded character. *)
Lemma keep_step s c w :
  decoded s c w ->
  (if 0 <=? keep c then utf8.EncodeRune (keep c) else "") = piece (c, utf8.take w s)
  /\ ((keep c =? c) && negb (utf8.invalid (c, utf8.take w s)) = true ->
      utf8.take w s = piece (c, utf8.take w s)).
Proof.
  intros [a t -> Ha -> -> | a t -> Ha -> -> | Hw Hl Hc He Hh].
  - pose proof (byte_range a) as B.
    assert (utf8.invalid (utf8.byte a, String a "") = false) as I.
    { unfold utf8.invalid. cbn [fst]. destruct (Z.eqb_spec (utf8.byte a) utf8.RuneError) as [E|_];
        [unfold utf8.RuneError in E; lia | reflexivity]. }
    unfold piece, keep. cbn [utf8.take snd remove_separators]. rewrite I, sep_rune_byte.
    destruct (is_separator a) eqn:S.
    + split; [reflexivity|]. intros H. apply andb_prop in H as [H _].
      apply Z.eqb_eq in H. lia.
    + destruct (Z.leb_spec 0 (utf8.byte a)); [|lia]. now rewrite enc_1.
  - unfold piece, keep. cbn [utf8.take]. unfold utf8.invalid at 1 3. cbn [fst snd String.length].
    rewrite Z.eqb_refl. cbn [andb Nat.eqb].
    rewrite sep_rune_high by (vm_compute; discriminate).
    split; [reflexivity|]. unfold utf8.invalid. cbn [fst snd String.length].
    rewrite Z.eqb_refl. cbn. discriminate.
  - assert (utf8.invalid (c, utf8.take w s) = false) as I.
    { unfold utf8.invalid. cbn [snd]. rewrite <- He in Hh.
      assert (String.length (utf8.take w s) = w) as L.
      { clear - Hl. revert s Hl. induction w as [|w IH]; intros [|a t] Hl; cbn in *; try lia.
        rewrite IH; [reflexivity|]. generalize dependent (String.length t). intros; lia. }
      rewrite L. destruct (Nat.eqb_spec w 1); [lia|]. apply andb_false_r. }
    unfold piece, keep. rewrite I, sep_rune_high by exact Hc. cbn [snd].
    rewrite remove_separators_high by exact Hh.
    destruct (Z.leb_spec 0 c); [|lia]. split; [exact He|reflexivity].
Qed.

Lemma Map_write_pieces s : strings.Map_write keep (utf8.range s) = pieces (utf8.range s).
Proof.
  induction s as [|a t c w E D IH] using range_ind; [reflexivity|].
  rewrite (range_cons _ _ _ _ E). cbn [strings.Map_write pieces fold_right].
  fold (pieces (utf8.range (utf8.drop w (String a t)))).
  rewrite IH. now destruct (keep_step _ _ _ D) as [-> _].
Qed.

Lemma Map_scan_pieces s : strings.Map_scan keep (utf8.range s) = pieces (utf8.range s).
Proof.
  induction s as [|a t c w E D IH] using range_ind; [reflexivity|].
  rewrite (range_cons _ _ _ _ E). cbn [strings.Map_scan pieces fold_right].
  fold (pieces (utf8.range (utf8.drop w (String a t)))).
  destruct (keep_step _ _ _ D) as [Hw Hs].
  destruct ((keep c =? c) && negb (utf8.invalid (c, utf8.take w (String a t)))) eqn:B.
  - rewrite IH. now rewrite <- Hs.
  - rewrite Map_write_pieces. now rewrite Hw.
Qed.

Lemma sanitizeFilename_pieces s : sanitizeFilename s = pieces (utf8.range s).
Proof. rewrite sanitizeFilename_eq. apply Map_scan_pieces. Qed.

Lemma pieces_replace_invalid s :
  pieces (utf8.range s) = remove_separators (replace_invalid s).
Proof.
  unfold replace_invalid.
  induction (utf8.range s) as [|cb cs IH]; [reflexivity|].
  cbn [pieces fold_right]. fold (pieces cs). rewrite IH, remove_separators_app.
  f_equal. unfold piece. destruct (utf8.invalid cb); [|reflexivity].
  symmetry. apply remove_separators_high. reflexivity.
Qed.

Lemma replace_invalid_valid s : utf8.ValidString s = true -> replace_invalid s = s.
Proof.
  unfold utf8.ValidString, replace_invalid.
  induction s as [|a t c w E D IH] using range_ind; [reflexivity|].
  rewrite (range_cons _ _ _ _ E). cbn [forallb fold_right].
  intros [H1 H2]%andb_prop. apply negb_true_iff in H1. rewrite H1. cbn [snd].
  rewrite IH by exact H2. apply take_drop.
Qed.

Lemma sanitizeFilename_any s :
  sanitizeFilename s = remove_separators (replace_invalid s).
Proof. now rewrite sanitizeFilename_pieces, pieces_replace_invalid. Qed.

Lemma sanitizeFilename_no_separator s : no_separator (sanitizeFilename s) = true.
Proof. rewrite sanitizeFilename_any. apply no_separator_remove. Qed.


(** ** [path/filepath]: joining plain names *)

Lemma elements_nonempty p : filepath.elements p <> [].
Proof.
  destruct p as [|a t]; cbn; [discriminate|].
  destruct (a =? "/")%char; [discriminate|].
  destruct (filepath.elements t); discriminate.
Qed.

Lemma elements_app a b :
  filepath.elements (a ++ String "/" b)
  = (filepath.elements a ++ filepath.elements b)%list.
Proof.
  induction a as [|c a IH]; [reflexivity|].
  cbn [append filepath.elements]. rewrite IH.
  destruct (c =? "/")%char; [reflexivity|].
  pose proof (elements_nonempty a) as N.
  destruct (filepath.elements a); [congruence|reflexivity].
Qed.

Lemma elements_no_slash s : no_slash s = true -> filepath.elements s = [s].
Proof.
  induction s as [|c s IH]; [reflexivity|].
  cbn. intros [Hc Hs]%andb_prop. apply negb_true_iff in Hc. rewrite Hc.
  now rewrite IH.
Qed.

Lemma no_slash_app s t : no_slash (s ++ t) = no_slash s && no_slash t.
Proof.
  induction s as [|c s IH]; [reflexivity|]. cbn. now rewrite IH, andb_assoc.
Qed.

Lemma plain_no_slash n : plain n -> no_slash n = true.
Proof. now intros (_ & _ & _ & H). Qed.

Lemma concat_cons2 x y l :
  String.concat "/" (x :: y :: l) = x ++ String "/" (String.concat "/" (y :: l)).
Proof. reflexivity. Qed.

Lemma elements_concat names :
  names <> [] -> Forall plain names ->
  filepath.elements (String.concat "/" names) = names.
Proof.
  induction names as [|x [|y l] IH]; intros N F; [congruence| |].
  - cbn. apply elements_no_slash, plain_no_slash. now inversion F.
  - rewrite concat_cons2, elements_app. inversion F as [|? ? Hx F']; subst.
    rewrite IH by (congruence || assumption).
    now rewrite elements_no_slash by now apply plain_no_slash.
Qed.

Lemma clean_step_plain r out e : plain e -> filepath.clean_step r out e = e :: out.
Proof.
  intros (N0 & N1 & N2 & _). unfold filepath.clean_step.
  destruct (String.eqb_spec e ""); [congruence|].
  destruct (String.eqb_spec e "."); [congruence|].
  destruct (String.eqb_spec e ".."); [congruence|]. reflexivity.
Qed.

Lemma fold_clean_plain r names out :
  Forall plain names ->
  fold_left (filepath.clean_step r) names out = (rev names ++ out)%list.
Proof.
  intros F. revert out. induction F as [|n names Hn F IH]; intros out; [reflexivity|].
  cbn [fold_left rev]. rewrite clean_step_plain by exact Hn.
  rewrite IH. now rewrite <- app_assoc.
Qed.

Lemma rooted_app base x : base <> "" -> filepath.rooted (base ++ x) = filepath.rooted base.
Proof. destruct base as [|c base]; [congruence|]. intros _. reflexivity. Qed.

Lemma append_empty_r s : s ++ "" = s.
Proof. induction s as [|c s IH]; cbn; [reflexivity|now rewrite IH]. Qed.

Lemma rooted_plain n x : plain n -> filepath.rooted (n ++ x) = false.
Proof.
  intros (N0 & _ & _ & S). destruct n as [|c n]; [congruence|].
  cbn in *. apply andb_prop in S as [S _]. now apply negb_true_iff in S.
Qed.

Lemma concat_plain_nonempty n l : plain n -> String.concat "/" (n :: l) <> "".
Proof.
  intros (N0 & _). destruct n as [|c n]; [congruence|].
  destruct l; cbn; discriminate.
Qed.

Lemma render_unrooted names :
  Forall plain names ->
  filepath.render false names <> ""
  /\ filepath.rooted (filepath.render false names) = false
  /\ fold_left (filepath.clean_step false)
       (filepath.elements (filepath.render false names)) []
     = rev names.
Proof.
  intros F. unfold filepath.render.
  destruct names as [|n l].
  - cbn. split; [discriminate|split; reflexivity].
  - assert (String.concat "/" (n :: l) = n ++ match l with [] => "" | _ => String "/" (String.concat "/" l) end) as E.
    { destruct l; cbn; [now rewrite append_empty_r|reflexivity]. }
    assert (plain n) as Hn by now inversion F.
    assert (String.concat "/" (n :: l) <> "") as NE by now apply concat_plain_nonempty.
    destruct (String.eqb_spec (String.concat "/" (n :: l)) ""); [congruence|].
    repeat split; [exact NE| |].
    + rewrite E. now apply rooted_plain.
    + rewrite elements_concat by (congruence || assumption).
      rewrite fold_clean_plain by assumption. apply app_nil_r.
Qed.

Lemma session_names_plain sid san :
  plain sid -> no_slash san = true -> Forall plain (session_names sid san).
Proof.
  intros Hs Hn. unfold session_names.
  destruct (String.eqb_spec san ""); [now constructor|].
  destruct (String.eqb_spec san "."); [now constructor|].
  destruct (String.eqb_spec san ".."); cbn [orb]; [constructor|].
  constructor; [exact Hs|]. constructor; [|constructor].
  unfold plain. auto.
Qed.

Lemma Join_session sid san :
  plain sid -> no_slash san = true ->
  filepath.Join [sid; san] = filepath.render false (session_names sid san).
Proof.
  intros Hs Hn. pose proof Hs as (N0 & N1 & N2 & S).
  cbn [filepath.Join]. destruct (String.eqb_spec sid ""); [congruence|].
  rewrite concat_cons2. cbn [String.concat]. unfold filepath.Clean, filepath.cleaned.
  rewrite rooted_plain by exact Hs.
  rewrite elements_app, !elements_no_slash by assumption.
  cbn [app fold_left]. rewrite (clean_step_plain false [] sid) by exact Hs.
  unfold filepath.clean_step, session_names.
  destruct (String.eqb_spec san ""); [reflexivity|].
  destruct (String.eqb_spec san "."); [reflexivity|].
  destruct (String.eqb_spec san ".."); cbn [orb].
  - destruct (String.eqb_spec sid ".."); [congruence|reflexivity].
  - reflexivity.
Qed.

Lemma Join_session_plain sid san :
  plain sid -> plain san -> filepath.Join [sid; san] = sid ++ "/" ++ san.
Proof.
  intros Hs Hn. rewrite Join_session by (auto using plain_no_slash).
  destruct Hn as (M0 & M1 & M2 & _). unfold session_names.
  destruct (String.eqb_spec san ""); [congruence|].
  destruct (String.eqb_spec san "."); [congruence|].
  destruct (String.eqb_spec san ".."); [congruence|].
  cbn [orb]. unfold filepath.render. cbn [String.concat].
  destruct Hs as (N0 & _).
  destruct (String.eqb_spec (sid ++ "/" ++ san) "") as [E|_]; [|reflexivity].
  destruct sid; [congruence|discriminate].
Qed.

Lemma Join_within base names :
  Forall plain names ->
  within base (filepath.Join [base; filepath.render false names]).
Proof.
  intros F. exists names. split; [exact F|].
  destruct (render_unrooted names F) as (NE & R & E).
  cbn [filepath.Join].
  destruct (String.eqb_spec (filepath.render false names) ""); [congruence|].
  destruct (String.eqb_spec base "") as [->|NB].
  - cbn [String.concat]. unfold filepath.Clean, filepath.cleaned.
    rewrite R, E, rev_involutive. reflexivity.
  - rewrite concat_cons2. cbn [String.concat].
    unfold filepath.Clean, filepath.cleaned.
    rewrite rooted_app by exact NB.
    rewrite elements_app, fold_left_app.
    f_equal.
    set (S := fold_left _ (filepath.elements base) []).
    assert (forall r out,
               fold_left (filepath.clean_step r)
                 (filepath.elements (filepath.render false names)) out
               = (rev names ++ out)%list) as G.
    { intros r out. unfold filepath.render.
      destruct names as [|x l]; [reflexivity|].
      destruct (String.eqb_spec (String.concat "/" (x :: l)) "") as [E0|_].
      - exfalso. revert E0. apply concat_plain_nonempty. now inversion F.
      - rewrite elements_concat by (congruence || assumption).
        now apply fold_clean_plain. }
    rewrite G, rev_app_distr, rev_involutive. reflexivity.
Qed.

(** ** [time]: the session identifier is a plain name *)

Lemma dots_only_app s t : dots_only (s ++ t) = dots_only s && dots_only t.
Proof.
  induction s as [|c s IH]; [reflexivity|]. cbn. now rewrite IH, andb_assoc.
Qed.

Lemma no_slash_uint d : no_slash (NilEmpty.string_of_uint d) = true.
Proof. induction d; cbn; auto. Qed.

Lemma no_slash_zeros n : no_slash (time.zeros n) = true.
Proof. induction n; cbn; auto. Qed.

Lemma no_slash_appendInt x w : no_slash (time.appendInt x w) = true.
Proof.
  unfold time.appendInt. rewrite !no_slash_app, no_slash_zeros.
  assert (no_slash (NilZero.string_of_uint (N.to_uint (Z.abs_N x))) = true) as ->.
  { unfold NilZero.string_of_uint. destruct (N.to_uint (Z.abs_N x)) eqn:E;
      try reflexivity; rewrite <- E; apply no_slash_uint. }
  now destruct (x <? 0).
Qed.

Lemma Format_plain t : plain (time.Format t).
Proof.
  assert (dots_only (time.Format t) = false) as D.
  { unfold time.Format. rewrite dots_only_app.
    replace (dots_only ("-" ++ _)) with false by reflexivity. apply andb_false_r. }
  repeat split; try (intros E; rewrite E in D; discriminate).
  unfold time.Format. rewrite !no_slash_app, !no_slash_appendInt. reflexivity.
Qed.

(** ** The loop of [uploadHandler] *)

Lemma error_eqb_EOF err : error_eqb err io.EOF = true <-> err = io.EOF.
Proof. unfold io.EOF. destruct err; cbn; split; congruence. Qed.

Lemma unexpectedEOF_EOF : unexpectedEOF io.EOF = false.
Proof. reflexivity. Qed.

Lemma incr_exact x : 0 <= x < 2 ^ 63 - 1 -> int.incr x = x + 1.
Proof.
  intros Hx. unfold int.incr, int.wrap.
  rewrite Z.mod_small; lia.
Qed.

Lemma incr_range x : - 2 ^ 63 <= int.incr x < 2 ^ 63.
Proof.
  unfold int.incr, int.wrap.
  pose proof (Z.mod_pos_bound (x + 1 + 2 ^ 63) (2 ^ 64)). lia.
Qed.

Lemma incr_le x : - 2 ^ 63 <= x -> int.incr x <= x + 1.
Proof.
  intros Hx. unfold int.incr, int.wrap.
  pose proof (Z.mod_le (x + 1 + 2 ^ 63) (2 ^ 64)). lia.
Qed.

Section LoopFacts.

Context {B : Type} `{store.Backend B}.

Lemma loopBody_stepped subfolder (s : Session B) next :
  stepped subfolder s next
    (fst (loopBody subfolder s next)) (snd (loopBody subfolder s next)).
Proof.
  unfold loopBody. destruct next as [part|err].
  - destruct (String.eqb_spec (FileName part) "") as [E|N].
    + now constructor.
    + cbn [storage record].
      destruct (store.SaveFile _ _ _) as [b [e|]] eqn:S; cbn [fst snd].
      * now apply step_save_failed.
      * now apply step_saved.
  - destruct (error_eqb err io.EOF) eqn:E.
    + apply error_eqb_EOF in E as ->. constructor.
    + assert (err <> io.EOF) as N.
      { intros ->. now rewrite (proj2 (error_eqb_EOF _) eq_refl) in E. }
      destruct (unexpectedEOF err) eqn:U; cbn [fst snd].
      * now apply step_dropped.
      * now apply step_abort.
Qed.

Lemma loopBody_inv subfolder (s s' : Session B) next f :
  loopBody subfolder s next = (f, s') -> stepped subfolder s next f s'.
Proof.
  intros E. pose proof (loopBody_stepped subfolder s next) as S.
  now rewrite E in S.
Qed.

Lemma stepped_accounted subfolder (s s' : Session B) next f n :
  stepped subfolder s next f s' -> accounted n s -> n < 2 ^ 63 - 1 ->
  accounted (n + 1) s'.
Proof.
  intros S (Hs & Hf & He) Hn.
  destruct S; unfold accounted; cbn [saved failed lastError incr_failed incr_saved
    set_lastError set_storage record];
    rewrite ?incr_exact by lia;
    (split; [lia|split; [lia|]]); try discriminate; auto.
Qed.

Lemma uploadLoop_accounted subfolder script :
  forall (s s' : Session B) e n,
    uploadLoop subfolder script s = (e, s') ->
    accounted n s -> n + Z.of_nat (List.length script) < 2 ^ 63 ->
    accounted (n + Z.of_nat (List.length script)) s'
    /\ (forall resp, e = Returned resp -> resp = timeoutResponse s').
Proof.
  induction script as [|next rest IH]; intros s s' e n E A L.
  - cbn in E. injection E as <- <-. split.
    + cbn [List.length]. now rewrite Z.add_0_r.
    + now intros resp [= <-].
  - cbn [uploadLoop] in E. cbn [List.length] in *.
    destruct (loopBody subfolder s next) as [f s1] eqn:Eb.
    apply loopBody_inv in Eb.
    assert (accounted (n + 1) s1) as A1 by (eapply stepped_accounted; eauto; lia).
    destruct f.
    + destruct (IH _ _ _ _ E A1) as [A2 R]; [lia|]. split; [|exact R].
      replace (n + Z.of_nat (S (List.length rest)))
        with (n + 1 + Z.of_nat (List.length rest)) by lia. exact A2.
    + injection E as <- <-. split; [|discriminate].
      destruct A1 as (? & ? & ?). unfold accounted. repeat split; try lia; auto.
Qed.

Lemma table_timeout (s : Session B) :
  0 <= saved s ->
  step6_table true (saved s) (failed s) (lastError s) = Some (timeoutResponse s).
Proof.
  intros Hs. unfold step6_table, timeoutResponse.
  destruct (Z.gtb_spec (saved s) 0); [reflexivity|].
  destruct (Z.eqb_spec (saved s) 0); [reflexivity|lia].
Qed.

Lemma table_summary (s : Session B) :
  0 <= saved s -> 0 <= failed s -> (lastError s = None -> failed s = 0) ->
  step6_table false (saved s) (failed s) (lastError s) = Some (summary s).
Proof.
  intros Hs Hf He. unfold step6_table, summary.
  destruct (Z.eqb_spec (saved s) 0) as [E0|N0].
  - destruct (lastError s) as [e|].
    + cbn [andb]. now destruct (unexpectedEOF e).
    + rewrite He by reflexivity. reflexivity.
  - assert ((saved s >? 0) = true) as -> by (apply Z.gtb_lt; lia).
    cbn [andb].
    destruct (Z.gtb_spec (failed s) 0).
    + now destruct (lastError s).
    + assert (failed s = 0) as -> by lia. now destruct (lastError s).
Qed.

End LoopFacts.

Section LoopEvents.

Context {B : Type} `{store.Backend B}.

Lemma session_calls_nil subfolder script : session_calls subfolder script [].
Proof. split; [reflexivity|]. intros ? ? []. Qed.

Lemma session_calls_app subfolder next rest new1 new2 :
  session_calls subfolder [next] new1 ->
  session_calls subfolder rest new2 ->
  session_calls subfolder (next :: rest) (new1 ++ new2)%list.
Proof.
  intros [V1 S1] [V2 S2]. split.
  - now rewrite forallb_app, V1, V2.
  - intros name data [I|I]%in_app_or.
    + destruct (S1 _ _ I) as (part & [E|[]] & ?). exists part. split; [now left|assumption].
    + destruct (S2 _ _ I) as (part & E & ?). exists part. split; [now right|assumption].
Qed.

Lemma stepped_calls subfolder (s s' : Session B) next f :
  stepped subfolder s next f s' ->
  exists new, events s' = (events s ++ new)%list
              /\ session_calls subfolder [next] new.
Proof.
  intros S. destruct S; cbn [events record set_lastError incr_failed incr_saved set_storage].
  1-4: exists [EvNextPart]; split; [reflexivity|];
       split; [reflexivity|]; intros ? ? [?|[]]; discriminate.
  all: eexists [EvNextPart; EvSaveFile _ _]; split;
       [now rewrite <- app_assoc|];
       split; [reflexivity|];
       intros ? ? [?|[E|[]]]; [discriminate|]; injection E as <- <-;
       exists part; repeat split; auto; now left.
Qed.

Lemma uploadLoop_calls subfolder script :
  forall (s s' : Session B) e,
    uploadLoop subfolder script s = (e, s') ->
    exists new, events s' = (events s ++ new)%list
                /\ session_calls subfolder script new.
Proof.
  induction script as [|next rest IH]; intros s s' e E.
  - cbn in E. injection E as <- <-. exists []. split.
    + now rewrite app_nil_r.
    + apply session_calls_nil.
  - cbn [uploadLoop] in E.
    destruct (loopBody subfolder s next) as [f s1] eqn:Eb.
    apply loopBody_inv, stepped_calls in Eb as (new1 & E1 & C1).
    destruct f.
    + apply IH in E as (new2 & E2 & C2).
      exists (new1 ++ new2)%list. split.
      * now rewrite E2, E1, app_assoc.
      * now apply session_calls_app.
    + injection E as <- <-. exists (new1 ++ [])%list. split.
      * now rewrite app_nil_r.
      * apply session_calls_app; [exact C1|apply session_calls_nil].
Qed.

Lemma is_dropped_true err :
  err <> io.EOF -> unexpectedEOF err = true -> is_dropped (inr err) = true.
Proof.
  intros N U. cbn. rewrite U.
  destruct (error_eqb err io.EOF) eqn:E; [|reflexivity].
  now apply error_eqb_EOF in E.
Qed.

(** The same accounting along the iterations, whatever the length of
    the script: the counters never exceed what was observed. *)
Lemma sessionAt_bound subfolder n :
  forall script (s s' : Session B) c,
    sessionAt subfolder n script s = Some s' ->
    - 2 ^ 63 <= saved s -> - 2 ^ 63 <= failed s ->
    saved s + failed s <= c ->
    saved s' + failed s'
    <= c + count is_named (firstn n script) + count is_dropped (firstn n script).
Proof.
  induction n as [|n IH]; intros script s s' c E Hs Hf Hc.
  - cbn in E. injection E as <-. cbn. unfold count. cbn. lia.
  - destruct script as [|next rest]; [discriminate|].
    cbn [sessionAt] in E.
    destruct (loopBody subfolder s next) as [f s1] eqn:Eb.
    destruct f; [|discriminate].
    apply loopBody_inv in Eb.
    set (k := (if is_named next then 1 else 0) + (if is_dropped next then 1 else 0)).
    assert (count is_named (firstn (S n) (next :: rest))
            + count is_dropped (firstn (S n) (next :: rest))
            = k + count is_named (firstn n rest) + count is_dropped (firstn n rest)) as Ek.
    { unfold count, k. cbn [firstn filter].
      destruct (is_named next), (is_dropped next); cbn [List.length]; lia. }
    assert (- 2 ^ 63 <= saved s1 /\ - 2 ^ 63 <= failed s1
            /\ saved s1 + failed s1 <= c + k) as (Hs1 & Hf1 & Hc1).
    { unfold k. inversion Eb; subst;
        cbn [saved failed incr_failed incr_saved set_lastError set_storage record
             is_named];
        repeat match goal with
               | |- context [int.incr ?x] =>
                 pose proof (incr_range x); pose proof (incr_le x);
                 generalize dependent (int.incr x); intros
               end.
      all: repeat match goal with
                  | Hn : ?err <> io.EOF, Hu : unexpectedEOF ?err = true |- _ =>
                    rewrite (is_dropped_true err Hn Hu); clear Hu
                  | Hn : FileName ?p = "" |- _ =>
                    rewrite (proj2 (String.eqb_eq _ _) Hn); clear Hn
                  | Hn : FileName ?p <> "" |- _ =>
                    rewrite (proj2 (String.eqb_neq _ _) Hn); clear Hn
                  end; cbn [negb is_dropped]; lia. }
    specialize (IH rest s1 s' (c + k) E Hs1 Hf1 Hc1). lia.
Qed.

End LoopEvents.

(* ================================================================= *)
(** ** The loop against Step 5 of the specification *)

Lemma incr_next x : - 2 ^ 63 <= x < 2 ^ 63 - 1 -> int.incr x = x + 1.
Proof.
  intros Hx. unfold int.incr, int.wrap.
  rewrite Z.mod_small; lia.
Qed.

Lemma error_eqb_other err : err <> io.EOF -> error_eqb err io.EOF = false.
Proof.
  intros N. destruct (error_eqb err io.EOF) eqn:E; [|reflexivity].
  now apply error_eqb_EOF in E.
Qed.

Section LoopTally.

Context {B : Type} `{store.Backend B}.

(** One iteration keeps the session and the tally together, and the
    loop goes on exactly after an answer that [continues]. *)
Lemma stepped_tallied subfolder (s s' : Session B) (t : Tally B) next f n :
  stepped subfolder s next f s' ->
  tallied s t -> accounted n s -> n < 2 ^ 63 - 1 ->
  tallied s' (step5 subfolder t next)
  /\ f = (if continues next then Continue else Break).
Proof.
  intros S (Es & Ef & Ee & Eb) (Hs & Hf & _) Hn.
  destruct S as [|err N U|err N U|part E|part b e N S|part b N S];
    unfold tallied, step5, continues;
    cbn [saved failed lastError storage incr_failed incr_saved
         set_lastError set_storage record].
  - change (error_eqb io.EOF io.EOF) with true. cbn [negb andb]. repeat split; auto.
  - rewrite (error_eqb_other _ N), U. cbn [negb andb nsaved nfailed recent held].
    rewrite incr_exact by lia. repeat split; auto. lia.
  - rewrite (error_eqb_other _ N), U. cbn [negb andb nsaved nfailed recent held].
    repeat split; auto.
  - rewrite E. change (("" =? "")%string) with true. cbv iota. repeat split; auto.
  - apply String.eqb_neq in N. rewrite N, <- Eb, S.
    cbn [nsaved nfailed recent held]. rewrite incr_exact by lia.
    repeat split; auto. lia.
  - apply String.eqb_neq in N. rewrite N, <- Eb, S.
    cbn [nsaved nfailed recent held]. rewrite incr_exact by lia.
    repeat split; auto. lia.
Qed.

(** The loop over a whole script: it ends with the counters and the
    error of the tally over the answers it got to see, and it is left
    through the deadline branch exactly when the deadline elapses. *)
Lemma uploadLoop_tally subfolder script :
  forall (s : Session B) (t : Tally B) n,
    tallied s t -> accounted n s ->
    n + Z.of_nat (List.length script) < 2 ^ 63 ->
    tallied (snd (uploadLoop subfolder script s))
      (fold_left (step5 subfolder) (consumed script) t)
    /\ accounted (n + Z.of_nat (List.length script))
         (snd (uploadLoop subfolder script s))
    /\ fst (uploadLoop subfolder script s)
       = if deadline_elapsed script
         then Returned (timeoutResponse (snd (uploadLoop subfolder script s)))
         else Broke.
Proof.
  induction script as [|next rest IH]; intros s t n T A L.
  - cbn. rewrite Z.add_0_r. auto.
  - cbn [uploadLoop consumed deadline_elapsed forallb List.length fold_left] in *.
    destruct (loopBody subfolder s next) as [f s1] eqn:Eb.
    apply loopBody_inv in Eb.
    assert (accounted (n + 1) s1) as A1 by (eapply stepped_accounted; eauto; lia).
    destruct (stepped_tallied _ _ _ _ _ _ _ Eb T A ltac:(lia)) as [T1 ->].
    destruct (continues next).
    + cbn [andb fold_left].
      destruct (IH s1 (step5 subfolder t next) (n + 1) T1 A1 ltac:(lia))
        as (T2 & A2 & E2).
      fold (deadline_elapsed rest).
      split; [exact T2|]. split; [|exact E2].
      replace (n + Z.of_nat (S (List.length rest)))
        with (n + 1 + Z.of_nat (List.length rest)) by lia.
      exact A2.
    + cbn [andb fold_left fst snd]. split; [exact T1|]. split; [|reflexivity].
      destruct A1 as (? & ? & ?). unfold accounted. repeat split; try lia; auto.
Qed.

(** The table of Step 6 over a tally gives what the handler writes for
    the session the tally describes. *)
Lemma table_tallied (s : Session B) (t : Tally B) n (elapsed : bool) :
  tallied s t -> accounted n s ->
  step6_table elapsed (nsaved t) (nfailed t) (recent t)
  = Some (if elapsed then timeoutResponse s else summary s).
Proof.
  intros (Es & Ef & Ee & _) (Hs & Hf & He).
  rewrite <- Es, <- Ef, <- Ee. destruct elapsed.
  - apply table_timeout. lia.
  - apply table_summary; auto; lia.
Qed.

(** With [storage] set, the handler that reads the package variable is
    the handler over that backend. *)
Lemma loopBody_global_set_up subfolder (s : Session B) next :
  loopBody_global subfolder (set_up s) next
  = Some (fst (loopBody subfolder s next), set_up (snd (loopBody subfolder s next))).
Proof.
  unfold loopBody_global, loopBody. destruct next as [part|err].
  - destruct (FileName part =? "")%string; [reflexivity|].
    cbn [storage record set_up].
    destruct (store.SaveFile _ _ _) as [b [e|]]; reflexivity.
  - destruct (error_eqb err io.EOF); [reflexivity|].
    destruct (unexpectedEOF err); reflexivity.
Qed.

Lemma uploadLoop_global_set_up subfolder script :
  forall s : Session B,
    uploadLoop_global subfolder script (set_up s)
    = inl (fst (uploadLoop subfolder script s),
           set_up (snd (uploadLoop subfolder script s))).
Proof.
  induction script as [|next rest IH]; intros s; [reflexivity|].
  cbn [uploadLoop_global uploadLoop]. rewrite loopBody_global_set_up.
  destruct (loopBody subfolder s next) as [[|] s1]; cbn [fst snd].
  - apply IH.
  - reflexivity.
Qed.

Lemma uploadHandler_global_set (w : World) (b : B) (secret : string) (r : Request) :
  uploadHandler_global w (Some b) secret r
  = Responded
      {| response := response (uploadHandler w b secret r);
         backend := Some (backend (uploadHandler w b secret r));
         calls := calls (uploadHandler w b secret r) |}.
Proof.
  unfold uploadHandler_global, uploadHandler.
  destruct (negb (Method r =? http.MethodPost)%string); [reflexivity|].
  destruct (ParseMediaType w (ContentType r)) as [[mediaType params]|err];
    [|reflexivity].
  destruct (negb (strings.HasPrefix mediaType "multipart/")); [reflexivity|].
  destruct (Verify w secret (TurnstileToken r) (RemoteAddr r)) as [success [err|]];
    [reflexivity|].
  destruct success; [|reflexivity].
  change (start (Some b) ?log) with (set_up (start b log)).
  rewrite uploadLoop_global_set_up.
  destruct (uploadLoop _ _ _) as [[resp|] s]; reflexivity.
Qed.

End LoopTally.

(** ** The calls of the handler *)

Lemma no_separator_no_slash s : no_separator s = true -> no_slash s = true.
Proof.
  induction s as [|a s IH]; [reflexivity|]. cbn.
  intros [Ha Hs]%andb_prop. rewrite IH by exact Hs.
  unfold is_separator in Ha. destruct (a =? "/")%char; [discriminate|reflexivity].
Qed.

Lemma sanitizeFilename_no_slash s : no_slash (sanitizeFilename s) = true.
Proof. apply no_separator_no_slash, sanitizeFilename_no_separator. Qed.

Lemma uploadHandler_saves {B : Type} `{store.Backend B}
  (w : World) (b : B) (secret : string) (r : Request) name data :
  In (EvSaveFile name data) (calls (uploadHandler w b secret r)) ->
  exists mediaType params part,
    ParseMediaType w (ContentType r) = inl (mediaType, params)
    /\ In (inl part) (NextParts w (RequestBody r) (param params "boundary"))
    /\ FileName part <> ""
    /\ name = filepath.Join [time.Format (Now w); sanitizeFilename (FileName part)]
    /\ data = reader part.
Proof.
  unfold uploadHandler.
  destruct (negb (Method r =? http.MethodPost)%string); [intros []|].
  destruct (ParseMediaType w (ContentType r)) as [[mediaType params]|err]; [|intros []].
  destruct (negb (strings.HasPrefix mediaType "multipart/")); [intros []|].
  destruct (Verify w secret (TurnstileToken r) (RemoteAddr r)) as [success [err|]].
  { cbn. intros [E|[]]. discriminate. }
  destruct success; [|cbn; intros [E|[]]; discriminate].
  destruct (uploadLoop _ _ _) as [e s] eqn:E. cbn [calls].
  apply uploadLoop_calls in E as (new & -> & _ & S). cbn [start events app].
  intros [E|I]; [discriminate|].
  destruct (S _ _ I) as (part & ? & ? & ? & ?).
  now exists mediaType, params, part.
Qed.

Lemma Format_millisecond t t' : same_millisecond t t' -> time.Format t = time.Format t'.
Proof.
  intros (E1 & E2 & E3 & E4 & E5 & E6 & E7). unfold time.Format.
  now rewrite E1, E2, E3, E4, E5, E6, E7.
Qed.

Lemma range_ascii a t :
  utf8.byte a < 0x80 ->
  utf8.range (String a t) = (utf8.byte a, String a "") :: utf8.range t.
Proof.
  intros Ha.
  assert (utf8.DecodeRuneInString (String a t) = (utf8.byte a, 1%nat)) as E.
  { unfold utf8.DecodeRuneInString, utf8.RuneSelf.
    destruct (Z.ltb_spec (utf8.byte a) 128); [reflexivity|lia]. }
  now rewrite (range_cons _ _ _ _ E).
Qed.

Lemma is_separator_ascii a : is_separator a = true -> utf8.byte a < 0x80.
Proof.
  unfold is_separator.
  destruct (Ascii.eqb_spec a "/") as [->|_]; [reflexivity|].
  destruct (Ascii.eqb_spec a "\") as [->|_]; [reflexivity|].
  destruct (Ascii.eqb_spec a ":") as [->|_]; [reflexivity|discriminate].
Qed.

Lemma sanitizeFilename_only_separators s :
  only_separators s = true -> sanitizeFilename s = "".
Proof.
  rewrite sanitizeFilename_pieces.
  induction s as [|a s IH]; [reflexivity|].
  cbn [only_separators]. intros [Ha Hs]%andb_prop.
  pose proof (is_separator_ascii a Ha) as Hb.
  rewrite range_ascii by exact Hb. cbn [pieces fold_right].
  fold (pieces (utf8.range s)). rewrite IH by exact Hs.
  unfold piece, utf8.invalid. cbn [fst snd].
  pose proof (byte_range a).
  destruct (Z.eqb_spec (utf8.byte a) utf8.RuneError) as [E|_];
    [unfold utf8.RuneError in E; lia|].
  cbn. now rewrite Ha.
Qed.

Lemma Join_session_empty sid : plain sid -> filepath.Join [sid; ""] = sid.
Proof.
  intros Hs. rewrite Join_session by (exact Hs || reflexivity).
  cbn. destruct Hs as (N & _). now destruct (String.eqb_spec sid "").
Qed.

(* ================================================================= *)
(** * The claims *)

(** ** C2: the filename sanitizer *)

(** C2, as the code has it.  For every input that is valid UTF-8,
    [sanitizeFilename] returns the input with exactly the bytes ['/'],
    ['\'] and [':'] removed, all other characters kept in order.  For
    every input, valid or not, the output holds none of the three, and
    it is the input with every byte that is not part of a valid UTF-8
    encoding replaced by the encoding of U+FFFD and the three
    characters then removed.  [sanitizeFilename "../../../etc/passwd"]
    is ["......etcpasswd"] (the dots stay).  The function is pure: it
    is a function of its argument. *)
Theorem sanitizeFilename_valid_utf8 (s : string) :
  (utf8.ValidString s = true -> sanitizeFilename s = remove_separators s)
  /\ no_separator (sanitizeFilename s) = true
  /\ sanitizeFilename s = remove_separators (replace_invalid s)
  /\ sanitizeFilename "../../../etc/passwd" = "......etcpasswd".
Proof.
  split; [|split; [|split]].
  - intros Hvalid. now rewrite sanitizeFilename_any, replace_invalid_valid.
  - apply sanitizeFilename_no_separator.
  - apply sanitizeFilename_any.
  - vm_compute. reflexivity.
Qed.

Lemma sanitizeFilename_valid_utf8_witness :
  sanitizeFilename "a/b\c:d.txt" = "abcd.txt"
  /\ no_separator (sanitizeFilename (String "255" "/x")) = true
  /\ sanitizeFilename (String "255" "/x")
     = String "239" (String "191" (String "189" "x"))
  /\ sanitizeFilename "../../../etc/passwd" = "......etcpasswd".
Proof.
  split; [|split; [|split]].
  - apply (proj1 (sanitizeFilename_valid_utf8 "a/b\c:d.txt")).
    vm_compute. reflexivity.
  - apply (proj1 (proj2 (sanitizeFilename_valid_utf8 (String "255" "/x")))).
  - apply (proj1 (proj2 (proj2 (sanitizeFilename_valid_utf8 (String "255" "/x"))))).
  - apply (proj2 (proj2 (proj2 (sanitizeFilename_valid_utf8 "")))).
Defined.

(** C2 fails as stated: a byte that is not valid UTF-8 is not preserved.
    [strings.Map] decodes the single byte 0xFF as [utf8.RuneError] and
    writes that rune back as the three bytes EF BF BD. *)
Lemma sanitizeFilename_invalid_byte :
  sanitizeFilename (String "255" "") <> remove_separators (String "255" "")
  /\ sanitizeFilename (String "255" "") = String "239" (String "191" (String "189" "")).
Proof. split; [vm_compute; discriminate|vm_compute; reflexivity]. Qed.

(** ** C1: the table of outcomes *)




(** ** C3: the counters against what was observed *)

(** C3, as the code has it.  At the head of every iteration of the loop,
    [saved + failed] is at most the number of parts with a non-empty
    filename observed so far plus the number of [NextPart] answers so
    far that were an unexpected end of data (each of these is counted in
    [failed] although no part was obtained). *)
Theorem counters_bounded_by_observed
  {B : Type} `{store.Backend B}
  (subfolder : string) (n : nat) (script : list (Part + error))
  (b : B) (log : list Event) (s : Session B)
  (Hreached : sessionAt subfolder n script (start b log) = Some s) :
  saved s + failed s
  <= count is_named (firstn n script) + count is_dropped (firstn n script).
Proof.
  pose proof (sessionAt_bound subfolder n script (start b log) s 0 Hreached) as Hb.
  cbn [start saved failed] in Hb. lia.
Qed.

Lemma counters_bounded_by_observed_witness :
  saved sample.after_interrupted + failed sample.after_interrupted
  <= count is_named (firstn 2 sample.interrupted)
     + count is_dropped (firstn 2 sample.interrupted).
Proof.
  apply (counters_bounded_by_observed sample.subfolder 2 sample.interrupted
           sample.mock [] sample.after_interrupted).
  vm_compute. reflexivity.
Defined.

(** C3 fails as stated: when the first answer of [NextPart] is an
    unexpected end of data, the second iteration starts with
    [failed = 1] although no part with a filename has been observed. *)
Lemma counters_exceed_named_parts :
  exists s : Session MockStorage,
    sessionAt sample.subfolder 1 [sample.truncated] (start sample.mock []) = Some s
    /\ saved s + failed s = 1
    /\ count is_named (firstn 1 [sample.truncated]) = 0
    /\ ~ saved s + failed s <= count is_named (firstn 1 [sample.truncated]).
Proof.
  eexists. split; [reflexivity|]. repeat split. vm_compute. intros E. apply E. reflexivity.
Qed.

(** ** C4: method and content type *)

(** C4, as the code has it.  A request whose method is not POST is
    answered 405 with the body ["Only POST allowed"], whatever its body;
    a POST request whose Content-Type does not parse as a media type, or
    whose media type does not start with ["multipart/"], is answered 400
    ["Invalid Content-Type"]; in both cases no CAPTCHA call and no read
    of the body is made.  The parameters of the media type are not
    looked at: a multipart type is passed on to the CAPTCHA verification
    with or without a boundary. *)
Theorem shape_validation
  {B : Type} `{store.Backend B}
  (w : World) (b : B) (secret : string) (r : Request) :
  (Method r <> http.MethodPost ->
   response (uploadHandler w b secret r)
   = http.Error "Only POST allowed" http.StatusMethodNotAllowed
   /\ strings.Contains (http.Body (response (uploadHandler w b secret r)))
        "Only POST allowed" = true
   /\ calls (uploadHandler w b secret r) = []
   /\ backend (uploadHandler w b secret r) = b)
  /\ (Method r = http.MethodPost ->
      (forall mediaType params,
          ParseMediaType w (ContentType r) = inl (mediaType, params) ->
          strings.HasPrefix mediaType "multipart/" = false) ->
      response (uploadHandler w b secret r)
      = http.Error "Invalid Content-Type" http.StatusBadRequest
      /\ calls (uploadHandler w b secret r) = []
      /\ backend (uploadHandler w b secret r) = b)
  /\ (Method r = http.MethodPost ->
      forall mediaType params,
        ParseMediaType w (ContentType r) = inl (mediaType, params) ->
        strings.HasPrefix mediaType "multipart/" = true ->
        exists rest,
          calls (uploadHandler w b secret r)
          = EvVerify secret (TurnstileToken r) (RemoteAddr r) :: rest).
Proof.
  unfold uploadHandler. split; [|split].
  - intros Hm. apply String.eqb_neq in Hm. rewrite Hm. cbn [negb response calls backend].
    repeat split; reflexivity.
  - intros Hm Hct. rewrite Hm, String.eqb_refl. cbn [negb].
    destruct (ParseMediaType w (ContentType r)) as [[mediaType params]|err].
    + rewrite (Hct mediaType params eq_refl). cbn. repeat split; reflexivity.
    + cbn. repeat split; reflexivity.
  - intros Hm mediaType params Hp Hmulti.
    rewrite Hm, String.eqb_refl. cbn [negb]. rewrite Hp, Hmulti. cbn [negb].
    destruct (Verify w secret (TurnstileToken r) (RemoteAddr r)) as [success [err|]].
    + eexists. reflexivity.
    + destruct success.
      * destruct (uploadLoop _ _ _) as [e s] eqn:E. cbn [calls].
        apply uploadLoop_calls in E as (new & -> & _). cbn [start events app].
        eexists. reflexivity.
      * eexists. reflexivity.
Qed.

Lemma shape_validation_witness :
  response (uploadHandler (sample.world true []) sample.mock "secret"
              (sample.request "GET" "multipart/form-data; boundary=XYZ"))
  = http.Error "Only POST allowed" 405
  /\ response (uploadHandler (sample.world true []) sample.mock "secret"
                 (sample.request "POST" "text/plain"))
     = http.Error "Invalid Content-Type" 400.
Proof.
  split.
  - apply (shape_validation (sample.world true []) sample.mock "secret"
             (sample.request "GET" "multipart/form-data; boundary=XYZ")).
    discriminate.
  - apply (shape_validation (sample.world true []) sample.mock "secret"
             (sample.request "POST" "text/plain")).
    + reflexivity.
    + intros mediaType params [= <- <-]. reflexivity.
Defined.

(** C4 fails as stated: a POST request with the Content-Type
    [multipart/form-data], which has no boundary parameter, is not
    answered 400.  The CAPTCHA verifier is called and, the token being
    refused, the answer is 403. *)
Lemma missing_boundary_reaches_captcha :
  let out := uploadHandler (sample.world false []) sample.mock "secret"
               (sample.request "POST" "multipart/form-data") in
  sample.mime "multipart/form-data" = inl ("multipart/form-data", [])
  /\ http.StatusCode (response out) = 403
  /\ calls out = [EvVerify "secret" "token" "203.0.113.7:40000"]
  /\ ~ (http.StatusCode (response out) = 400
        /\ forallb (fun e => negb (is_verify e)) (calls out) = true).
Proof.
  cbv zeta. repeat split. intros [E _]. vm_compute in E. discriminate.
Qed.

(** ** C5: the CAPTCHA verification *)

(** C5.  For a well-shaped request (POST with a multipart media type)
    the verifier is called exactly once, as the first call the handler
    makes, hence before any [SaveFile]; when the verification fails (an
    error, or [Success] false) the answer is 403
    ["CAPTCHA verification failed"], the verifier call is the only call
    made and the backend is left as it was. *)
Theorem captcha_verified_once
  {B : Type} `{store.Backend B}
  (w : World) (b : B) (secret : string) (r : Request)
  (mediaType : string) (params : list (string * string))
  (Hpost : Method r = http.MethodPost)
  (Hparse : ParseMediaType w (ContentType r) = inl (mediaType, params))
  (Hmulti : strings.HasPrefix mediaType "multipart/" = true) :
  (exists rest,
      calls (uploadHandler w b secret r)
      = EvVerify secret (TurnstileToken r) (RemoteAddr r) :: rest
      /\ forallb (fun e => negb (is_verify e)) rest = true)
  /\ (forall success err,
         Verify w secret (TurnstileToken r) (RemoteAddr r) = (success, err) ->
         err <> None \/ success = false ->
         response (uploadHandler w b secret r)
         = http.Error "CAPTCHA verification failed" http.StatusForbidden
         /\ calls (uploadHandler w b secret r)
            = [EvVerify secret (TurnstileToken r) (RemoteAddr r)]
         /\ backend (uploadHandler w b secret r) = b).
Proof.
  unfold uploadHandler.
  rewrite Hpost, String.eqb_refl. cbn [negb]. rewrite Hparse, Hmulti. cbn [negb].
  destruct (Verify w secret (TurnstileToken r) (RemoteAddr r)) as [success err].
  split.
  - destruct err as [e|]; [|destruct success].
    + exists []. split; reflexivity.
    + destruct (uploadLoop _ _ _) as [e s] eqn:E. cbn [calls].
      apply uploadLoop_calls in E as (new & -> & V & _). cbn [start events app].
      exists new. split; [reflexivity|exact V].
    + exists []. split; reflexivity.
  - intros success' err' [= <- <-] [Herr|Hs].
    + destruct err as [e|]; [|congruence]. repeat split; reflexivity.
    + subst success. destruct err; repeat split; reflexivity.
Qed.

Lemma captcha_verified_once_witness :
  response (uploadHandler (sample.world false sample.interrupted) sample.mock
              "secret" sample.post)
  = http.Error "CAPTCHA verification failed" 403
  /\ calls (uploadHandler (sample.world false sample.interrupted) sample.mock
              "secret" sample.post)
     = [EvVerify "secret" "token" "203.0.113.7:40000"]
  /\ backend (uploadHandler (sample.world false sample.interrupted) sample.mock
                "secret" sample.post)
     = sample.mock.
Proof.
  apply (captcha_verified_once (sample.world false sample.interrupted) sample.mock
           "secret" sample.post "multipart/form-data" [("boundary", "XYZ")]
           eq_refl eq_refl eq_refl) with (success := false) (err := None).
  - reflexivity.
  - right. reflexivity.
Defined.

(** ** C6: errors inside the loop *)

(** C6.  In the loop, with the variables after each answer written
    out: [io.EOF] from [NextPart] leaves the loop with the counters and
    the most recent error as they were; an error that denotes an
    unexpected end of data increments [failed], becomes the most recent
    error, and the loop goes on with the next answer; any other error
    becomes the most recent error, the counters stay, and the loop is
    left at once, the remaining answers unread; and a failed [SaveFile]
    increments [failed], becomes the most recent error, and the loop
    goes on.  In each case [NextPart] has been called once more and
    [saved] is as it was.  To increment is Go's [failed++] on an [int]:
    one more, as long as [failed] is below the largest [int]. *)
Theorem loop_error_handling
  {B : Type} `{store.Backend B}
  (subfolder : string) (s : Session B) (rest : list (Part + error)) :
  uploadLoop subfolder (inr io.EOF :: rest) s
  = (Broke,
     {| saved := saved s; failed := failed s; lastError := lastError s;
        storage := storage s; events := (events s ++ [EvNextPart])%list |})
  /\ (forall err,
         errors.Is err io.ErrUnexpectedEOF = true
         \/ strings.Contains (Error err) "unexpected EOF" = true ->
         uploadLoop subfolder (inr err :: rest) s
         = uploadLoop subfolder rest
             {| saved := saved s; failed := int.incr (failed s);
                lastError := Some err; storage := storage s;
                events := (events s ++ [EvNextPart])%list |})
  /\ (forall err,
         err <> io.EOF ->
         errors.Is err io.ErrUnexpectedEOF = false ->
         strings.Contains (Error err) "unexpected EOF" = false ->
         uploadLoop subfolder (inr err :: rest) s
         = (Broke,
            {| saved := saved s; failed := failed s;
               lastError := Some err; storage := storage s;
               events := (events s ++ [EvNextPart])%list |}))
  /\ (forall part b e,
         FileName part <> "" ->
         store.SaveFile (storage s)
           (filepath.Join [subfolder; sanitizeFilename (FileName part)])
           (reader part) = (b, Some e) ->
         uploadLoop subfolder (inl part :: rest) s
         = uploadLoop subfolder rest
             {| saved := saved s; failed := int.incr (failed s);
                lastError := Some e; storage := b;
                events :=
                  (events s
                     ++ [EvNextPart;
                         EvSaveFile
                           (filepath.Join
                              [subfolder; sanitizeFilename (FileName part)])
                           (reader part)])%list |})
  /\ (- 2 ^ 63 <= failed s < 2 ^ 63 - 1 -> int.incr (failed s) = failed s + 1).
Proof.
  split; [reflexivity|]. split; [|split; [|split]].
  - intros err U.
    assert (unexpectedEOF err = true) as U'.
    { unfold unexpectedEOF. destruct U as [-> | ->]; [reflexivity|apply orb_true_r]. }
    assert (error_eqb err io.EOF = false) as N.
    { destruct (error_eqb err io.EOF) eqn:E; [|reflexivity].
      apply error_eqb_EOF in E. subst err. discriminate. }
    cbn [uploadLoop]. unfold loopBody. now rewrite N, U'.
  - intros err N U1 U2.
    cbn [uploadLoop]. unfold loopBody, unexpectedEOF.
    now rewrite (error_eqb_other _ N), U1, U2.
  - intros part b e N S.
    cbn [uploadLoop]. unfold loopBody.
    apply String.eqb_neq in N. rewrite N. cbn [storage record]. rewrite S.
    unfold incr_failed, set_lastError, set_storage, record.
    cbn [saved failed lastError storage events].
    now rewrite <- app_assoc.
  - apply incr_next.
Qed.

Lemma loop_error_handling_witness :
  uploadLoop sample.subfolder [sample.truncated; inr io.EOF] (start sample.mock [])
  = (Broke,
     {| saved := 0; failed := 1;
        lastError :=
          Some (Wrap "multipart: NextPart: unexpected EOF" io.ErrUnexpectedEOF);
        storage := sample.mock; events := [EvNextPart; EvNextPart] |})
  /\ uploadLoop sample.subfolder
       [inr (New "multipart: boundary is empty"); sample.truncated]
       (start sample.mock [])
     = (Broke,
        {| saved := 0; failed := 0;
           lastError := Some (New "multipart: boundary is empty");
           storage := sample.mock; events := [EvNextPart] |})
  /\ uploadLoop sample.subfolder
       [sample.file "fail.txt" "fail content"; inr io.EOF]
       (start sample.mock [])
     = (Broke,
        {| saved := 0; failed := 1; lastError := Some io.ErrUnexpectedEOF;
           storage := sample.mock;
           events :=
             [EvNextPart;
              EvSaveFile "2025-01-02_15-04-05.678/fail.txt"
                {| contents := "fail content"; failure := None |};
              EvNextPart] |})
  /\ int.incr (failed (start sample.mock [])) = 1.
Proof.
  split; [|split; [|split]].
  - refine (eq_trans
              (proj1 (proj2
                 (loop_error_handling sample.subfolder (start sample.mock [])
                    [inr io.EOF]))
                 (Wrap "multipart: NextPart: unexpected EOF" io.ErrUnexpectedEOF)
                 (or_introl eq_refl)) _).
    reflexivity.
  - exact (proj1 (proj2 (proj2
             (loop_error_handling sample.subfolder (start sample.mock [])
                [sample.truncated])))
             (New "multipart: boundary is empty")
             ltac:(discriminate) eq_refl eq_refl).
  - refine (eq_trans
              (proj1 (proj2 (proj2 (proj2
                 (loop_error_handling sample.subfolder (start sample.mock [])
                    [inr io.EOF]))))
                 {| FileName := "fail.txt";
                    reader := {| contents := "fail content"; failure := None |} |}
                 sample.mock io.ErrUnexpectedEOF
                 ltac:(discriminate) eq_refl) _).
    reflexivity.
  - apply (proj2 (proj2 (proj2 (proj2
             (loop_error_handling sample.subfolder (start sample.mock [])
                [inr io.EOF]))))).
    cbn. lia.
Defined.

(** ** C7: no saved name leaves the storage root *)

(** C7, as the code has it.  Every name the handler passes to [SaveFile]
    is [filepath.Join(sessionIdentifier, sanitizedFilename)]; that is
    [{sessionIdentifier}/{sanitizedFilename}] whenever the sanitized
    filename is a plain name (not empty, not [.] and not [..]).  Under
    [LocalStorage] the path [filepath.Join(BasePath, name)] of every
    such name lies within [BasePath]: it is the cleaned [BasePath]
    followed by plain names only. *)
Theorem saved_names_within_root
  {FS : Type} `{store.FileSystem FS}
  (l : store.LocalStorage) (fs : FS)
  (w : World) (secret : string) (r : Request)
  (name : string) (data : Reader)
  (Hcall : In (EvSaveFile name data) (calls (uploadHandler w (l, fs) secret r))) :
  (exists filename,
      name = filepath.Join [time.Format (Now w); sanitizeFilename filename]
      /\ (plain (sanitizeFilename filename) ->
          name = time.Format (Now w) ++ "/" ++ sanitizeFilename filename))
  /\ within (store.BasePath l) (store.fullPath l name).
Proof.
  apply uploadHandler_saves in Hcall
    as (mediaType & params & part & _ & _ & _ & -> & _).
  pose proof (Format_plain (Now w)) as Hsid.
  pose proof (sanitizeFilename_no_slash (FileName part)) as Hsan.
  split.
  - exists (FileName part). split; [reflexivity|].
    intros Hp. now apply Join_session_plain.
  - unfold store.fullPath.
    rewrite (Join_session (time.Format (Now w)) (sanitizeFilename (FileName part)))
      by assumption.
    apply Join_within. now apply session_names_plain.
Qed.

Lemma saved_names_within_root_witness :
  (exists filename,
      "2025-01-02_15-04-05.678/report.pdf"
      = filepath.Join [time.Format sample.clock; sanitizeFilename filename]
      /\ (plain (sanitizeFilename filename) ->
          "2025-01-02_15-04-05.678/report.pdf"
          = time.Format sample.clock ++ "/" ++ sanitizeFilename filename))
  /\ within "./uploads"
       (store.fullPath sample.uploads "2025-01-02_15-04-05.678/report.pdf").
Proof.
  apply (saved_names_within_root sample.uploads ([] : sample.Disk)
           (sample.world true [sample.file "report.pdf" "%PDF"; inr io.EOF])
           "secret" sample.post
           "2025-01-02_15-04-05.678/report.pdf"
           {| contents := "%PDF"; failure := None |}).
  vm_compute. right. right. left. reflexivity.
Defined.

(** C7 fails as stated: for the filename [..], which the sanitizer
    leaves as it is, the name passed to [SaveFile] is [.], not
    [{sessionIdentifier}/..]: [filepath.Join] cleans the joined path. *)
Lemma dotdot_filename_joins_to_dot :
  let out := uploadHandler
               (sample.world true [sample.file ".." "x"; inr io.EOF])
               sample.mock "secret" sample.post in
  sanitizeFilename ".." = ".."
  /\ calls out
     = [EvVerify "secret" "token" "203.0.113.7:40000"; EvNextPart;
        EvSaveFile "." {| contents := "x"; failure := None |}; EvNextPart]
  /\ ~ In (EvSaveFile (sample.subfolder ++ "/" ++ sanitizeFilename "..")
             {| contents := "x"; failure := None |}) (calls out).
Proof.
  cbv zeta. split; [vm_compute; reflexivity|]. split; [vm_compute; reflexivity|].
  vm_compute. intros [E|[E|[E|[E|[]]]]]; discriminate.
Qed.

(** ** C8: one identifier for the session *)

(** C8, as the code has it.  The session identifier is the reading of
    the clock at the start of the session, formatted down to the
    millisecond (readings that agree to the millisecond give the same
    identifier).  Every [SaveFile] call of the session is made for a
    part of the body with a non-empty filename, with that part itself as
    the reader, under the name
    [filepath.Join(sessionIdentifier, sanitizedFilename)] for this one
    identifier; the name is [{sessionIdentifier}/{sanitizedFilename}]
    whenever the sanitized filename is a plain name. *)
Theorem session_saves_under_identifier
  {B : Type} `{store.Backend B}
  (w : World) (b : B) (secret : string) (r : Request)
  (name : string) (data : Reader)
  (Hcall : In (EvSaveFile name data) (calls (uploadHandler w b secret r))) :
  (exists mediaType params part,
      ParseMediaType w (ContentType r) = inl (mediaType, params)
      /\ In (inl part) (NextParts w (RequestBody r) (param params "boundary"))
      /\ FileName part <> ""
      /\ data = reader part
      /\ name = filepath.Join [time.Format (Now w); sanitizeFilename (FileName part)]
      /\ (plain (sanitizeFilename (FileName part)) ->
          name = time.Format (Now w) ++ "/" ++ sanitizeFilename (FileName part)))
  /\ (forall t', same_millisecond (Now w) t' -> time.Format t' = time.Format (Now w)).
Proof.
  split.
  - apply uploadHandler_saves in Hcall
      as (mediaType & params & part & Hp & Hin & Hn & -> & ->).
    exists mediaType, params, part. repeat split; auto.
    intros Hplain. apply Join_session_plain; [apply Format_plain|exact Hplain].
  - intros t' E. symmetry. now apply Format_millisecond.
Qed.

Lemma session_saves_under_identifier_witness :
  (exists mediaType params part,
      sample.mime "multipart/form-data; boundary=XYZ" = inl (mediaType, params)
      /\ In (inl part) [sample.file "a.txt" "A"; sample.file "b.txt" "B"; inr io.EOF]
      /\ FileName part <> ""
      /\ {| contents := "B"; failure := None |} = reader part
      /\ "2025-01-02_15-04-05.678/b.txt"
         = filepath.Join [time.Format sample.clock; sanitizeFilename (FileName part)]
      /\ (plain (sanitizeFilename (FileName part)) ->
          "2025-01-02_15-04-05.678/b.txt"
          = time.Format sample.clock ++ "/" ++ sanitizeFilename (FileName part)))
  /\ (forall t', same_millisecond sample.clock t' ->
                 time.Format t' = time.Format sample.clock).
Proof.
  apply (session_saves_under_identifier
           (sample.world true
              [sample.file "a.txt" "A"; sample.file "b.txt" "B"; inr io.EOF])
           sample.mock "secret" sample.post
           "2025-01-02_15-04-05.678/b.txt" {| contents := "B"; failure := None |}).
  vm_compute. do 4 right. left. reflexivity.
Defined.

(** C8 fails as stated: a part with the filename [..] is saved (the
    answer is 201) and the backend holds its bytes under the name [.],
    which does not have the session identifier as a prefix. *)
Lemma dotdot_file_stored_outside_session :
  let out := uploadHandler
               (sample.world true [sample.file ".." "x"; inr io.EOF])
               sample.mock "secret" sample.post in
  response out = http.Write 201 "Uploaded 1 file(s)"
  /\ files (backend out) = [(".", "x")]
  /\ strings.HasPrefix "." (time.Format sample.clock) = false
  /\ "." <> time.Format sample.clock ++ "/" ++ sanitizeFilename "..".
Proof.
  cbv zeta. repeat split; try (vm_compute; reflexivity).
  vm_compute. discriminate.
Qed.

(** ** C9: filenames made of separators *)

(** C9, as the code has it.  A filename that is not empty and consists
    of separator characters only sanitizes to the empty string, and the
    handler does not treat it as invalid: it calls [SaveFile] for the
    part under the name [filepath.Join(sessionIdentifier, "")], which
    is the session identifier itself, and counts the part as saved or
    failed by the answer of the backend. *)
Theorem separator_only_filename_is_saved
  {B : Type} `{store.Backend B}
  (t : time.Time) (s : Session B) (part : Part)
  (Hnonempty : FileName part <> "")
  (Hseparators : only_separators (FileName part) = true) :
  sanitizeFilename (FileName part) = ""
  /\ loopBody (time.Format t) s (inl part)
     = let (b, err) :=
         store.SaveFile (storage s) (time.Format t) (reader part) in
       let s' :=
         set_storage b
           (record (EvSaveFile (time.Format t) (reader part))
              (record EvNextPart s)) in
       match err with
       | Some e => (Continue, set_lastError e (incr_failed s'))
       | None => (Continue, incr_saved s')
       end.
Proof.
  pose proof (sanitizeFilename_only_separators _ Hseparators) as E.
  split; [exact E|].
  unfold loopBody. apply String.eqb_neq in Hnonempty. rewrite Hnonempty.
  rewrite E, Join_session_empty by apply Format_plain. reflexivity.
Qed.

Lemma separator_only_filename_is_saved_witness :
  sanitizeFilename "/" = ""
  /\ loopBody (time.Format sample.clock) (start sample.mock [])
       (sample.file "/" "x")
     = let (b, err) :=
         store.SaveFile (storage (start sample.mock [])) (time.Format sample.clock)
           {| contents := "x"; failure := None |} in
       let s' :=
         set_storage b
           (record (EvSaveFile (time.Format sample.clock)
                      {| contents := "x"; failure := None |})
              (record EvNextPart (start sample.mock []))) in
       match err with
       | Some e => (Continue, set_lastError e (incr_failed s'))
       | None => (Continue, incr_saved s')
       end.
Proof.
  apply (separator_only_filename_is_saved sample.clock (start sample.mock [])
           {| FileName := "/"; reader := {| contents := "x"; failure := None |} |}).
  - discriminate.
  - reflexivity.
Defined.

(** C9 fails as stated: a part with the filename [/] is not rejected.
    [SaveFile] is called with the bare session identifier as the name,
    the backend stores the bytes under it, and the answer is 201. *)
Lemma separator_filename_saved_as_session :
  let out := uploadHandler
               (sample.world true [sample.file "/" "x"; inr io.EOF])
               sample.mock "secret" sample.post in
  sanitizeFilename "/" = ""
  /\ response out = http.Write 201 "Uploaded 1 file(s)"
  /\ files (backend out) = [(sample.subfolder, "x")]
  /\ In (EvSaveFile sample.subfolder {| contents := "x"; failure := None |})
        (calls out).
Proof.
  cbv zeta. repeat split; try (vm_compute; reflexivity).
  vm_compute. right. right. left. reflexivity.
Qed.

(* ================================================================= *)
(** * Further properties *)

(** ** UTF-8: decoding what was encoded *)

Lemma length_append s t :
  String.length (s ++ t) = (String.length s + String.length t)%nat.
Proof. induction s as [|a s IH]; cbn; [reflexivity|now rewrite IH]. Qed.

Ltac settle_ifs :=
  repeat match goal with
         | |- context [Z.eqb ?a ?b] => destruct (Z.eqb_spec a b); try lia
         | |- context [Z.ltb ?a ?b] => destruct (Z.ltb_spec a b); try lia
         | |- context [Z.leb ?a ?b] => destruct (Z.leb_spec a b); try lia
         end.

Lemma size_of b :
  (0xC2 <= b < 0xE0 -> utf8.size b = 2)
  /\ (0xE0 <= b < 0xF0 -> utf8.size b = 3)
  /\ (0xF0 <= b < 0xF5 -> utf8.size b = 4).
Proof. unfold utf8.size. repeat split; intros; settle_ifs; reflexivity. Qed.

Lemma accept_of b0 b1 :
  0x80 <= b1 <= 0xBF ->
  (b0 = 0xE0 -> 0xA0 <= b1) -> (b0 = 0xED -> b1 <= 0x9F) ->
  (b0 = 0xF0 -> 0x90 <= b1) -> (b0 = 0xF4 -> b1 <= 0x8F) ->
  utf8.accept_lo b0 <= b1 <= utf8.accept_hi b0.
Proof. unfold utf8.accept_lo, utf8.accept_hi. intros. settle_ifs. Qed.

(** Decoding reads back what was encoded, whatever follows. *)
Lemma decode_encode r t :
  scalar r ->
  utf8.DecodeRuneInString (utf8.EncodeRune r ++ t)
  = (r, String.length (utf8.EncodeRune r)).
Proof.
  intros [Hr Hs].
  destruct (Z.le_gt_cases r 0x7FF) as [H2|H2];
    [|destruct (Z.le_gt_cases r 0xFFFF) as [H3|H3]].
  - rewrite enc_2 by lia. cbn [append String.length].
    unfold utf8.DecodeRuneInString. cbn [String.length].
    rewrite !byte_chr by by_divmod.
    assert (0xC2 <= 0xC0 + r / 64 <= 0xDF) as B0 by by_divmod.
    assert (0x80 <= 0x80 + r mod 64 <= 0xBF) as B1 by by_divmod.
    assert ((0xC0 + r / 64) mod 32 * 64 + (0x80 + r mod 64) mod 64 = r) as -> by by_divmod.
    generalize dependent (0xC0 + r / 64). generalize dependent (0x80 + r mod 64).
    intros b1 B1 b0 B0.
    pose proof (accept_of b0 b1) as A. rewrite (proj1 (size_of b0)) by lia.
    unfold utf8.RuneSelf.
    rewrite !Nat2Z.inj_succ. generalize (Z.of_nat (String.length t)) (Nat2Z.is_nonneg (String.length t)).
    intros n Hn. settle_ifs. reflexivity.
  - rewrite enc_3 by lia. unfold utf8.enc3. cbn [append String.length].
    unfold utf8.DecodeRuneInString. cbn [String.length].
    rewrite !byte_chr by by_divmod.
    assert (0xE0 <= 0xE0 + r / 4096 <= 0xEF) as B0 by by_divmod.
    assert (0x80 <= 0x80 + (r / 64) mod 64 <= 0xBF) as B1 by by_divmod.
    assert (0x80 <= 0x80 + r mod 64 <= 0xBF) as B2 by by_divmod.
    assert (0xE0 + r / 4096 = 0xE0 -> 0xA0 <= 0x80 + (r / 64) mod 64) as A1 by by_divmod.
    assert (0xE0 + r / 4096 = 0xED -> 0x80 + (r / 64) mod 64 <= 0x9F) as A2 by by_divmod.
    assert ((0xE0 + r / 4096) mod 16 * 4096 + (0x80 + (r / 64) mod 64) mod 64 * 64
            + (0x80 + r mod 64) mod 64 = r) as -> by by_divmod.
    generalize dependent (0xE0 + r / 4096). generalize dependent (0x80 + (r / 64) mod 64).
    generalize dependent (0x80 + r mod 64).
    intros b2 B2 b1 B1 b0 B0 A1 A2.
    pose proof (accept_of b0 b1) as A. rewrite (proj1 (proj2 (size_of b0))) by lia.
    unfold utf8.RuneSelf, utf8.locb, utf8.hicb.
    rewrite !Nat2Z.inj_succ. generalize (Z.of_nat (String.length t)) (Nat2Z.is_nonneg (String.length t)).
    intros n Hn. settle_ifs; reflexivity.
  - rewrite enc_4 by lia. cbn [append String.length].
    unfold utf8.DecodeRuneInString. cbn [String.length].
    rewrite !byte_chr by by_divmod.
    assert (0xF0 <= 0xF0 + r / 262144 <= 0xF4) as B0 by by_divmod.
    assert (0x80 <= 0x80 + (r / 4096) mod 64 <= 0xBF) as B1 by by_divmod.
    assert (0x80 <= 0x80 + (r / 64) mod 64 <= 0xBF) as B2 by by_divmod.
    assert (0x80 <= 0x80 + r mod 64 <= 0xBF) as B3 by by_divmod.
    assert (0xF0 + r / 262144 = 0xF0 -> 0x90 <= 0x80 + (r / 4096) mod 64) as A1 by by_divmod.
    assert (0xF0 + r / 262144 = 0xF4 -> 0x80 + (r / 4096) mod 64 <= 0x8F) as A2 by by_divmod.
    assert ((0xF0 + r / 262144) mod 8 * 262144 + (0x80 + (r / 4096) mod 64) mod 64 * 4096
            + (0x80 + (r / 64) mod 64) mod 64 * 64 + (0x80 + r mod 64) mod 64 = r) as -> by by_divmod.
    generalize dependent (0xF0 + r / 262144). generalize dependent (0x80 + (r / 4096) mod 64).
    generalize dependent (0x80 + (r / 64) mod 64). generalize dependent (0x80 + r mod 64).
    intros b3 B3 b2 B2 b1 B1 b0 B0 A1 A2.
    pose proof (accept_of b0 b1) as A. rewrite (proj2 (proj2 (size_of b0))) by lia.
    unfold utf8.RuneSelf, utf8.locb, utf8.hicb.
    rewrite !Nat2Z.inj_succ. generalize (Z.of_nat (String.length t)) (Nat2Z.is_nonneg (String.length t)).
    intros n Hn. settle_ifs; reflexivity.
Qed.

Lemma scalar_RuneError : scalar utf8.RuneError.
Proof. unfold scalar, utf8.RuneError. lia. Qed.

Lemma take_app s t : utf8.take (String.length s) (s ++ t) = s.
Proof. induction s as [|a s IH]; cbn; [now destruct t|now rewrite IH]. Qed.

Lemma drop_app s t : utf8.drop (String.length s) (s ++ t) = t.
Proof. induction s as [|a s IH]; cbn; [reflexivity|exact IH]. Qed.

Lemma take_length w s :
  (w <= String.length s)%nat -> String.length (utf8.take w s) = w.
Proof.
  revert s. induction w as [|w IH]; intros [|a t] Hl; cbn in *; try reflexivity.
  - exfalso. revert Hl. generalize w. intros; lia.
  - rewrite IH; [reflexivity|]. generalize dependent (String.length t). intros; lia.
Qed.

Lemma encode_nonempty r : utf8.EncodeRune r <> "".
Proof.
  unfold utf8.EncodeRune, utf8.enc3.
  repeat match goal with |- context [if ?b then _ else _] => destruct b end;
    discriminate.
Qed.

Lemma range_encode r t :
  scalar r ->
  utf8.range (utf8.EncodeRune r ++ t) = (r, utf8.EncodeRune r) :: utf8.range t.
Proof.
  intros Hr. pose proof (decode_encode r t Hr) as D.
  pose proof (encode_nonempty r) as N.
  destruct (utf8.EncodeRune r ++ t) as [|a u] eqn:E.
  - destruct (utf8.EncodeRune r); [congruence|discriminate].
  - rewrite (range_cons _ _ _ _ D), <- E. now rewrite take_app, drop_app.
Qed.

(** A sequence of two to four bytes decodes to a rune that encodes as
    itself. *)
Lemma decoded_scalar s c w :
  utf8.DecodeRuneInString s = (c, w) -> (2 <= w)%nat ->
  0x80 <= c -> utf8.EncodeRune c = utf8.take w s -> scalar c.
Proof.
  intros D Hw Hc He.
  destruct (Z.le_gt_cases c 0x10FFFF) as [H1|H1];
    [destruct (Z.lt_ge_cases c 0xD800) as [H2|H2];
     [|destruct (Z.le_gt_cases c 0xDFFF) as [H3|H3]]|];
    try (unfold scalar; lia).
  all: assert (utf8.EncodeRune c = utf8.EncodeRune utf8.RuneError) as E
      by (unfold utf8.EncodeRune, utf8.MaxRune, utf8.RuneError; settle_ifs; reflexivity).
  all: pose proof (decode_encode utf8.RuneError (utf8.drop w s) scalar_RuneError) as D';
    rewrite <- E, He, take_drop, D in D'; injection D' as -> _; apply scalar_RuneError.
Qed.

Lemma append_assoc_string (a b c : string) : (a ++ b) ++ c = a ++ (b ++ c).
Proof. induction a as [|x a IH]; cbn; [reflexivity|now rewrite IH]. Qed.

Lemma encode_length r :
  scalar r -> (2 <= String.length (utf8.EncodeRune r))%nat.
Proof.
  intros [Hr Hs].
  destruct (Z.le_gt_cases r 0x7FF) as [H2|H2];
    [|destruct (Z.le_gt_cases r 0xFFFF) as [H3|H3]].
  - rewrite enc_2 by lia. cbn. repeat constructor.
  - rewrite enc_3 by lia. cbn. repeat constructor.
  - rewrite enc_4 by lia. cbn. repeat constructor.
Qed.

(** A well-formed encoding in front of [rest] is read as one character. *)
Lemma stitch_encoded r rest :
  scalar r -> all_high (utf8.EncodeRune r) = true ->
  pieces (utf8.range (utf8.EncodeRune r ++ rest))
  = utf8.EncodeRune r ++ pieces (utf8.range rest)
  /\ utf8.ValidString (utf8.EncodeRune r ++ rest) = utf8.ValidString rest.
Proof.
  intros Sr Hh.
  assert (utf8.invalid (r, utf8.EncodeRune r) = false) as I.
  { unfold utf8.invalid. cbn [fst snd].
    pose proof (encode_length r Sr) as L.
    destruct (Nat.eqb_spec (String.length (utf8.EncodeRune r)) 1) as [L1|_];
      [|apply andb_false_r].
    exfalso. rewrite L1 in L. revert L. clear. intros L. inversion L as [|? L'].
    inversion L'. }
  unfold utf8.ValidString. rewrite !range_encode by exact Sr.
  cbn [pieces fold_right forallb]. rewrite I. split; [|reflexivity].
  unfold piece. rewrite I. cbn [snd]. now rewrite remove_separators_high.
Qed.

(** What a piece of the output looks like to the decoder. *)
Lemma piece_stitch s c w rest :
  s <> "" -> utf8.DecodeRuneInString s = (c, w) ->
  pieces (utf8.range (piece (c, utf8.take w s) ++ rest))
  = piece (c, utf8.take w s) ++ pieces (utf8.range rest)
  /\ utf8.ValidString (piece (c, utf8.take w s) ++ rest) = utf8.ValidString rest.
Proof.
  intros N D. pose proof (decode_cases s c w N D) as [a t -> Ha -> -> | a t -> Ha -> -> | Hw Hl Hc He Hh].
  - pose proof (byte_range a) as B.
    assert (utf8.invalid (utf8.byte a, String a "") = false) as I.
    { unfold utf8.invalid. cbn [fst]. destruct (Z.eqb_spec (utf8.byte a) utf8.RuneError) as [E|_];
        [unfold utf8.RuneError in E; lia|reflexivity]. }
    assert (piece (utf8.byte a, utf8.take 1 (String a t))
            = if is_separator a then "" else String a "") as ->.
    { unfold piece. cbn [utf8.take]. rewrite I. cbn. now destruct (is_separator a). }
    destruct (is_separator a) eqn:S; [split; reflexivity|].
    unfold utf8.ValidString. cbn [append]. rewrite !range_ascii by exact Ha.
    cbn [pieces fold_right forallb]. rewrite I. split; [|reflexivity].
    unfold piece. rewrite I. cbn [snd remove_separators]. now rewrite S.
  - assert (piece (utf8.RuneError, utf8.take 1 (String a t))
            = utf8.EncodeRune utf8.RuneError) as -> by reflexivity.
    apply stitch_encoded; [apply scalar_RuneError|reflexivity].
  - assert (utf8.invalid (c, utf8.take w s) = false) as I.
    { unfold utf8.invalid. cbn [snd]. rewrite take_length by exact Hl.
      destruct (Nat.eqb_spec w 1); [lia|apply andb_false_r]. }
    assert (piece (c, utf8.take w s) = utf8.EncodeRune c) as ->.
    { unfold piece. rewrite I. cbn [snd]. now rewrite remove_separators_high, He. }
    apply stitch_encoded; [eapply decoded_scalar; eauto; lia|now rewrite He].
Qed.

Lemma pieces_range_stable s :
  pieces (utf8.range (pieces (utf8.range s))) = pieces (utf8.range s)
  /\ utf8.ValidString (pieces (utf8.range s)) = true.
Proof.
  induction s as [|a t c w E D [IH1 IH2]] using range_ind; [split; reflexivity|].
  rewrite (range_cons _ _ _ _ E). cbn [pieces fold_right].
  fold (pieces (utf8.range (utf8.drop w (String a t)))).
  destruct (piece_stitch (String a t) c w (pieces (utf8.range (utf8.drop w (String a t)))))
    as [P V]; [discriminate|exact E|].
  rewrite P, V, IH1. split; [reflexivity|exact IH2].
Qed.

Lemma range_app a b :
  utf8.ValidString a = true ->
  utf8.range (a ++ b) = (utf8.range a ++ utf8.range b)%list.
Proof.
  induction a as [|x t c w E D IH] using range_ind; [reflexivity|].
  unfold utf8.ValidString. rewrite (range_cons _ _ _ _ E). cbn [forallb].
  intros [I V]%andb_prop. apply negb_true_iff in I. fold (utf8.ValidString (utf8.drop w (String x t))) in V.
  specialize (IH V). cbn [app].
  rewrite <- (take_drop w (String x t)) at 1. rewrite <- IH.
  destruct D as [a' t' Es Ha -> -> | a' t' Es Ha -> -> | Hw Hl Hc He Hh].
  - injection Es as <- <-. cbn [utf8.take utf8.drop append].
    now rewrite range_ascii.
  - exfalso. revert I. unfold utf8.invalid. cbn. discriminate.
  - rewrite append_assoc_string, <- He.
    apply range_encode. eapply decoded_scalar; eauto; lia.
Qed.

(** ** The sanitizer, further *)

Lemma remove_separators_id s : no_separator s = true -> remove_separators s = s.
Proof.
  induction s as [|a s IH]; [reflexivity|]. cbn.
  intros [Ha Hs]%andb_prop. apply negb_true_iff in Ha. now rewrite Ha, IH.
Qed.

Lemma pieces_app l1 l2 : pieces (l1 ++ l2)%list = pieces l1 ++ pieces l2.
Proof.
  induction l1 as [|cb l1 IH]; [reflexivity|].
  cbn [app pieces fold_right]. fold (pieces (l1 ++ l2)%list). fold (pieces l1).
  now rewrite IH, append_assoc_string.
Qed.

(** X1.  Sanitizing twice is sanitizing once. *)
Theorem sanitizeFilename_idempotent (s : string) :
  sanitizeFilename (sanitizeFilename s) = sanitizeFilename s.
Proof. rewrite !sanitizeFilename_pieces. apply pieces_range_stable. Qed.

(** X2.  Whatever bytes come in, what [sanitizeFilename] returns is
    valid UTF-8. *)
Theorem sanitizeFilename_output_valid (s : string) :
  utf8.ValidString (sanitizeFilename s) = true.
Proof. rewrite sanitizeFilename_pieces. apply pieces_range_stable. Qed.

(** X3.  The names [sanitizeFilename] leaves as they are are exactly the
    valid UTF-8 strings without ['/'], ['\'] and [':']. *)
Theorem sanitizeFilename_fixed_points (s : string) :
  sanitizeFilename s = s
  <-> utf8.ValidString s = true /\ no_separator s = true.
Proof.
  split.
  - intros E. split.
    + rewrite <- E, sanitizeFilename_pieces. apply pieces_range_stable.
    + rewrite <- E. apply sanitizeFilename_no_separator.
  - intros [V N]. rewrite sanitizeFilename_any, replace_invalid_valid by exact V.
    now apply remove_separators_id.
Qed.

(** X4.  After a valid UTF-8 prefix the sanitizer starts afresh: the
    result for [a ++ b] is the result for [a] followed by the result
    for [b]. *)
Theorem sanitizeFilename_app (a b : string)
  (Hvalid : utf8.ValidString a = true) :
  sanitizeFilename (a ++ b) = sanitizeFilename a ++ sanitizeFilename b.
Proof.
  rewrite !sanitizeFilename_pieces, range_app by exact Hvalid. apply pieces_app.
Qed.

Lemma sanitizeFilename_app_witness :
  sanitizeFilename ("a/b" ++ String "255" ":c")
  = sanitizeFilename "a/b" ++ sanitizeFilename (String "255" ":c").
Proof. apply (sanitizeFilename_app "a/b" (String "255" ":c")). reflexivity. Defined.

(** ** The loop, from outside *)

Section LoopTrace.

Context {B : Type} `{store.Backend B}.

Lemma loopBody_trace subfolder (s : Session B) next :
  fst (loopBody subfolder s next) = (if continues next then Continue else Break)
  /\ events (snd (loopBody subfolder s next))
     = (events s ++ iteration_calls subfolder next)%list
  /\ storage (snd (loopBody subfolder s next))
     = iteration_store subfolder (storage s) next.
Proof.
  unfold loopBody, iteration_calls, iteration_store, continues.
  destruct next as [part|err].
  - destruct (FileName part =? "")%string; [repeat split|].
    cbn [storage record].
    destruct (store.SaveFile _ _ _) as [b [e|]]; cbn;
      rewrite <- app_assoc; repeat split.
  - destruct (error_eqb err io.EOF); [repeat split|].
    destruct (unexpectedEOF err); repeat split.
Qed.

Lemma uploadLoop_trace subfolder script :
  forall s : Session B,
    events (snd (uploadLoop subfolder script s))
    = (events s ++ flat_map (iteration_calls subfolder) (consumed script))%list
    /\ storage (snd (uploadLoop subfolder script s))
       = fold_left (iteration_store subfolder) (consumed script) (storage s).
Proof.
  induction script as [|next rest IH]; intros s.
  - cbn. now rewrite app_nil_r.
  - cbn [uploadLoop consumed].
    destruct (loopBody_trace subfolder s next) as (F & E & S).
    destruct (loopBody subfolder s next) as [f s1]. cbn [fst snd] in *.
    destruct (continues next); subst f.
    + destruct (IH s1) as [IE IS]. rewrite IE, IS, E, S.
      cbn [flat_map fold_left]. now rewrite app_assoc.
    + cbn [snd flat_map fold_left]. now rewrite E, S, app_nil_r.
Qed.

Lemma uploadLoop_consumed subfolder script :
  forall s : Session B,
    uploadLoop subfolder script s = uploadLoop subfolder (consumed script) s.
Proof.
  induction script as [|next rest IH]; intros s; [reflexivity|].
  cbn [consumed]. destruct (continues next) eqn:C.
  - cbn [uploadLoop]. destruct (loopBody subfolder s next) as [[|] s1]; [apply IH|reflexivity].
  - cbn [uploadLoop].
    pose proof (loopBody_trace subfolder s next) as (F & _). rewrite C in F.
    destruct (loopBody subfolder s next) as [f s1]. cbn in F. now subst f.
Qed.

Lemma uploadLoop_returned subfolder script :
  forall (s s' : Session B) resp,
    uploadLoop subfolder script s = (Returned resp, s') ->
    resp = timeoutResponse s'.
Proof.
  induction script as [|next rest IH]; intros s s' resp E.
  - cbn in E. now injection E as <- <-.
  - cbn [uploadLoop] in E.
    destruct (loopBody subfolder s next) as [[|] s1]; [eauto|discriminate].
Qed.

(** Form fields pass through the loop and leave the counters alone. *)
Lemma uploadLoop_fields subfolder fields rest :
  forallb is_field fields = true ->
  forall s : Session B,
    uploadLoop subfolder (fields ++ rest) s
    = uploadLoop subfolder rest
        {| saved := saved s; failed := failed s; lastError := lastError s;
           storage := storage s;
           events := (events s ++ repeat EvNextPart (List.length fields))%list |}.
Proof.
  induction fields as [|next fields IH]; intros F s.
  - cbn. rewrite app_nil_r. now destruct s.
  - cbn [forallb] in F. apply andb_prop in F as [Fn Ff].
    destruct next as [part|err]; [|discriminate]. cbn in Fn.
    cbn [app uploadLoop]. unfold loopBody. rewrite Fn.
    rewrite (IH Ff). cbn [List.length repeat saved failed lastError storage events record].
    now rewrite <- app_assoc.
Qed.

End LoopTrace.

(** ** The handler, further *)

Section HandlerFacts.

Context {B : Type} `{store.Backend B}.

Lemma uploadHandler_accepted (w : World) (b : B) (secret : string) (r : Request)
  mediaType params :
  Method r = http.MethodPost ->
  ParseMediaType w (ContentType r) = inl (mediaType, params) ->
  strings.HasPrefix mediaType "multipart/" = true ->
  Verify w secret (TurnstileToken r) (RemoteAddr r) = (true, None) ->
  uploadHandler w b secret r
  = let (exit, s) :=
      uploadLoop (time.Format (Now w))
        (NextParts w (RequestBody r) (param params "boundary"))
        (start b [EvVerify secret (TurnstileToken r) (RemoteAddr r)]) in
    {| response := match exit with
                   | Returned resp => resp
                   | Broke => summary s
                   end;
       backend := storage s;
       calls := events s |}.
Proof.
  intros Hpost Hparse Hmulti Hcaptcha. unfold uploadHandler.
  rewrite Hpost, String.eqb_refl. cbn [negb]. rewrite Hparse, Hmulti. cbn [negb].
  now rewrite Hcaptcha.
Qed.

Lemma timeoutResponse_status (s : Session B) :
  In (http.StatusCode (timeoutResponse s)) [201; 206; 400; 403; 405; 408].
Proof. unfold timeoutResponse. destruct (saved s >? 0); cbn; auto 10. Qed.

Lemma summary_status (s : Session B) :
  In (http.StatusCode (summary s)) [201; 206; 400; 403; 405; 408].
Proof.
  unfold summary. destruct (saved s =? 0).
  - destruct (lastError s) as [e|]; [destruct (unexpectedEOF e)|]; cbn; auto 10.
  - destruct (failed s >? 0); cbn; auto 10.
Qed.

End HandlerFacts.

(** X5.  Whatever the request, the world and the backend, the status the
    handler answers with is one of 201, 206, 400, 403, 405 and 408. *)
Theorem uploadHandler_status
  {B : Type} `{store.Backend B}
  (w : World) (b : B) (secret : string) (r : Request) :
  In (http.StatusCode (response (uploadHandler w b secret r)))
     [201; 206; 400; 403; 405; 408].
Proof.
  unfold uploadHandler.
  destruct (negb (Method r =? http.MethodPost)%string); [cbn; auto 10|].
  destruct (ParseMediaType w (ContentType r)) as [[mediaType params]|err];
    [|cbn; auto 10].
  destruct (negb (strings.HasPrefix mediaType "multipart/")); [cbn; auto 10|].
  destruct (Verify w secret (TurnstileToken r) (RemoteAddr r)) as [success [err|]];
    [cbn; auto 10|].
  destruct success; [|cbn; auto 10].
  destruct (uploadLoop _ _ _) as [[resp|] s] eqn:E; cbn [response].
  - rewrite (uploadLoop_returned _ _ _ _ _ E). apply timeoutResponse_status.
  - apply summary_status.
Qed.

(** X6.  For an accepted request the calls of the handler are the one
    CAPTCHA call and then, for each answer of [NextPart] up to the first
    that ends the loop, the [NextPart] call followed by the [SaveFile]
    call of a part with a filename; the backend is left as these
    [SaveFile] calls, made in this order, leave it. *)
Theorem uploadHandler_trace
  {B : Type} `{store.Backend B}
  (w : World) (b : B) (secret : string) (r : Request)
  (mediaType : string) (params : list (string * string))
  (Hpost : Method r = http.MethodPost)
  (Hparse : ParseMediaType w (ContentType r) = inl (mediaType, params))
  (Hmulti : strings.HasPrefix mediaType "multipart/" = true)
  (Hcaptcha : Verify w secret (TurnstileToken r) (RemoteAddr r) = (true, None)) :
  calls (uploadHandler w b secret r)
  = EvVerify secret (TurnstileToken r) (RemoteAddr r)
      :: flat_map (iteration_calls (time.Format (Now w)))
           (consumed (NextParts w (RequestBody r) (param params "boundary")))
  /\ backend (uploadHandler w b secret r)
     = fold_left (iteration_store (time.Format (Now w)))
         (consumed (NextParts w (RequestBody r) (param params "boundary"))) b.
Proof.
  rewrite (uploadHandler_accepted w b secret r mediaType params) by assumption.
  pose proof (uploadLoop_trace (time.Format (Now w))
                (NextParts w (RequestBody r) (param params "boundary"))
                (start b [EvVerify secret (TurnstileToken r) (RemoteAddr r)])) as [E S].
  destruct (uploadLoop _ _ _) as [exit s]. cbn [calls backend snd] in *.
  now rewrite E, S.
Qed.

Lemma uploadHandler_trace_witness :
  calls (uploadHandler
           (sample.world true
              [sample.file "a.txt" "A"; sample.file "" "field"; inr io.EOF;
               sample.file "late.txt" "L"])
           sample.mock "secret" sample.post)
  = [EvVerify "secret" "token" "203.0.113.7:40000"; EvNextPart;
     EvSaveFile "2025-01-02_15-04-05.678/a.txt" {| contents := "A"; failure := None |};
     EvNextPart; EvNextPart]
  /\ backend (uploadHandler
                (sample.world true
                   [sample.file "a.txt" "A"; sample.file "" "field"; inr io.EOF;
                    sample.file "late.txt" "L"])
                sample.mock "secret" sample.post)
     = {| files := [("2025-01-02_15-04-05.678/a.txt", "A")];
          failOn := "2025-01-02_15-04-05.678/fail.txt";
          saveErr := Some io.ErrUnexpectedEOF |}.
Proof.
  exact (uploadHandler_trace
           (sample.world true
              [sample.file "a.txt" "A"; sample.file "" "field"; inr io.EOF;
               sample.file "late.txt" "L"])
           sample.mock "secret" sample.post "multipart/form-data" [("boundary", "XYZ")]
           eq_refl eq_refl eq_refl eq_refl).
Defined.

(** X7.  The handler never looks past the answer that ends the loop:
    two worlds that agree on everything but what [NextPart] would
    answer after that point give the same response, the same calls and
    the same backend. *)
Theorem uploadHandler_ignores_rest
  {B : Type} `{store.Backend B}
  (w w' : World) (b : B) (secret : string) (r : Request)
  (Hmime : ParseMediaType w = ParseMediaType w')
  (Hverify : Verify w = Verify w')
  (Hnow : Now w = Now w')
  (Hparts : forall body boundary,
      consumed (NextParts w body boundary) = consumed (NextParts w' body boundary)) :
  uploadHandler w b secret r = uploadHandler w' b secret r.
Proof.
  unfold uploadHandler. rewrite <- Hmime, <- Hverify, <- Hnow.
  destruct (negb (Method r =? http.MethodPost)%string); [reflexivity|].
  destruct (ParseMediaType w (ContentType r)) as [[mediaType params]|err];
    [|reflexivity].
  destruct (negb (strings.HasPrefix mediaType "multipart/")); [reflexivity|].
  destruct (Verify w secret (TurnstileToken r) (RemoteAddr r)) as [success [err|]];
    [reflexivity|].
  destruct success; [|reflexivity].
  rewrite (uploadLoop_consumed _ (NextParts w _ _)),
          (uploadLoop_consumed _ (NextParts w' _ _)).
  now rewrite Hparts.
Qed.

Lemma uploadHandler_ignores_rest_witness :
  uploadHandler (sample.world true [sample.file "a.txt" "A"; inr io.EOF])
    sample.mock "secret" sample.post
  = uploadHandler
      (sample.world true
         [sample.file "a.txt" "A"; inr io.EOF; sample.file "late.txt" "L"])
      sample.mock "secret" sample.post.
Proof.
  apply (uploadHandler_ignores_rest
           (sample.world true [sample.file "a.txt" "A"; inr io.EOF])
           (sample.world true
              [sample.file "a.txt" "A"; inr io.EOF; sample.file "late.txt" "L"])).
  - reflexivity.
  - reflexivity.
  - reflexivity.
  - intros body boundary. reflexivity.
Defined.

Section Counting.

Context {B : Type} `{store.Backend B}.

Lemma sessionAt_exact subfolder n :
  forall script (s s' : Session B) m,
    sessionAt subfolder n script s = Some s' ->
    0 <= saved s -> 0 <= failed s -> saved s + failed s <= m ->
    m + Z.of_nat n < 2 ^ 63 ->
    0 <= saved s' /\ 0 <= failed s'
    /\ saved s' + failed s'
       = saved s + failed s
         + count is_named (firstn n script) + count is_dropped (firstn n script).
Proof.
  induction n as [|n IH]; intros script s s' m E Hs Hf Hm Hn.
  - cbn in E. injection E as <-. unfold count. cbn. lia.
  - destruct script as [|next rest]; [discriminate|].
    cbn [sessionAt] in E.
    destruct (loopBody subfolder s next) as [f s1] eqn:Eb.
    destruct f; [|discriminate].
    apply loopBody_inv in Eb.
    set (k := (if is_named next then 1 else 0) + (if is_dropped next then 1 else 0)).
    assert (count is_named (firstn (S n) (next :: rest))
            + count is_dropped (firstn (S n) (next :: rest))
            = k + count is_named (firstn n rest) + count is_dropped (firstn n rest)) as Ek.
    { unfold count, k. cbn [firstn filter].
      destruct (is_named next), (is_dropped next); cbn [List.length]; lia. }
    assert (0 <= saved s1 /\ 0 <= failed s1
            /\ saved s1 + failed s1 = saved s + failed s + k) as (Hs1 & Hf1 & Hc1).
    { unfold k. inversion Eb; subst;
        cbn [saved failed incr_failed incr_saved set_lastError set_storage record
             is_named];
        rewrite ?incr_exact by lia.
      all: repeat match goal with
                  | Hn : ?err <> io.EOF, Hu : unexpectedEOF ?err = true |- _ =>
                    rewrite (is_dropped_true err Hn Hu); clear Hu
                  | Hn : FileName ?p = "" |- _ =>
                    rewrite (proj2 (String.eqb_eq _ _) Hn); clear Hn
                  | Hn : FileName ?p <> "" |- _ =>
                    rewrite (proj2 (String.eqb_neq _ _) Hn); clear Hn
                  end; cbn [negb is_dropped]; lia. }
    assert (0 <= k <= 1) as Hk.
    { unfold k. destruct next as [part|err]; cbn [is_named is_dropped].
      - destruct (negb (FileName part =? "")%string); lia.
      - destruct (negb (error_eqb err io.EOF) && unexpectedEOF err); lia. }
    destruct (IH rest s1 s' (m + 1) E Hs1 Hf1) as (R1 & R2 & R3); [lia|lia|].
    repeat split; lia.
Qed.

(** With a backend that refuses nothing, parts pass through the loop
    and each one with a filename is counted in [saved]. *)
Lemma uploadLoop_accepted subfolder parts rest :
  (forall (b : B) name data, snd (store.SaveFile b name data) = None) ->
  forallb is_part parts = true ->
  forall s : Session B,
    0 <= saved s ->
    saved s + Z.of_nat (List.length parts) < 2 ^ 63 ->
    exists s' : Session B,
      uploadLoop subfolder (parts ++ rest) s = uploadLoop subfolder rest s'
      /\ saved s' = saved s + count is_named parts
      /\ failed s' = failed s /\ lastError s' = lastError s.
Proof.
  intros Hok. induction parts as [|next parts IH]; intros P s Hs Hl.
  - exists s. unfold count. cbn. repeat split. lia.
  - cbn [forallb] in P. apply andb_prop in P as [Pn Pp].
    destruct next as [part|err]; [|discriminate].
    cbn [List.length] in Hl.
    cbn [app uploadLoop]. unfold loopBody.
    destruct (String.eqb_spec (FileName part) "") as [E|N].
    + destruct (IH Pp (record EvNextPart s)) as (s' & L & S1 & S2 & S3);
        [exact Hs|cbn [saved record]; lia|].
      exists s'. rewrite L. unfold count in *. cbn [filter is_named].
      rewrite E. cbn. repeat split; auto.
    + cbn [storage record].
      pose proof (Hok (storage s)
                    (filepath.Join [subfolder; sanitizeFilename (FileName part)])
                    (reader part)) as Ok.
      destruct (store.SaveFile _ _ _) as [b err]. cbn in Ok. subst err.
      match goal with |- context [uploadLoop _ _ (incr_saved ?x)] => set (s1 := incr_saved x) end.
      assert (saved s1 = saved s + 1) as S1 by (cbn; apply incr_exact; lia).
      destruct (IH Pp s1) as (s' & L & R1 & R2 & R3); [lia|lia|].
      exists s'. rewrite L. unfold count in *. cbn [filter is_named].
      apply String.eqb_neq in N. rewrite N. cbn [negb List.length].
      repeat split; auto. rewrite R1, S1. lia.
Qed.

End Counting.

(** X8.  While the counters cannot overflow, the accounting is exact: at
    the head of iteration [n], [saved + failed] is the number of parts
    with a filename plus the number of unexpected ends of data among
    the first [n] answers of [NextPart]. *)
Theorem counters_exact
  {B : Type} `{store.Backend B}
  (subfolder : string) (n : nat) (script : list (Part + error))
  (b : B) (log : list Event) (s : Session B)
  (Hreached : sessionAt subfolder n script (start b log) = Some s)
  (Hsmall : Z.of_nat n < 2 ^ 63) :
  saved s + failed s
  = count is_named (firstn n script) + count is_dropped (firstn n script).
Proof.
  destruct (sessionAt_exact subfolder n script (start b log) s 0 Hreached)
    as (_ & _ & E); cbn [start saved failed] in *; lia.
Qed.

Lemma counters_exact_witness :
  saved sample.after_interrupted + failed sample.after_interrupted
  = count is_named (firstn 2 sample.interrupted)
    + count is_dropped (firstn 2 sample.interrupted).
Proof.
  apply (counters_exact sample.subfolder 2 sample.interrupted sample.mock []
           sample.after_interrupted).
  - vm_compute. reflexivity.
  - reflexivity.
Defined.

(** X9.  A body whose parts before the end of the stream are all form
    fields (no filename) is answered 400 ["No files uploaded"]; no
    [SaveFile] call is made and the backend is left as it was. *)
Theorem fields_only_no_files
  {B : Type} `{store.Backend B}
  (w : World) (b : B) (secret : string) (r : Request)
  (mediaType : string) (params : list (string * string))
  (fields rest : list (Part + error))
  (Hpost : Method r = http.MethodPost)
  (Hparse : ParseMediaType w (ContentType r) = inl (mediaType, params))
  (Hmulti : strings.HasPrefix mediaType "multipart/" = true)
  (Hcaptcha : Verify w secret (TurnstileToken r) (RemoteAddr r) = (true, None))
  (Hscript : NextParts w (RequestBody r) (param params "boundary")
             = (fields ++ inr io.EOF :: rest)%list)
  (Hfields : forallb is_field fields = true) :
  uploadHandler w b secret r
  = {| response := http.Error "No files uploaded" http.StatusBadRequest;
       backend := b;
       calls := EvVerify secret (TurnstileToken r) (RemoteAddr r)
                  :: repeat EvNextPart (S (List.length fields)) |}.
Proof.
  rewrite (uploadHandler_accepted w b secret r mediaType params) by assumption.
  rewrite Hscript, (uploadLoop_fields _ _ _ Hfields).
  cbn [uploadLoop loopBody start saved failed lastError storage events record
       error_eqb io.EOF summary Z.eqb app].
  f_equal. f_equal.
  replace (repeat EvNextPart (List.length fields) ++ [EvNextPart])%list
    with (repeat EvNextPart (S (List.length fields))); [reflexivity|].
  clear. induction (List.length fields) as [|k IH]; [reflexivity|].
  cbn [repeat app]. now rewrite <- IH.
Qed.

Lemma fields_only_no_files_witness :
  uploadHandler
    (sample.world true
       [sample.file "" "a comment"; sample.file "" "another"; inr io.EOF])
    sample.mock "secret" sample.post
  = {| response := http.Error "No files uploaded" 400;
       backend := sample.mock;
       calls := [EvVerify "secret" "token" "203.0.113.7:40000";
                 EvNextPart; EvNextPart; EvNextPart] |}.
Proof.
  exact (fields_only_no_files
           (sample.world true
              [sample.file "" "a comment"; sample.file "" "another"; inr io.EOF])
           sample.mock "secret" sample.post "multipart/form-data" [("boundary", "XYZ")]
           [sample.file "" "a comment"; sample.file "" "another"] []
           eq_refl eq_refl eq_refl eq_refl eq_refl eq_refl).
Defined.

(** X10.  When [NextPart] fails with an error that is neither [io.EOF]
    nor an unexpected end of data before any part with a filename was
    seen, the answer is 400 ["Upload failed: "] followed by the text of
    that error, and the backend is left as it was. *)
Theorem framing_error_reported
  {B : Type} `{store.Backend B}
  (w : World) (b : B) (secret : string) (r : Request)
  (mediaType : string) (params : list (string * string))
  (fields rest : list (Part + error)) (err : error)
  (Hpost : Method r = http.MethodPost)
  (Hparse : ParseMediaType w (ContentType r) = inl (mediaType, params))
  (Hmulti : strings.HasPrefix mediaType "multipart/" = true)
  (Hcaptcha : Verify w secret (TurnstileToken r) (RemoteAddr r) = (true, None))
  (Hscript : NextParts w (RequestBody r) (param params "boundary")
             = (fields ++ inr err :: rest)%list)
  (Hfields : forallb is_field fields = true)
  (Hnoteof : err <> io.EOF)
  (Hfatal : unexpectedEOF err = false) :
  response (uploadHandler w b secret r)
  = http.Error ("Upload failed: " ++ Error err) http.StatusBadRequest
  /\ backend (uploadHandler w b secret r) = b.
Proof.
  rewrite (uploadHandler_accepted w b secret r mediaType params) by assumption.
  rewrite Hscript, (uploadLoop_fields _ _ _ Hfields).
  cbn [uploadLoop]. unfold loopBody.
  assert (error_eqb err io.EOF = false) as N.
  { destruct (error_eqb err io.EOF) eqn:E; [|reflexivity].
    now apply error_eqb_EOF in E. }
  rewrite N, Hfatal. cbn [response backend]. unfold summary.
  cbn [saved lastError set_lastError record start Z.eqb storage].
  now rewrite Hfatal.
Qed.

Lemma framing_error_reported_witness :
  response (uploadHandler
              (sample.world true
                 [sample.file "" "a comment";
                  inr (New "multipart: NextPart: bufio: buffer full")])
              sample.mock "secret" sample.post)
  = http.Error "Upload failed: multipart: NextPart: bufio: buffer full" 400
  /\ backend (uploadHandler
                (sample.world true
                   [sample.file "" "a comment";
                    inr (New "multipart: NextPart: bufio: buffer full")])
                sample.mock "secret" sample.post)
     = sample.mock.
Proof.
  apply (framing_error_reported
           (sample.world true
              [sample.file "" "a comment";
               inr (New "multipart: NextPart: bufio: buffer full")])
           sample.mock "secret" sample.post "multipart/form-data" [("boundary", "XYZ")]
           [sample.file "" "a comment"] []
           (New "multipart: NextPart: bufio: buffer full")); try reflexivity.
  discriminate.
Defined.

(** X11.  With a backend that refuses nothing, a body of parts that is
    ended by [io.EOF], or cut short by an error that is not an
    unexpected end of data, is answered 201 ["Uploaded N file(s)"], [N]
    the number of parts with a filename, provided there is one: the
    error that cut the body short is not reported. *)
Theorem all_saved_created
  {B : Type} `{store.Backend B}
  (w : World) (b : B) (secret : string) (r : Request)
  (mediaType : string) (params : list (string * string))
  (parts rest : list (Part + error)) (last : error)
  (Hpost : Method r = http.MethodPost)
  (Hparse : ParseMediaType w (ContentType r) = inl (mediaType, params))
  (Hmulti : strings.HasPrefix mediaType "multipart/" = true)
  (Hcaptcha : Verify w secret (TurnstileToken r) (RemoteAddr r) = (true, None))
  (Hscript : NextParts w (RequestBody r) (param params "boundary")
             = (parts ++ inr last :: rest)%list)
  (Hparts : forallb is_part parts = true)
  (Hlast : continues (inr last) = false)
  (Haccepts : forall (b' : B) name data, snd (store.SaveFile b' name data) = None)
  (Hsome : 0 < count is_named parts)
  (Hsmall : Z.of_nat (List.length parts) < 2 ^ 63) :
  response (uploadHandler w b secret r)
  = http.Write http.StatusCreated
      ("Uploaded " ++ fmt.d (count is_named parts) ++ " file(s)").
Proof.
  rewrite (uploadHandler_accepted w b secret r mediaType params) by assumption.
  rewrite Hscript.
  destruct (uploadLoop_accepted (time.Format (Now w)) parts (inr last :: rest)
              Haccepts Hparts
              (start b [EvVerify secret (TurnstileToken r) (RemoteAddr r)]))
    as (s' & L & S1 & S2 & S3); [cbn; lia|cbn [start saved]; lia|].
  rewrite L. cbn [start saved failed lastError] in S1, S2, S3.
  cbn [uploadLoop]. unfold loopBody. cbn [continues] in Hlast.
  destruct (error_eqb last io.EOF); cbn [negb andb] in Hlast.
  - cbn [response]. unfold summary. cbn [saved failed record].
    rewrite S1, S2. destruct (Z.eqb_spec (0 + count is_named parts) 0); [lia|].
    reflexivity.
  - rewrite Hlast. cbn [response]. unfold summary.
    cbn [saved failed record set_lastError].
    rewrite S1, S2. destruct (Z.eqb_spec (0 + count is_named parts) 0); [lia|].
    reflexivity.
Qed.

Lemma all_saved_created_witness :
  response (uploadHandler
              (sample.world true
                 [sample.file "a.txt" "A"; sample.file "" "note";
                  sample.file "b.txt" "B";
                  inr (New "multipart: NextPart: bufio: buffer full")])
              ([] : Vault) "secret" sample.post)
  = http.Write 201 "Uploaded 2 file(s)".
Proof.
  apply (all_saved_created
           (sample.world true
              [sample.file "a.txt" "A"; sample.file "" "note";
               sample.file "b.txt" "B";
               inr (New "multipart: NextPart: bufio: buffer full")])
           ([] : Vault) "secret" sample.post "multipart/form-data" [("boundary", "XYZ")]
           [sample.file "a.txt" "A"; sample.file "" "note"; sample.file "b.txt" "B"]
           [] (New "multipart: NextPart: bufio: buffer full")); try reflexivity.
Defined.

(** ** The mock backend of the tests *)

Lemma map_get_set_same m k v : map_get (map_set m k v) k = Some v.
Proof. unfold map_get, map_set. cbn. now rewrite String.eqb_refl. Qed.

Lemma map_get_set_other m k v k' :
  k' <> k -> map_get (map_set m k v) k' = map_get m k'.
Proof.
  intros N. unfold map_get, map_set. cbn [find fst].
  destruct (String.eqb_spec k k') as [E|_]; [congruence|].
  f_equal. induction m as [|[k0 v0] m IH]; [reflexivity|].
  cbn [filter find fst].
  destruct (String.eqb_spec k0 k) as [->|N0]; cbn [negb].
  - destruct (String.eqb_spec k k'); [congruence|exact IH].
  - cbn [find fst]. destruct (k0 =? k')%string; [reflexivity|exact IH].
Qed.

(** X12.  A save the mock accepts can be read back: when the name is
    not the one the mock is told to fail on and the reader ends
    cleanly, [SaveFile] returns no error, [files[name]] is what the
    reader delivered, and every other entry is as before. *)
Theorem MockStorage_save_then_lookup
  (m : MockStorage) (name : string) (data : Reader)
  (Hname : name <> failOn m)
  (Hclean : failure data = None) :
  snd (MockStorage_SaveFile m name data) = None
  /\ map_get (files (fst (MockStorage_SaveFile m name data))) name
     = Some (contents data)
  /\ (forall k, k <> name ->
        map_get (files (fst (MockStorage_SaveFile m name data))) k
        = map_get (files m) k)
  /\ failOn (fst (MockStorage_SaveFile m name data)) = failOn m
  /\ saveErr (fst (MockStorage_SaveFile m name data)) = saveErr m.
Proof.
  unfold MockStorage_SaveFile, ReadAll.
  apply String.eqb_neq in Hname. rewrite Hname, Hclean. cbn [fst snd files failOn saveErr].
  repeat split.
  - apply map_get_set_same.
  - intros k N. now apply map_get_set_other.
Qed.

Lemma MockStorage_save_then_lookup_witness :
  snd (MockStorage_SaveFile sample.mock "a.txt" {| contents := "A"; failure := None |})
  = None
  /\ map_get (files (fst (MockStorage_SaveFile sample.mock "a.txt"
                            {| contents := "A"; failure := None |}))) "a.txt"
     = Some "A"
  /\ (forall k, k <> "a.txt" ->
        map_get (files (fst (MockStorage_SaveFile sample.mock "a.txt"
                               {| contents := "A"; failure := None |}))) k
        = map_get (files sample.mock) k)
  /\ failOn (fst (MockStorage_SaveFile sample.mock "a.txt"
                    {| contents := "A"; failure := None |}))
     = failOn sample.mock
  /\ saveErr (fst (MockStorage_SaveFile sample.mock "a.txt"
                     {| contents := "A"; failure := None |}))
     = saveErr sample.mock.
Proof.
  apply (MockStorage_save_then_lookup sample.mock "a.txt"
           {| contents := "A"; failure := None |}).
  - discriminate.
  - reflexivity.
Defined.

(** X13.  The mock stores nothing it reports an error for, and nothing
    under the name it is told to fail on, even when the error it is
    told to return is [nil]. *)
Theorem MockStorage_error_stores_nothing
  (m : MockStorage) (name : string) (data : Reader) :
  (snd (MockStorage_SaveFile m name data) <> None ->
   fst (MockStorage_SaveFile m name data) = m)
  /\ (name = failOn m ->
      MockStorage_SaveFile m name data = (m, saveErr m)).
Proof.
  unfold MockStorage_SaveFile, ReadAll. split.
  - destruct (name =? failOn m)%string; [reflexivity|].
    destruct (failure data); [reflexivity|]. cbn. congruence.
  - intros ->. now rewrite String.eqb_refl.
Qed.

Lemma MockStorage_error_stores_nothing_witness :
  fst (MockStorage_SaveFile sample.mock "2025-01-02_15-04-05.678/fail.txt"
         {| contents := "A"; failure := None |})
  = sample.mock
  /\ MockStorage_SaveFile {| files := []; failOn := "fail.txt"; saveErr := None |}
       "fail.txt" {| contents := "A"; failure := None |}
     = ({| files := []; failOn := "fail.txt"; saveErr := None |}, None).
Proof.
  split.
  - apply (proj1 (MockStorage_error_stores_nothing sample.mock
                    "2025-01-02_15-04-05.678/fail.txt"
                    {| contents := "A"; failure := None |})).
    vm_compute. discriminate.
  - apply (proj2 (MockStorage_error_stores_nothing
                    {| files := []; failOn := "fail.txt"; saveErr := None |}
                    "fail.txt" {| contents := "A"; failure := None |})).
    reflexivity.
Defined.

(** ** The S3 backend *)

Lemma HasPrefix_nil s : strings.HasPrefix s "" = true.
Proof. now destruct s. Qed.

Lemma HasPrefix_cons b t a p :
  strings.HasPrefix (String b t) (String a p) = (a =? b)%char && strings.HasPrefix t p.
Proof. reflexivity. Qed.

Lemma HasPrefix_slash s : strings.HasPrefix s "/" = filepath.rooted s.
Proof.
  destruct s as [|a s]; [reflexivity|].
  rewrite HasPrefix_cons, HasPrefix_nil, andb_true_r. apply Ascii.eqb_sym.
Qed.

(** X14.  The object key of [S3Storage.SaveFile] is the prefix, a
    slash and the name; one leading slash of the prefix is dropped, and
    with an empty prefix the key is the name itself. *)
Theorem S3Storage_object_key
  {Remote Client : Type} `{Uploader Remote Client}
  (s : S3Storage Client) (remote : Remote) (name : string) (data : Reader) :
  S3Storage_SaveFile s remote name data
  = Upload remote (S3Client s) (BucketName s)
      (if (Prefix s =? "")%string then name
       else if filepath.rooted (Prefix s)
            then utf8.drop 1 (Prefix s) ++ "/" ++ name
            else Prefix s ++ "/" ++ name)
      data.
Proof.
  unfold S3Storage_SaveFile, S3Storage_key, TrimPrefix. f_equal.
  rewrite HasPrefix_slash.
  destruct (Prefix s) as [|a p]; [reflexivity|].
  cbn [String.eqb append filepath.rooted String.length utf8.drop].
  now destruct (a =? "/")%char.
Qed.

(** ** [setupStorage] *)

(** X15.  A [BACKEND] that is neither empty, [local] nor [s3] is not
    reported: [setupStorage] returns no error, touches nothing and
    leaves [storage] as it was. *)
Theorem setupStorage_unknown_backend
  {FS Client : Type} `{store.FileSystem FS}
  (host : Host Client) (fs : FS) (storage0 : Storage Client)
  (Hset : Getenv host "BACKEND" <> "")
  (Hlocal : Getenv host "BACKEND" <> "local")
  (Hs3 : Getenv host "BACKEND" <> "s3") :
  setupStorage host fs storage0 = (storage0, fs, None).
Proof.
  unfold setupStorage.
  apply String.eqb_neq in Hset, Hlocal, Hs3. now rewrite Hset, Hlocal, Hs3.
Qed.

(** ** [path/filepath]: cleaned paths stay as they are *)

Lemma elements_all_no_slash p : Forall (fun e => no_slash e = true) (filepath.elements p).
Proof.
  induction p as [|a p IH]; [repeat constructor|].
  cbn. destruct (Ascii.eqb_spec a "/") as [->|N].
  - constructor; [reflexivity|exact IH].
  - destruct (filepath.elements p) as [|e es]; [repeat constructor|].
    + cbn. apply Ascii.eqb_neq in N. now rewrite N.
    + inversion IH as [|? ? He Hes]; subst. constructor; [|exact Hes].
      cbn. apply Ascii.eqb_neq in N. now rewrite N, He.
Qed.

Lemma dotdot_not_plain : ~ plain "..".
Proof. intros (_ & _ & N & _). congruence. Qed.

(** The stack of [Clean], read from the bottom, is canonical at every
    step. *)
Lemma clean_step_canonical r out e :
  no_slash e = true -> canonical r (rev out) ->
  canonical r (rev (filepath.clean_step r out e)).
Proof.
  intros He (dots & names & E & Hd & Hn & Hr). unfold filepath.clean_step.
  destruct (String.eqb_spec e "") as [|N0]; [now exists dots, names|].
  destruct (String.eqb_spec e ".") as [|N1]; [now exists dots, names|].
  cbn [orb].
  destruct (String.eqb_spec e "..") as [->|N2].
  - destruct out as [|top below].
    + destruct r.
      * exists [], []. repeat split; auto.
      * exists [".."], []. repeat split; auto. discriminate.
    + cbn [rev] in E.
      destruct (String.eqb_spec top "..") as [->|Nt].
      * (* the top is [..]: everything below is dots too *)
        destruct names as [|x names' _] using rev_ind.
        -- rewrite app_nil_r in E. exists (dots ++ [".."])%list, [].
           cbn [rev]. rewrite E, app_nil_r. repeat split; auto.
           ++ apply Forall_app. split; [exact Hd|repeat constructor].
           ++ intros R. specialize (Hr R). subst dots.
              destruct (rev below); discriminate.
        -- exfalso. rewrite app_assoc in E. apply app_inj_tail in E as [_ <-].
           apply Forall_app in Hn as [_ Hn]. inversion Hn as [|? ? P _]; subst.
           now apply dotdot_not_plain.
      * (* the top is a name: it goes *)
        destruct names as [|x names' _] using rev_ind.
        -- exfalso. rewrite app_nil_r in E. subst dots.
           apply Forall_app in Hd as [_ Hd]. inversion Hd; subst. congruence.
        -- rewrite app_assoc in E. apply app_inj_tail in E as [E _].
           exists dots, names'. repeat split; auto.
           now apply Forall_app in Hn as [Hn _].
  - exists dots, (names ++ [e])%list. cbn [rev]. rewrite E, app_assoc.
    repeat split; auto. apply Forall_app. split; [exact Hn|].
    repeat constructor; auto.
Qed.

Lemma fold_clean_canonical r elems out :
  Forall (fun e => no_slash e = true) elems -> canonical r (rev out) ->
  canonical r (rev (fold_left (filepath.clean_step r) elems out)).
Proof.
  intros F. revert out. induction F as [|e elems He F IH]; intros out C; [exact C|].
  cbn [fold_left]. apply IH. now apply clean_step_canonical.
Qed.

Lemma cleaned_canonical p : canonical (filepath.rooted p) (filepath.cleaned p).
Proof.
  unfold filepath.cleaned. apply fold_clean_canonical.
  - apply elements_all_no_slash.
  - exists [], []. repeat split; auto.
Qed.

Lemma fold_clean_dots dots out :
  Forall (fun e => e = "..") dots -> Forall (fun e => e = "..") out ->
  fold_left (filepath.clean_step false) dots out = (rev dots ++ out)%list.
Proof.
  intros F. revert out. induction F as [|d dots -> F IH]; intros out O; [reflexivity|].
  cbn [fold_left rev].
  assert (filepath.clean_step false out ".." = ".." :: out) as ->.
  { unfold filepath.clean_step. cbn. destruct out as [|top below]; [reflexivity|].
    inversion O; subst. reflexivity. }
  rewrite IH by (constructor; auto). now rewrite <- app_assoc.
Qed.

Lemma fold_clean_fixed r elems :
  canonical r elems ->
  fold_left (filepath.clean_step r) elems [] = rev elems.
Proof.
  intros (dots & names & -> & Hd & Hn & Hr).
  rewrite fold_left_app, rev_app_distr.
  destruct r.
  - rewrite (Hr eq_refl). cbn [fold_left rev]. rewrite app_nil_r.
    rewrite fold_clean_plain by exact Hn. apply app_nil_r.
  - rewrite (fold_clean_dots dots []) by first [assumption|constructor].
    rewrite app_nil_r.
    now apply fold_clean_plain.
Qed.

Lemma canonical_no_slash r elems :
  canonical r elems -> Forall (fun e => no_slash e = true /\ e <> "") elems.
Proof.
  intros (dots & names & -> & Hd & Hn & _). apply Forall_app. split.
  - eapply Forall_impl; [|exact Hd]. intros e ->. split; [reflexivity|discriminate].
  - eapply Forall_impl; [|exact Hn]. intros e (N & _ & _ & S). now split.
Qed.

Lemma elements_concat_gen elems :
  elems <> [] -> Forall (fun e => no_slash e = true /\ e <> "") elems ->
  filepath.elements (String.concat "/" elems) = elems.
Proof.
  induction elems as [|x [|y l] IH]; intros N F; [congruence| |].
  - cbn. apply elements_no_slash. now inversion F as [|? ? [? ?]].
  - rewrite concat_cons2, elements_app. inversion F as [|? ? [Hx _] F']; subst.
    rewrite IH by (congruence || assumption).
    now rewrite elements_no_slash by exact Hx.
Qed.

Lemma concat_head_nonempty x l :
  x <> "" -> no_slash x = true ->
  String.concat "/" (x :: l) <> ""
  /\ filepath.rooted (String.concat "/" (x :: l)) = false.
Proof.
  intros N S. destruct x as [|c x]; [congruence|].
  cbn in S. apply andb_prop in S as [S _]. apply negb_true_iff in S.
  destruct l; cbn; (split; [discriminate|exact S]).
Qed.

(** The elements and the rootedness of a rendered canonical path. *)
Lemma render_canonical r elems :
  canonical r elems ->
  filepath.rooted (filepath.render r elems) = r
  /\ fold_left (filepath.clean_step r)
       (filepath.elements (filepath.render r elems)) []
     = rev elems.
Proof.
  intros C. pose proof (canonical_no_slash r elems C) as F.
  pose proof (fold_clean_fixed r elems C) as X.
  unfold filepath.render. destruct r.
  - split; [reflexivity|].
    change (filepath.elements ("/" ++ String.concat "/" elems))
      with ("" :: filepath.elements (String.concat "/" elems)).
    cbn [fold_left].
    change (filepath.clean_step true [] "") with (@nil string).
    destruct elems as [|x l]; [reflexivity|].
    now rewrite elements_concat_gen by (congruence || assumption).
  - destruct elems as [|x l]; [split; reflexivity|].
    inversion F as [|? ? [Sx Nx] _]; subst.
    destruct (concat_head_nonempty x l Nx Sx) as [NE R].
    destruct (String.eqb_spec (String.concat "/" (x :: l)) ""); [congruence|].
    split; [exact R|].
    now rewrite elements_concat_gen by (congruence || assumption).
Qed.

Lemma Clean_render r elems :
  canonical r elems -> filepath.Clean (filepath.render r elems) = filepath.render r elems.
Proof.
  intros C. destruct (render_canonical r elems C) as [R E].
  unfold filepath.Clean, filepath.cleaned. now rewrite R, E, rev_involutive.
Qed.

Lemma Clean_idempotent p : filepath.Clean (filepath.Clean p) = filepath.Clean p.
Proof. unfold filepath.Clean at 2 3. apply Clean_render, cleaned_canonical. Qed.

Lemma Join_base_names base names :
  Forall plain names ->
  filepath.Join [base; filepath.render false names]
  = filepath.render (filepath.rooted base) (filepath.cleaned base ++ names).
Proof.
  intros F. destruct (render_unrooted names F) as (NE & R & E).
  cbn [filepath.Join].
  destruct (String.eqb_spec (filepath.render false names) ""); [congruence|].
  destruct (String.eqb_spec base "") as [->|NB].
  - cbn [String.concat]. unfold filepath.Clean, filepath.cleaned.
    rewrite R, E, rev_involutive. reflexivity.
  - rewrite concat_cons2. cbn [String.concat].
    unfold filepath.Clean, filepath.cleaned.
    rewrite rooted_app by exact NB.
    rewrite elements_app, fold_left_app. f_equal.
    assert (forall r out,
               fold_left (filepath.clean_step r)
                 (filepath.elements (filepath.render false names)) out
               = (rev names ++ out)%list) as G.
    { intros r out. unfold filepath.render.
      destruct names as [|x l]; [reflexivity|].
      destruct (String.eqb_spec (String.concat "/" (x :: l)) "") as [E0|_].
      - exfalso. revert E0. apply concat_plain_nonempty. now inversion F.
      - rewrite elements_concat by (congruence || assumption).
        now apply fold_clean_plain. }
    rewrite G, rev_app_distr, rev_involutive. reflexivity.
Qed.

Lemma plain_one a : plain a -> Forall plain [a].
Proof. intros P. constructor; [exact P|constructor]. Qed.

Lemma plain_two a b : plain a -> plain b -> Forall plain [a; b].
Proof. intros P Q. constructor; [exact P|now apply plain_one]. Qed.

Lemma render_single n : plain n -> filepath.render false [n] = n.
Proof.
  intros (N & _). unfold filepath.render. cbn [String.concat].
  now destruct (String.eqb_spec n "").
Qed.

Lemma render_pair sid san :
  plain sid -> filepath.render false [sid; san] = sid ++ "/" ++ san.
Proof.
  intros (N & _). unfold filepath.render. cbn [String.concat].
  destruct (String.eqb_spec (sid ++ "/" ++ san) "") as [E|_]; [|reflexivity].
  destruct sid; [congruence|discriminate].
Qed.

Lemma canonical_snoc r elems n :
  canonical r elems -> plain n -> canonical r (elems ++ [n]).
Proof.
  intros (dots & names & -> & Hd & Hn & Hr) P.
  exists dots, (names ++ [n])%list. rewrite app_assoc. repeat split; auto.
  apply Forall_app. split; [exact Hn|now constructor].
Qed.

Lemma through_last_no_slash n :
  no_slash n = true -> filepath.through_last_separator n = "".
Proof.
  induction n as [|c n IH]; [reflexivity|]. cbn.
  intros [Hc Hn]%andb_prop. rewrite IH by exact Hn. cbn.
  apply negb_true_iff in Hc. now rewrite Hc.
Qed.

Lemma through_last_app p n :
  no_slash n = true ->
  filepath.through_last_separator (p ++ String "/" n) = p ++ "/".
Proof.
  intros Hn. induction p as [|c p IH].
  - cbn. now rewrite through_last_no_slash by exact Hn.
  - cbn [append filepath.through_last_separator]. rewrite IH.
    destruct (String.eqb_spec (p ++ "/") "") as [E|_]; [|reflexivity].
    destruct p; discriminate.
Qed.

Lemma Clean_trailing_separator p :
  p <> "" -> filepath.Clean (p ++ "/") = filepath.Clean p.
Proof.
  intros N. unfold filepath.Clean, filepath.cleaned.
  rewrite rooted_app by exact N.
  rewrite elements_app, fold_left_app. reflexivity.
Qed.

Lemma concat_snoc l n :
  l <> [] -> String.concat "/" (l ++ [n]) = String.concat "/" l ++ String "/" n.
Proof.
  induction l as [|x [|y l] IH]; intros N; [congruence|reflexivity|].
  cbn [app]. rewrite (concat_cons2 x y (l ++ [n])), (concat_cons2 x y l).
  change (y :: (l ++ [n])%list) with ((y :: l) ++ [n])%list.
  rewrite IH by congruence. now rewrite append_assoc_string.
Qed.

(** The directory of a canonical path is the path without its last
    name. *)
Lemma Dir_render r elems n :
  canonical r elems -> plain n ->
  filepath.Dir (filepath.render r (elems ++ [n])) = filepath.render r elems.
Proof.
  intros C P. pose proof P as (N0 & _ & _ & S). unfold filepath.Dir.
  pose proof (canonical_no_slash r elems C) as F.
  destruct elems as [|x l].
  - cbn [app]. destruct r.
    + unfold filepath.render. cbn [String.concat append].
      pose proof (through_last_app "" n S) as T. cbn [append] in T.
      rewrite T. reflexivity.
    + rewrite render_single by exact P.
      now rewrite through_last_no_slash by exact S.
  - inversion F as [|? ? [Sx Nx] _]; subst.
    destruct (concat_head_nonempty x l Nx Sx) as [NE R].
    assert (filepath.render r ((x :: l) ++ [n])
            = filepath.render r (x :: l) ++ String "/" n) as ->.
    { unfold filepath.render. rewrite concat_snoc by discriminate.
      destruct r; [now rewrite append_assoc_string|].
      destruct (String.eqb_spec (String.concat "/" (x :: l)) ""); [congruence|].
      destruct (String.eqb_spec (String.concat "/" (x :: l) ++ String "/" n) "")
        as [E|_]; [|reflexivity].
      destruct (String.concat "/" (x :: l)); discriminate. }
    rewrite through_last_app by exact S.
    rewrite Clean_trailing_separator.
    + now apply Clean_render.
    + unfold filepath.render. destruct r; [discriminate|].
      now destruct (String.eqb_spec (String.concat "/" (x :: l)) "").
Qed.

(** ** [LocalStorage]: where a session's files go *)

(** X16.  For a file of a session whose sanitized name is a plain
    name, the directory [LocalStorage.SaveFile] has [os.MkdirAll] make
    is the session's directory, [filepath.Join(BasePath, session)],
    which lies within [BasePath]; the file is created in it. *)
Theorem LocalStorage_session_directory
  (l : store.LocalStorage) (t : time.Time) (filename : string)
  (Hplain : plain (sanitizeFilename filename)) :
  let name := filepath.Join [time.Format t; sanitizeFilename filename] in
  filepath.Dir (filepath.Join [store.BasePath l; name])
  = filepath.Join [store.BasePath l; time.Format t]
  /\ within (store.BasePath l) (filepath.Join [store.BasePath l; time.Format t])
  /\ store.fullPath l name
     = filepath.render (filepath.rooted (store.BasePath l))
         (filepath.cleaned (store.BasePath l)
            ++ [time.Format t; sanitizeFilename filename]).
Proof.
  intros name. pose proof (Format_plain t) as Hsid.
  assert (name = filepath.render false [time.Format t; sanitizeFilename filename]) as En.
  { unfold name. rewrite Join_session_plain by assumption.
    now rewrite render_pair. }
  assert (filepath.Join [store.BasePath l; time.Format t]
          = filepath.render (filepath.rooted (store.BasePath l))
              (filepath.cleaned (store.BasePath l) ++ [time.Format t])) as Ed.
  { rewrite <- (render_single (time.Format t)) at 1 by exact Hsid.
    apply Join_base_names. now apply plain_one. }
  split; [|split].
  - rewrite Ed, En, Join_base_names by now apply plain_two.
    change [time.Format t; sanitizeFilename filename]
      with ([time.Format t] ++ [sanitizeFilename filename])%list.
    rewrite app_assoc. apply Dir_render; [|exact Hplain].
    apply canonical_snoc; [apply cleaned_canonical|exact Hsid].
  - rewrite <- (render_single (time.Format t)) at 1 by exact Hsid.
    apply Join_within. now apply plain_one.
  - unfold store.fullPath. rewrite En. apply Join_base_names.
    now apply plain_two.
Qed.

Lemma LocalStorage_session_directory_witness :
  filepath.Dir
    (filepath.Join ["./uploads";
                    filepath.Join [time.Format sample.clock;
                                   sanitizeFilename "report.pdf"]])
  = filepath.Join ["./uploads"; time.Format sample.clock]
  /\ within "./uploads" (filepath.Join ["./uploads"; time.Format sample.clock])
  /\ store.fullPath sample.uploads
       (filepath.Join [time.Format sample.clock; sanitizeFilename "report.pdf"])
     = filepath.render (filepath.rooted "./uploads")
         (filepath.cleaned "./uploads"
            ++ [time.Format sample.clock; sanitizeFilename "report.pdf"]).
Proof.
  apply (LocalStorage_session_directory sample.uploads sample.clock "report.pdf").
  vm_compute. repeat split; discriminate.
Defined.

(** ** [setupStorage] and the handler together *)

(** X17.  With neither [BACKEND] nor [LOCAL_PATH] set, [setupStorage]
    makes the directory [./uploads] and selects local storage rooted
    there.  Every [SaveFile] call of a later session is then for a part
    of the request that has a filename, under the name joined from the
    session identifier and the sanitized filename, and [LocalStorage]
    creates the file at the path joined from [./uploads] and that name;
    when the sanitized filename is a plain name this path is
    [uploads/{sessionIdentifier}/{sanitizedFilename}]. *)
Theorem default_storage_layout
  {FS Client : Type} `{store.FileSystem FS}
  (host : Host Client) (fs fs' fs1 : FS) (storage0 : Storage Client)
  (w : World) (secret : string) (r : Request) (name : string) (data : Reader)
  (Hbackend : Getenv host "BACKEND" = "")
  (Hpath : Getenv host "LOCAL_PATH" = "")
  (Hmkdir : store.MkdirAll fs "./uploads" = (fs', None))
  (Hcall : In (EvSaveFile name data)
             (calls (uploadHandler w ({| store.BasePath := "./uploads" |}, fs1)
                       secret r))) :
  setupStorage host fs storage0
  = (Local (Some {| store.BasePath := "./uploads" |}), fs', None)
  /\ exists mediaType params part,
      ParseMediaType w (ContentType r) = inl (mediaType, params)
      /\ In (inl part) (NextParts w (RequestBody r) (param params "boundary"))
      /\ FileName part <> ""
      /\ data = reader part
      /\ name = filepath.Join [time.Format (Now w); sanitizeFilename (FileName part)]
      /\ store.fullPath {| store.BasePath := "./uploads" |} name
         = filepath.Join
             ["./uploads";
              filepath.Join [time.Format (Now w); sanitizeFilename (FileName part)]]
      /\ (plain (sanitizeFilename (FileName part)) ->
          store.fullPath {| store.BasePath := "./uploads" |} name
          = "uploads/" ++ time.Format (Now w) ++ "/"
              ++ sanitizeFilename (FileName part)).
Proof.
  split.
  - unfold setupStorage, NewLocalStorage. rewrite Hbackend, Hpath. cbn [String.eqb].
    change (("local" =? "local")%string) with true. cbv iota. now rewrite Hmkdir.
  - apply uploadHandler_saves in Hcall
      as (mediaType & params & part & Hp & Hin & Hn & -> & ->).
    exists mediaType, params, part. repeat split; auto. intros P.
    pose proof (Format_plain (Now w)) as Hsid.
    unfold store.fullPath. cbn [store.BasePath].
    assert (filepath.Join [time.Format (Now w); sanitizeFilename (FileName part)]
            = filepath.render false
                [time.Format (Now w); sanitizeFilename (FileName part)]) as ->
        by now rewrite Join_session_plain, render_pair.
    rewrite Join_base_names by now apply plain_two.
    change (filepath.cleaned "./uploads") with ["uploads"].
    change (filepath.rooted "./uploads") with false.
    unfold filepath.render. cbn [app String.concat append String.eqb]. reflexivity.
Qed.

Lemma default_storage_layout_witness :
  setupStorage (host_with "" "") ([] : sample.Disk) Unset
  = (Local (Some {| store.BasePath := "./uploads" |}), ([] : sample.Disk), None)
  /\ exists mediaType params part,
      ParseMediaType
        (sample.world true [sample.file "report.pdf" "%PDF"; inr io.EOF])
        (ContentType sample.post) = inl (mediaType, params)
      /\ In (inl part) [sample.file "report.pdf" "%PDF"; inr io.EOF]
      /\ FileName part <> ""
      /\ {| contents := "%PDF"; failure := None |} = reader part
      /\ "2025-01-02_15-04-05.678/report.pdf"
         = filepath.Join [time.Format sample.clock; sanitizeFilename (FileName part)]
      /\ store.fullPath {| store.BasePath := "./uploads" |}
           "2025-01-02_15-04-05.678/report.pdf"
         = filepath.Join
             ["./uploads";
              filepath.Join [time.Format sample.clock; sanitizeFilename (FileName part)]]
      /\ (plain (sanitizeFilename (FileName part)) ->
          store.fullPath {| store.BasePath := "./uploads" |}
            "2025-01-02_15-04-05.678/report.pdf"
          = "uploads/" ++ time.Format sample.clock ++ "/"
              ++ sanitizeFilename (FileName part)).
Proof.
  apply (default_storage_layout (host_with "" "") ([] : sample.Disk) [] []
           Unset
           (sample.world true [sample.file "report.pdf" "%PDF"; inr io.EOF])
           "secret" sample.post
           "2025-01-02_15-04-05.678/report.pdf"
           {| contents := "%PDF"; failure := None |}).
  - reflexivity.
  - reflexivity.
  - reflexivity.
  - vm_compute. right. right. left. reflexivity.
Defined.

Lemma setupStorage_unknown_backend_witness :
  setupStorage (host_with "S3" "") ([] : sample.Disk) Unset
  = (Unset, ([] : sample.Disk), None).
Proof.
  apply (setupStorage_unknown_backend (host_with "S3" "") ([] : sample.Disk) Unset);
    discriminate.
Defined.

(** ** The earlier revision *)

Lemma no_slash_int x : no_slash (fmt.d x) = true.
Proof.
  unfold fmt.d, NilZero.string_of_int.
  assert (forall d, no_slash (NilZero.string_of_uint d) = true) as U.
  { intros d. unfold NilZero.string_of_uint.
    destruct d eqn:E; try reflexivity; rewrite <- E; apply no_slash_uint. }
  destruct (Z.to_int x); [apply U|]. cbn. apply U.
Qed.

Lemma filename_v1_plain nanos name : plain (filename_v1 nanos name).
Proof.
  unfold filename_v1.
  assert (dots_only (fmt.d nanos ++ "_" ++ sanitizeFilename name) = false) as D.
  { rewrite dots_only_app.
    replace (dots_only ("_" ++ sanitizeFilename name)) with false by reflexivity.
    apply andb_false_r. }
  repeat split; try (intros E; rewrite E in D; discriminate).
  rewrite !no_slash_app, no_slash_int, sanitizeFilename_no_slash. reflexivity.
Qed.

Section LoopV1.

Context {B : Type} `{store.Backend B}.

Lemma uploadLoop_v1_saves UnixNano script :
  forall (s : SessionV1 B) name data,
    In (EvSaveFile name data) (events1 (uploadLoop_v1 UnixNano script s)) ->
    In (EvSaveFile name data) (events1 s)
    \/ exists nanos part,
        In (inl part) script /\ FileName part <> ""
        /\ name = filename_v1 nanos (FileName part) /\ data = reader part.
Proof.
  induction script as [|next rest IH]; intros s name data I.
  - cbn in I. apply in_app_or in I as [I|[E|[]]]; [now left|discriminate].
  - cbn [uploadLoop_v1] in I. destruct next as [part|err].
    + destruct (String.eqb_spec (FileName part) "") as [E|N].
      * apply IH in I as [I|(nanos & p & ? & ?)].
        -- cbn in I. apply in_app_or in I as [I|[E'|[]]]; [now left|discriminate].
        -- right. exists nanos, p. split; [now right|assumption].
      * cbn [storage1 readings events1] in I.
        destruct (store.SaveFile _ _ _) as [b [e|]];
          apply IH in I as [I|(nanos & p & ? & ?)].
        all: try (right; exists nanos, p; split; [now right|assumption]).
        all: cbn [events1] in I;
          apply in_app_or in I as [I|[E'|[]]];
          [apply in_app_or in I as [I|[E'|[]]]; [now left|discriminate]|];
          injection E' as <- <-; right;
          eexists _, part; repeat split; auto; now left.
    + cbn in I. apply in_app_or in I as [I|[E|[]]]; [now left|discriminate].
Qed.

Lemma uploadLoop_v1_accepted UnixNano parts rest last :
  (forall (b : B) name data, snd (store.SaveFile b name data) = None) ->
  forallb is_part parts = true ->
  forall s : SessionV1 B,
    0 <= saved1 s ->
    saved1 s + Z.of_nat (List.length parts) < 2 ^ 63 ->
    saved1 (uploadLoop_v1 UnixNano (parts ++ inr last :: rest) s)
    = saved1 s + count is_named parts.
Proof.
  intros Hok. induction parts as [|next parts IH]; intros P s Hs Hl.
  - unfold count. cbn. lia.
  - cbn [forallb] in P. apply andb_prop in P as [Pn Pp].
    destruct next as [part|err]; [|discriminate].
    cbn [List.length] in Hl. cbn [app uploadLoop_v1].
    unfold count in *. cbn [filter is_named].
    destruct (String.eqb_spec (FileName part) "") as [E|N]; cbn [negb].
    + rewrite IH; [reflexivity|exact Pp|exact Hs|cbn [saved1]; lia].
    + cbn [storage1 readings events1 saved1].
      match goal with |- context [store.SaveFile ?b ?n ?d] =>
        pose proof (Hok b n d) as Ok; destruct (store.SaveFile b n d) as [b' err]
      end.
      cbn in Ok. subst err.
      rewrite IH; cbn [saved1 List.length]; rewrite ?incr_exact by lia;
        try lia; exact Pp.
Qed.

End LoopV1.

(** X18.  In the earlier revision every name passed to [SaveFile] is a
    clock reading, an underscore and the sanitized filename: a single
    plain name.  Under [LocalStorage] the file is therefore created
    directly in [BasePath], never outside it. *)
Theorem earlier_names_stay_in_root
  {B : Type} `{store.Backend B}
  (l : store.LocalStorage)
  (w : World) (UnixNano : nat -> Z) (b : B) (secret : string) (r : Request)
  (name : string) (data : Reader)
  (Hcall : In (EvSaveFile name data)
             (calls (uploadHandler_v1 w UnixNano b secret r))) :
  (exists nanos filename,
      name = fmt.d nanos ++ "_" ++ sanitizeFilename filename)
  /\ plain name
  /\ store.fullPath l name
     = filepath.render (filepath.rooted (store.BasePath l))
         (filepath.cleaned (store.BasePath l) ++ [name])
  /\ within (store.BasePath l) (store.fullPath l name).
Proof.
  assert (exists nanos part, name = filename_v1 nanos (FileName part))
    as (nanos & part & ->).
  { revert Hcall. unfold uploadHandler_v1.
    destruct (negb (Method r =? http.MethodPost)%string); [intros []|].
    destruct (ParseMediaType w (ContentType r)) as [[mediaType params]|err];
      [|intros []].
    destruct (negb (strings.HasPrefix mediaType "multipart/")); [intros []|].
    destruct (Verify w secret (TurnstileToken r) (RemoteAddr r)) as [success [err|]].
    { cbn. intros [E|[]]. discriminate. }
    destruct success; [|cbn; intros [E|[]]; discriminate].
    cbn [calls]. intros I.
    apply uploadLoop_v1_saves in I as [[E|[]]|(nanos & part & _ & _ & -> & _)];
      [discriminate|]. now exists nanos, part. }
  pose proof (filename_v1_plain nanos (FileName part)) as P.
  assert (store.fullPath l (filename_v1 nanos (FileName part))
          = filepath.render (filepath.rooted (store.BasePath l))
              (filepath.cleaned (store.BasePath l)
                 ++ [filename_v1 nanos (FileName part)])) as E.
  { unfold store.fullPath.
    rewrite <- (render_single (filename_v1 nanos (FileName part))) at 1 by exact P.
    apply Join_base_names. now apply plain_one. }
  repeat split; try apply P.
  - now exists nanos, (FileName part).
  - exact E.
  - exists [filename_v1 nanos (FileName part)]. split; [now apply plain_one|exact E].
Qed.

Lemma earlier_names_stay_in_root_witness :
  (exists nanos filename,
      "1735830245678912345_......etcpasswd"
      = fmt.d nanos ++ "_" ++ sanitizeFilename filename)
  /\ plain "1735830245678912345_......etcpasswd"
  /\ store.fullPath sample.uploads "1735830245678912345_......etcpasswd"
     = filepath.render (filepath.rooted "./uploads")
         (filepath.cleaned "./uploads" ++ ["1735830245678912345_......etcpasswd"])
  /\ within "./uploads"
       (store.fullPath sample.uploads "1735830245678912345_......etcpasswd").
Proof.
  apply (earlier_names_stay_in_root sample.uploads
           (sample.world true [sample.file "../../../etc/passwd" "x"; inr io.EOF])
           (fun _ => 1735830245678912345) sample.mock "secret" sample.post
           "1735830245678912345_......etcpasswd"
           {| contents := "x"; failure := None |}).
  vm_compute. right. right. left. reflexivity.
Defined.

(** X19.  With a backend that refuses nothing and a body of parts ended
    by [io.EOF], the two revisions of the handler give the same
    response. *)
Theorem revisions_agree_on_success
  {B : Type} `{store.Backend B}
  (w : World) (UnixNano : nat -> Z) (b : B) (secret : string) (r : Request)
  (mediaType : string) (params : list (string * string))
  (parts rest : list (Part + error))
  (Hpost : Method r = http.MethodPost)
  (Hparse : ParseMediaType w (ContentType r) = inl (mediaType, params))
  (Hmulti : strings.HasPrefix mediaType "multipart/" = true)
  (Hcaptcha : Verify w secret (TurnstileToken r) (RemoteAddr r) = (true, None))
  (Hscript : NextParts w (RequestBody r) (param params "boundary")
             = (parts ++ inr io.EOF :: rest)%list)
  (Hparts : forallb is_part parts = true)
  (Haccepts : forall (b' : B) name data, snd (store.SaveFile b' name data) = None)
  (Hsmall : Z.of_nat (List.length parts) < 2 ^ 63) :
  response (uploadHandler_v1 w UnixNano b secret r)
  = response (uploadHandler w b secret r).
Proof.
  rewrite (uploadHandler_accepted w b secret r mediaType params) by assumption.
  unfold uploadHandler_v1.
  rewrite Hpost, String.eqb_refl. cbn [negb]. rewrite Hparse, Hmulti. cbn [negb].
  rewrite Hcaptcha, Hscript. cbn [response].
  rewrite (uploadLoop_v1_accepted UnixNano parts rest io.EOF Haccepts Hparts)
    by (cbn [saved1]; lia).
  destruct (uploadLoop_accepted (time.Format (Now w)) parts (inr io.EOF :: rest)
              Haccepts Hparts
              (start b [EvVerify secret (TurnstileToken r) (RemoteAddr r)]))
    as (s' & L & S1 & S2 & S3); [cbn; lia|cbn [start saved]; lia|].
  rewrite L. cbn [start saved failed lastError saved1] in *.
  cbn [uploadLoop loopBody error_eqb io.EOF response]. unfold summary.
  cbn [saved failed lastError record]. rewrite S1, S2, S3.
  destruct (Z.eqb_spec (0 + count is_named parts) 0); reflexivity.
Qed.

Lemma revisions_agree_on_success_witness :
  response (uploadHandler_v1
              (sample.world true
                 [sample.file "a.txt" "A"; sample.file "b.txt" "B"; inr io.EOF])
              (fun n => 1735830245678912345 + Z.of_nat n)
              ([] : Vault) "secret" sample.post)
  = response (uploadHandler
                (sample.world true
                   [sample.file "a.txt" "A"; sample.file "b.txt" "B"; inr io.EOF])
                ([] : Vault) "secret" sample.post).
Proof.
  apply (revisions_agree_on_success
           (sample.world true
              [sample.file "a.txt" "A"; sample.file "b.txt" "B"; inr io.EOF])
           (fun n => 1735830245678912345 + Z.of_nat n)
           ([] : Vault) "secret" sample.post "multipart/form-data" [("boundary", "XYZ")]
           [sample.file "a.txt" "A"; sample.file "b.txt" "B"] []); reflexivity.
Defined.
